(** * UNO room and turn engine: a shallow embedding of the socket server

    The server part of [src/public/game.js] (from [const rooms = new Map()]
    to the [disconnect] handler) is embedded handler by handler.  Every
    handler runs to completion on the single-threaded event loop, so a handler
    is a function from the server state before the call to the state after it
    together with the events it emitted. *)

From Stdlib Require Import ZArith List String Ascii Lia.
From stdpp Require Import base option list gmap strings pretty.

Local Open Scope Z_scope.

(** ** Outcomes of a handler run *)

(** What can stop a handler before its end.  [TypeError]: a property of
    [undefined] is read (the exception is not caught anywhere in the source).
    [UndefinedCard]: [drawCards] pops an empty discard pile and stores
    [undefined] as its only element; hands and piles are lists of cards here,
    so the embedding stops where the source goes on with an [undefined] card.
    [Diverges]: the [do ... while] loop of [startGame] does not end. *)
Inductive fault := TypeError | UndefinedCard | Diverges.

Inductive result (A : Type) :=
  | Ok (a : A)
  | Fault (f : fault).
Arguments Ok {A} a.
Arguments Fault {A} f.

#[global] Instance result_ret : MRet result := λ A x, Ok x.
#[global] Instance result_bind : MBind result := λ A B f r,
  match r with Ok a => f a | Fault e => Fault e end.

(** ** JavaScript arrays and values *)

Section arrays.
Context {A : Type}.

(** [a.pop()]: the last element ([None] for [undefined]) and the rest. *)
Definition pop (a : list A) : option A * list A := (last a, removelast a).

(** [a.unshift(x)]. *)
Definition unshift (x : A) (a : list A) : list A := x :: a.

(** [a[i]] for a number [i]; [None] is [undefined]. *)
Definition index (a : list A) (i : Z) : option A :=
  if Z.ltb i 0 then None else a !! Z.to_nat i.

(** In-place update of the object [a[i]]. *)
Definition update (i : Z) (f : A → A) (a : list A) : list A :=
  if Z.ltb i 0 then a else alter f (Z.to_nat i) a.

(** [a.findIndex(x => P x)]: -1 when there is none. *)
Definition findIndex (P : A → Prop) `{∀ x, Decision (P x)} (a : list A) : Z :=
  match list_find P a with Some (i, _) => Z.of_nat i | None => -1 end.

(** [a.find(x => P x)]. *)
Definition find (P : A → Prop) `{∀ x, Decision (P x)} (a : list A) : option A :=
  snd <$> list_find P a.

(** [[a[i], a[j]] = [a[j], a[i]]]. *)
Definition swap (i j : nat) (a : list A) : list A :=
  match a !! i, a !! j with
  | Some x, Some y => <[i := y]> (<[j := x]> a)
  | _, _ => a
  end.
End arrays.

(** A value sent by a client where the source expects a string or nothing:
    [None] is [null]/[undefined].  The empty string is the one falsy string. *)
Definition truthy (v : option string) : bool :=
  match v with
  | Some s => negb (String.eqb s "")
  | None => false
  end.

(** [v || null]. *)
Definition or_null (v : option string) : option string :=
  if truthy v then v else None.

(** [s.toUpperCase()], on ASCII letters. *)
Definition upper (c : ascii) : ascii :=
  let n := nat_of_ascii c in
  if (Nat.leb 97 n && Nat.leb n 122)%bool then ascii_of_nat (n - 32) else c.

Fixpoint toUpperCase (s : string) : string :=
  match s with
  | EmptyString => EmptyString
  | String c s' => String (upper c) (toUpperCase s')
  end.

(** ** The outside world of one handler run *)

(** A value of [Math.random()]: the fraction [rnum / (rnum + rgap + 1)], which
    lies in [0, 1). *)
Record unit_interval := { rnum : nat; rgap : nat }.

(** [Math.floor(r * k)]. *)
Definition floor_mul (r : unit_interval) (k : nat) : nat :=
  (rnum r * k / (rnum r + rgap r + 1))%nat.

(** What a handler run gets from outside: the values that the successive calls
    of [Math.random()] and of [uuidv4()] return, numbered from 0 within the
    run. *)
Record Env := {
  random : nat → unit_interval;
  uuidv4 : nat → string
}.

(** ** Data model *)

Module Card.
Record t := mk { color : string; value : string; id : string }.
End Card.

Module Player.
(** [oid] is the identity of the player object (its allocation number): the
    source keeps references to player objects in timer callbacks and in
    [room.winner], and two player objects can carry the same socket id. *)
Record t := mk {
  oid : nat;
  id : string;
  name : string;
  cards : list Card.t;
  isHost : bool;
  saidUno : bool;
  canBeCaught : bool;
  catchTimeout : option nat
}.

Definition set_cards (v : list Card.t) (p : t) : t :=
  mk (oid p) (id p) (name p) v (isHost p) (saidUno p) (canBeCaught p) (catchTimeout p).
Definition set_isHost (v : bool) (p : t) : t :=
  mk (oid p) (id p) (name p) (cards p) v (saidUno p) (canBeCaught p) (catchTimeout p).
Definition set_saidUno (v : bool) (p : t) : t :=
  mk (oid p) (id p) (name p) (cards p) (isHost p) v (canBeCaught p) (catchTimeout p).
Definition set_canBeCaught (v : bool) (p : t) : t :=
  mk (oid p) (id p) (name p) (cards p) (isHost p) (saidUno p) v (catchTimeout p).
Definition set_catchTimeout (v : option nat) (p : t) : t :=
  mk (oid p) (id p) (name p) (cards p) (isHost p) (saidUno p) (canBeCaught p) v.

(** [p.cards.push(...cs)]. *)
Definition push_cards (cs : list Card.t) (p : t) : t := set_cards (cards p ++ cs) p.
End Player.

Module Room.
(** [winner] refers to a player object, by its [Player.oid]. *)
Record t := mk {
  code : string;
  players : list Player.t;
  deck : list Card.t;
  discardPile : list Card.t;
  currentPlayerIndex : Z;
  direction : Z;
  chosenColor : option string;
  gameStarted : bool;
  winner : option nat
}.

Definition set_players (v : list Player.t) (r : t) : t :=
  mk (code r) v (deck r) (discardPile r) (currentPlayerIndex r) (direction r)
     (chosenColor r) (gameStarted r) (winner r).
Definition set_deck (v : list Card.t) (r : t) : t :=
  mk (code r) (players r) v (discardPile r) (currentPlayerIndex r) (direction r)
     (chosenColor r) (gameStarted r) (winner r).
Definition set_discardPile (v : list Card.t) (r : t) : t :=
  mk (code r) (players r) (deck r) v (currentPlayerIndex r) (direction r)
     (chosenColor r) (gameStarted r) (winner r).
Definition set_currentPlayerIndex (v : Z) (r : t) : t :=
  mk (code r) (players r) (deck r) (discardPile r) v (direction r)
     (chosenColor r) (gameStarted r) (winner r).
Definition set_direction (v : Z) (r : t) : t :=
  mk (code r) (players r) (deck r) (discardPile r) (currentPlayerIndex r) v
     (chosenColor r) (gameStarted r) (winner r).
Definition set_chosenColor (v : option string) (r : t) : t :=
  mk (code r) (players r) (deck r) (discardPile r) (currentPlayerIndex r) (direction r)
     v (gameStarted r) (winner r).
Definition set_gameStarted (v : bool) (r : t) : t :=
  mk (code r) (players r) (deck r) (discardPile r) (currentPlayerIndex r) (direction r)
     (chosenColor r) v (winner r).
Definition set_winner (v : option nat) (r : t) : t :=
  mk (code r) (players r) (deck r) (discardPile r) (currentPlayerIndex r) (direction r)
     (chosenColor r) (gameStarted r) v.

(** Mutation of the player object [room.players[i]]. *)
Definition update_player (i : Z) (f : Player.t → Player.t) (r : t) : t :=
  set_players (update i f (players r)) r.
End Room.

(** The server: the [rooms] map, the [roomCode] attribute of every socket (by
    socket id), and the timers set by [setTimeout] and not yet fired or
    cleared, each with the player object its callback closes over. *)
Record World := mkWorld {
  rooms : gmap string Room.t;
  roomCode : gmap string string;
  timers : gmap nat nat;
  nextTimer : nat;
  nextOid : nat
}.

Definition set_rooms (v : gmap string Room.t) (w : World) : World :=
  mkWorld v (roomCode w) (timers w) (nextTimer w) (nextOid w).
Definition set_timers (v : gmap nat nat) (w : World) : World :=
  mkWorld (rooms w) (roomCode w) v (nextTimer w) (nextOid w).

(** [setTimeout(callback, 5000)] with a callback that closes over the player
    object [o]: the new handle, and the world with the timer pending. *)
Definition setTimeout (o : nat) (w : World) : nat * World :=
  (nextTimer w,
   mkWorld (rooms w) (roomCode w) (<[nextTimer w := o]> (timers w))
           (S (nextTimer w)) (nextOid w)).

(** [clearTimeout(h)]. *)
Definition clearTimeout (h : nat) (w : World) : World :=
  set_timers (delete h (timers w)) w.

(** ** Events *)

Inductive dest :=
  | ToSocket (sid : string)   (* socket.emit, io.to(p.id).emit *)
  | ToRoom (code : string).   (* io.to(socket.roomCode).emit *)

(** An emitted event: addressee, name, and for ['error'] and
    ['gameCancelled'] the message.  The other payloads are snapshots of the
    state and are left out. *)
Record event := Emit { dst : dest; ename : string; message : option string }.

Definition error (sid : string) (msg : string) : event :=
  Emit (ToSocket sid) "error" (Some msg).

(** ** Deck manager *)

Definition COLORS : list string := ["red"; "blue"; "green"; "yellow"].
Definition VALUES : list string :=
  ["0"; "1"; "2"; "3"; "4"; "5"; "6"; "7"; "8"; "9"; "skip"; "reverse"; "draw2"].

(** The loop of [shuffleDeck], from index [i] down to 1; [k] counts the calls
    of [Math.random()]. *)
Fixpoint shuffleLoop (env : Env) (k i : nat) (shuffled : list Card.t)
  : list Card.t * nat :=
  match i with
  | O => (shuffled, k)
  | S i' =>
    let j := floor_mul (random env k) (i + 1) in
    shuffleLoop env (S k) i' (swap i j shuffled)
  end.

Definition shuffleDeck (env : Env) (k : nat) (deck : list Card.t) : list Card.t * nat :=
  shuffleLoop env k (length deck - 1) deck.

(** Colors and values in the order in which [createDeck] pushes the cards. *)
Definition deckFaces : list (string * string) :=
  flat_map (λ color,
    (color, "0") :: flat_map (λ value, [(color, value); (color, value)]) (tail VALUES))
    COLORS
  ++ flat_map (λ _ : nat, [("wild", "wild"); ("wild", "wild_draw4")]) (seq 0 4).

Definition createDeck (env : Env) : list Card.t * nat :=
  shuffleDeck env 0 (imap (λ i '(color, value), Card.mk color value (uuidv4 env i)) deckFaces).

(** [drawCards(room, count)]: the room after the call, the cards returned and
    the number of calls of [Math.random()] so far. *)
Fixpoint drawCards (env : Env) (k : nat) (room : Room.t) (count : nat)
  : result (Room.t * list Card.t * nat) :=
  match count with
  | O => Ok (room, [], k)
  | S count' =>
    '(room1, k1) ←
      match Room.deck room with
      | [] =>
        (* Reshuffle discard pile except top card *)
        match pop (Room.discardPile room) with
        | (None, _) => Fault UndefinedCard
        | (Some topCard, rest) =>
          let '(d, k1) := shuffleDeck env k rest in
          Ok (Room.set_discardPile [topCard] (Room.set_deck d room), k1)
        end
      | _ => Ok (room, k)
      end;
    match pop (Room.deck room1) with
    | (Some c, d) =>
      '(room2, cs, k2) ← drawCards env k1 (Room.set_deck d room1) count';
      Ok (room2, c :: cs, k2)
    | (None, _) => drawCards env k1 room1 count'
    end
  end.

(** ** Rule engine and turn order *)

(** [canPlayCard(card, topCard, chosenColor)]; [None] when a property of an
    [undefined] top card is read. *)
Definition canPlayCard (card : Card.t) (topCard : option Card.t)
    (chosenColor : option string) : option bool :=
  if String.eqb (Card.color card) "wild" then Some true else
  active ← (if truthy chosenColor then chosenColor else Card.color <$> topCard);
  if String.eqb (Card.color card) active then Some true else
  top ← topCard;
  if String.eqb (Card.value card) (Card.value top) then Some true else Some false.

(** [getNextPlayer(room)].  [%] is the remainder of JavaScript, with the sign
    of the dividend.  Every caller has found a player object in
    [room.players] before the call, so the player count is not 0 there. *)
Definition getNextPlayer (room : Room.t) : Z :=
  let direction := Room.direction room in
  let currentIndex := Room.currentPlayerIndex room in
  let playerCount := Z.of_nat (length (Room.players room)) in
  Z.rem (currentIndex + direction + playerCount) playerCount.

(** ** Room codes *)

Definition chars : string := "ABCDEFGHIJKLMNOPQRSTUVWXYZ0123456789".

(** [s.charAt(i)]: the empty string out of range. *)
Definition charAt (s : string) (i : nat) : string :=
  match String.get i s with
  | Some c => String c EmptyString
  | None => EmptyString
  end.

Fixpoint roomCodeLoop (env : Env) (k n : nat) (code : string) : string :=
  match n with
  | O => code
  | S n' =>
    roomCodeLoop env (S k) n'
      (code +:+ charAt chars (floor_mul (random env k) (String.length chars)))
  end.

Definition generateRoomCode (env : Env) : string := roomCodeLoop env 0 6 "".

(** ** Handlers *)

(** The public roster or state sent to every player of the room:
    [room.players.forEach(p => io.to(p.id).emit(name, {...}))].  The payloads
    of ['gameStarted'] and ['gameState'] read
    [room.players[room.currentPlayerIndex].id]. *)
Definition emitToPlayers (name : string) (room : Room.t) : result (list event) :=
  match Room.players room with
  | [] => Ok []
  | ps =>
    match index ps (Room.currentPlayerIndex room) with
    | None => Fault TypeError
    | Some _ => Ok ((λ p, Emit (ToSocket (Player.id p)) name None) <$> ps)
    end
  end.

Definition newPlayer (o : nat) (sid playerName : string) (host : bool) : Player.t :=
  Player.mk o sid playerName [] host false false None.

(** [socket.on('createRoom', (playerName) => ...)]. *)
Definition createRoom (env : Env) (sid playerName : string) (w : World)
  : result (World * list event) :=
  let roomCode_ := generateRoomCode env in
  let room :=
    Room.mk roomCode_ [newPlayer (nextOid w) sid playerName true] [] [] 0 1 None false None in
  Ok (mkWorld (<[roomCode_ := room]> (rooms w)) (<[sid := roomCode_]> (roomCode w))
              (timers w) (nextTimer w) (S (nextOid w)),
      [Emit (ToSocket sid) "roomCreated" None; Emit (ToRoom roomCode_) "playerList" None]).

(** [socket.on('joinRoom', ({ roomCode, playerName }) => ...)]. *)
Definition joinRoom (sid roomCode_ playerName : string) (w : World)
  : result (World * list event) :=
  match rooms w !! toUpperCase roomCode_ with
  | None => Ok (w, [error sid "Room not found!"])
  | Some room =>
    if Room.gameStarted room then Ok (w, [error sid "Game already in progress!"]) else
    if Nat.leb 10 (length (Room.players room)) then Ok (w, [error sid "Room is full!"]) else
    let player := newPlayer (nextOid w) sid playerName false in
    let room := Room.set_players (Room.players room ++ [player]) room in
    Ok (mkWorld (<[toUpperCase roomCode_ := room]> (rooms w))
                (<[sid := toUpperCase roomCode_]> (roomCode w))
                (timers w) (nextTimer w) (S (nextOid w)),
        [Emit (ToSocket sid) "roomJoined" None;
         Emit (ToRoom (toUpperCase roomCode_)) "playerList" None])
  end.

(** The cards dealt by [room.players.forEach(p => { p.cards = drawCards(room, 7); })],
    from player [i] on, [n] players left. *)
Fixpoint dealLoop (env : Env) (k : nat) (room : Room.t) (i n : nat)
  : result (Room.t * nat) :=
  match n with
  | O => Ok (room, k)
  | S n' =>
    '(room, cs, k) ← drawCards env k room 7;
    dealLoop env k (Room.update_player (Z.of_nat i) (Player.set_cards cs) room) (S i) n'
  end.

(** The [do ... while] loop that places the first card: the first card and the
    deck after the loop.  [fuel] bounds the number of iterations. *)
Fixpoint firstCardLoop (fuel : nat) (deck : list Card.t) : result (Card.t * list Card.t) :=
  match fuel with
  | O => Fault Diverges
  | S fuel' =>
    match pop deck with
    | (None, _) => Fault TypeError
    | (Some firstCard, deck) =>
      if String.eqb (Card.color firstCard) "wild"
      then firstCardLoop fuel' (unshift firstCard deck)
      else Ok (firstCard, deck)
    end
  end.

(** [socket.on('startGame', () => ...)]. *)
Definition startGame (env : Env) (sid : string) (w : World) : result (World * list event) :=
  match roomCode w !! sid with None => Ok (w, []) | Some code =>
  match rooms w !! code with None => Ok (w, []) | Some room =>
  match find (λ p, Player.id p = sid) (Room.players room) with
  | None => Ok (w, [error sid "Only the host can start the game!"])
  | Some player =>
    if negb (Player.isHost player) then
      Ok (w, [error sid "Only the host can start the game!"])
    else if Nat.ltb (length (Room.players room)) 2 then
      Ok (w, [error sid "Need at least 2 players to start!"])
    else
      (* Initialize game *)
      let '(deck, k) := createDeck env in
      let room := Room.set_deck deck room in
      let room := Room.set_gameStarted true room in
      let room := Room.set_currentPlayerIndex 0 room in
      let room := Room.set_direction 1 room in
      (* Deal 7 cards to each player *)
      '(room, k) ← dealLoop env k room 0 (length (Room.players room));
      (* Place first card (make sure it's not a wild card) *)
      '(firstCard, deck) ← firstCardLoop (S (length (Room.deck room))) (Room.deck room);
      let room := Room.set_deck deck room in
      let room := Room.set_discardPile (Room.discardPile room ++ [firstCard]) room in
      (* Handle special first cards *)
      room ←
        (if String.eqb (Card.value firstCard) "skip" then
           Ok (Room.set_currentPlayerIndex (getNextPlayer room) room)
         else if String.eqb (Card.value firstCard) "reverse" then
           Ok (Room.set_direction (Room.direction room * -1) room)
         else if String.eqb (Card.value firstCard) "draw2" then
           '(room, drawn, _) ← drawCards env k room 2;
           let room := Room.update_player 0 (Player.push_cards drawn) room in
           Ok (Room.set_currentPlayerIndex (getNextPlayer room) room)
         else Ok room);
      (* Send game state to all players *)
      evs ← emitToPlayers "gameStarted" room;
      Ok (set_rooms (<[code := room]> (rooms w)) w, evs)
  end end end.

(** The branches for ['draw2'] and ['wild_draw4'] of [playCard], which differ
    in the number [n] of cards only: the turn moves to the next player, who
    draws [n] cards; the second component is [skipNext]. *)
Definition forcedDraw (env : Env) (n : nat) (room : Room.t)
  : result (Room.t * bool * list event) :=
  let room := Room.set_currentPlayerIndex (getNextPlayer room) room in
  match index (Room.players room) (Room.currentPlayerIndex room) with
  | None => Fault TypeError
  | Some nextPlayer =>
    '(room, drawn, _) ← drawCards env 0 room n;
    let room :=
      Room.update_player (Room.currentPlayerIndex room) (Player.push_cards drawn) room in
    Ok (room, true, [Emit (ToSocket (Player.id nextPlayer)) "cardsDrawn" None])
  end.

(** [room.players.forEach(p => { if (p.catchTimeout) { clearTimeout(p.catchTimeout);
    p.catchTimeout = null; } })]: the timers left, and the players. *)
Definition clearCatchTimeouts (ps : list Player.t) (tm : gmap nat nat) : gmap nat nat :=
  foldl (λ tm p, match Player.catchTimeout p with Some h => delete h tm | None => tm end)
        tm ps.

(** The blocks of [playCard] after the winner check, in the order of the
    source and under the comments that head them there. *)

(** [// UNO Logic: Check if player is going down to 1 card], for the player
    object [player] at [playerIndex] whose hand is now [hand]. *)
Definition unoLogic (code : string) (playerIndex : Z) (player : Player.t)
    (hand : list Card.t) (room : Room.t) (w : World) : Room.t * World * list event :=
  if Nat.eqb (length hand) 1 then
    if negb (Player.saidUno player) then
      (* Player didn't say UNO! They can be caught for 5 seconds *)
      let '(h, w) := setTimeout (Player.oid player) w in
      (Room.update_player playerIndex
         (λ p, Player.set_catchTimeout (Some h) (Player.set_canBeCaught true p)) room,
       w, [Emit (ToRoom code) "unoForgotten" None])
    else
      (* Player said UNO, they're safe *)
      (room, w, [Emit (ToRoom code) "unoSafe" None])
  else (room, w, []).

(** [// Handle special cards]: the room, [skipNext] and the events. *)
Definition handleSpecialCards (env : Env) (card : Card.t) (room : Room.t)
  : result (Room.t * bool * list event) :=
  if String.eqb (Card.value card) "skip" then Ok (room, true, [])
  else if String.eqb (Card.value card) "reverse" then
    let room := Room.set_direction (Room.direction room * -1) room in
    Ok (room, Nat.eqb (length (Room.players room)) 2, [])
  else if String.eqb (Card.value card) "draw2" then forcedDraw env 2 room
  else if String.eqb (Card.value card) "wild_draw4" then forcedDraw env 4 room
  else Ok (room, false, []).

(** [// Move to next player]. *)
Definition moveToNextPlayer (skipNext : bool) (room : Room.t) : Room.t :=
  let room := Room.set_currentPlayerIndex (getNextPlayer room) room in
  if skipNext then Room.set_currentPlayerIndex (getNextPlayer room) room else room.

(** [playCard] from [// Remove card from player's hand] on: the validation is
    over, [player] is [room.players[playerIndex]] and [card] is
    [player.cards[cardIndex]]. *)
Definition playAccepted (env : Env) (code : string) (playerIndex : Z) (player : Player.t)
    (cardIndex : nat) (card : Card.t) (chosenColor : option string)
    (room : Room.t) (w : World) : result (World * list event) :=
  (* Remove card from player's hand *)
  let hand := delete cardIndex (Player.cards player) in
  let room := Room.update_player playerIndex (Player.set_cards hand) room in
  let room := Room.set_discardPile (Room.discardPile room ++ [card]) room in
  let room := Room.set_chosenColor (or_null chosenColor) room in
  (* Check for winner *)
  if Nat.eqb (length hand) 0 then
    let room := Room.set_winner (Some (Player.oid player)) room in
    let room := Room.set_gameStarted false room in
    (* Clear any pending catch timeouts *)
    let w := set_timers (clearCatchTimeouts (Room.players room) (timers w)) w in
    let room :=
      Room.set_players (Player.set_catchTimeout None <$> Room.players room) room in
    Ok (set_rooms (<[code := room]> (rooms w)) w, [Emit (ToRoom code) "gameOver" None])
  else
    let '(room, w, evs1) := unoLogic code playerIndex player hand room w in
    (* Reset UNO status for next round *)
    let room := Room.update_player playerIndex (Player.set_saidUno false) room in
    '(room, skipNext, evs2) ← handleSpecialCards env card room;
    let room := moveToNextPlayer skipNext room in
    (* Send updated game state *)
    evs3 ← emitToPlayers "gameState" room;
    Ok (set_rooms (<[code := room]> (rooms w)) w, evs1 ++ evs2 ++ evs3).

(** [socket.on('playCard', ({ cardId, chosenColor }) => ...)]. *)
Definition playCard (env : Env) (sid cardId : string) (chosenColor : option string)
    (w : World) : result (World * list event) :=
  match roomCode w !! sid with None => Ok (w, []) | Some code =>
  match rooms w !! code with None => Ok (w, []) | Some room =>
  if negb (Room.gameStarted room) then Ok (w, []) else
  let playerIndex := findIndex (λ p, Player.id p = sid) (Room.players room) in
  if negb (Z.eqb playerIndex (Room.currentPlayerIndex room)) then
    Ok (w, [error sid "It's not your turn!"])
  else
  match index (Room.players room) playerIndex with
  | None => Fault TypeError
  | Some player =>
  match list_find (λ c, Card.id c = cardId) (Player.cards player) with
  | None => Ok (w, [error sid "Card not found!"])
  | Some (cardIndex, card) =>
  let topCard := last (Room.discardPile room) in
  match canPlayCard card topCard (Room.chosenColor room) with
  | None => Fault TypeError
  | Some false => Ok (w, [error sid "Invalid card!"])
  | Some true => playAccepted env code playerIndex player cardIndex card chosenColor room w
  end end end end end.

(** [socket.on('drawCard', () => ...)]. *)
Definition drawCard (env : Env) (sid : string) (w : World) : result (World * list event) :=
  match roomCode w !! sid with None => Ok (w, []) | Some code =>
  match rooms w !! code with None => Ok (w, []) | Some room =>
  if negb (Room.gameStarted room) then Ok (w, []) else
  let playerIndex := findIndex (λ p, Player.id p = sid) (Room.players room) in
  if negb (Z.eqb playerIndex (Room.currentPlayerIndex room)) then
    Ok (w, [error sid "It's not your turn!"])
  else
    '(room, drawnCards, _) ← drawCards env 0 room 1;
    match index (Room.players room) playerIndex with
    | None => Fault TypeError
    | Some _ =>
      let room := Room.update_player playerIndex (Player.push_cards drawnCards) room in
      (* Check if drawn card can be played *)
      let topCard := last (Room.discardPile room) in
      canPlay ←
        match drawnCards with
        | [] => Ok false
        | drawn :: _ =>
          match canPlayCard drawn topCard (Room.chosenColor room) with
          | None => Fault TypeError
          | Some b => Ok b
          end
        end;
      let evs1 := [Emit (ToSocket sid) "cardDrawn" None] in
      (* If can't play, move to next player *)
      if canPlay : bool then Ok (set_rooms (<[code := room]> (rooms w)) w, evs1)
      else
        let room := Room.set_currentPlayerIndex (getNextPlayer room) room in
        let room := Room.set_chosenColor None room in
        evs2 ← emitToPlayers "gameState" room;
        Ok (set_rooms (<[code := room]> (rooms w)) w, evs1 ++ evs2)
    end
  end end.

(** [socket.on('sayUno', () => ...)]. *)
Definition sayUno (sid : string) (w : World) : result (World * list event) :=
  match roomCode w !! sid with None => Ok (w, []) | Some code =>
  match rooms w !! code with None => Ok (w, []) | Some room =>
  if negb (Room.gameStarted room) then Ok (w, []) else
  match list_find (λ p, Player.id p = sid) (Room.players room) with
  | None => Ok (w, [])
  | Some (i, player) =>
    (* Player can say UNO when they have 2 cards (before playing) or 1 card (after playing) *)
    if Nat.leb (length (Player.cards player)) 2 then
      let room := Room.update_player (Z.of_nat i) (Player.set_saidUno true) room in
      (* If they already played and were catchable, they're now safe *)
      let '(room, w) :=
        if Player.canBeCaught player then
          let room := Room.update_player (Z.of_nat i) (Player.set_canBeCaught false) room in
          match Player.catchTimeout player with
          | Some h =>
            (Room.update_player (Z.of_nat i) (Player.set_catchTimeout None) room,
             clearTimeout h w)
          | None => (room, w)
          end
        else (room, w) in
      Ok (set_rooms (<[code := room]> (rooms w)) w, [Emit (ToRoom code) "unoSaid" None])
    else Ok (w, [])
  end end end.

(** [socket.on('catchUno', (targetPlayerId) => ...)]. *)
Definition catchUno (env : Env) (sid targetPlayerId : string) (w : World)
  : result (World * list event) :=
  match roomCode w !! sid with None => Ok (w, []) | Some code =>
  match rooms w !! code with None => Ok (w, []) | Some room =>
  if negb (Room.gameStarted room) then Ok (w, []) else
  match find (λ p, Player.id p = sid) (Room.players room),
        list_find (λ p, Player.id p = targetPlayerId) (Room.players room) with
  | Some catcher, Some (i, target) =>
    (* Can't catch yourself *)
    if decide (Player.id catcher = Player.id target) then
      Ok (w, [error sid "You can't catch yourself!"])
    (* Check if target can be caught *)
    else if (Player.canBeCaught target && Nat.eqb (length (Player.cards target)) 1)%bool then
      (* Target is caught! They draw 2 cards as penalty *)
      let room := Room.update_player (Z.of_nat i) (Player.set_canBeCaught false) room in
      let '(room, w) :=
        match Player.catchTimeout target with
        | Some h =>
          (Room.update_player (Z.of_nat i) (Player.set_catchTimeout None) room,
           clearTimeout h w)
        | None => (room, w)
        end in
      '(room, penaltyCards, _) ← drawCards env 0 room 2;
      let room := Room.update_player (Z.of_nat i) (Player.push_cards penaltyCards) room in
      (* Notify everyone, send updated cards to the caught player, update game state *)
      evs ← emitToPlayers "gameState" room;
      Ok (set_rooms (<[code := room]> (rooms w)) w,
          [Emit (ToRoom code) "unoCaught" None;
           Emit (ToSocket (Player.id target)) "cardsDrawn" None] ++ evs)
    else Ok (w, [error sid "Too late! Player is safe now."])
  | _, _ => Ok (w, [error sid "Player not found!"])
  end end end.

(** [socket.on('disconnect', () => ...)]. *)
Definition disconnect (sid : string) (w : World) : result (World * list event) :=
  match roomCode w !! sid with None => Ok (w, []) | Some code =>
  if String.eqb code "" then Ok (w, []) else
  match rooms w !! code with None => Ok (w, []) | Some room =>
  match list_find (λ p, Player.id p = sid) (Room.players room) with
  | None => Ok (w, [])
  | Some (playerIndex, player) =>
    let room := Room.set_players (delete playerIndex (Room.players room)) room in
    if Nat.eqb (length (Room.players room)) 0 then
      Ok (set_rooms (delete code (rooms w)) w, [])
    else
      (* If host left, assign new host *)
      let room :=
        if (Player.isHost player && Nat.ltb 0 (length (Room.players room)))%bool
        then Room.update_player 0 (Player.set_isHost true) room
        else room in
      (* Adjust current player index if needed *)
      let room :=
        if (Room.gameStarted room
            && Z.leb (Z.of_nat (length (Room.players room))) (Room.currentPlayerIndex room))%bool
        then Room.set_currentPlayerIndex 0 room
        else room in
      let evs1 := [Emit (ToRoom code) "playerLeft" None] in
      if (Room.gameStarted room && Nat.ltb (length (Room.players room)) 2)%bool then
        let room := Room.set_gameStarted false room in
        Ok (set_rooms (<[code := room]> (rooms w)) w,
            evs1 ++ [Emit (ToRoom code) "gameCancelled" (Some "Not enough players to continue!")])
      else Ok (set_rooms (<[code := room]> (rooms w)) w, evs1)
  end end end.

(** The callback given to [setTimeout] in [playCard], run when the pending
    timer [h] fires: [player.canBeCaught = false; player.catchTimeout = null]
    on the player object the callback closes over.  A player object that is
    no longer in a room of the registry cannot be observed any more. *)
Definition catchTimeoutFires (h : nat) (w : World) : result (World * list event) :=
  match timers w !! h with
  | None => Ok (w, [])
  | Some o =>
    let expire p :=
      if decide (Player.oid p = o)
      then Player.set_catchTimeout None (Player.set_canBeCaught false p)
      else p in
    Ok (mkWorld ((λ room, Room.set_players (expire <$> Room.players room) room) <$> rooms w)
                (roomCode w) (delete h (timers w)) (nextTimer w) (nextOid w),
        [])
  end.

(** ** The server as a transition system *)

Inductive action :=
  | CreateRoom (sid playerName : string)
  | JoinRoom (sid roomCode_ playerName : string)
  | StartGame (sid : string)
  | PlayCard (sid cardId : string) (chosenColor : option string)
  | DrawCard (sid : string)
  | SayUno (sid : string)
  | CatchUno (sid targetPlayerId : string)
  | Disconnect (sid : string)
  | TimerFires (h : nat).

Definition step (env : Env) (a : action) (w : World) : result (World * list event) :=
  match a with
  | CreateRoom sid playerName => createRoom env sid playerName w
  | JoinRoom sid roomCode_ playerName => joinRoom sid roomCode_ playerName w
  | StartGame sid => startGame env sid w
  | PlayCard sid cardId chosenColor => playCard env sid cardId chosenColor w
  | DrawCard sid => drawCard env sid w
  | SayUno sid => sayUno sid w
  | CatchUno sid targetPlayerId => catchUno env sid targetPlayerId w
  | Disconnect sid => disconnect sid w
  | TimerFires h => catchTimeoutFires h w
  end.

(** The server at start-up. *)
Definition initial : World := mkWorld ∅ ∅ ∅ 0 0.

(** States the server can reach: from start-up, by handler runs that end. *)
Inductive reachable : World → Prop :=
  | reachable_initial : reachable initial
  | reachable_step env a w w' evs :
      reachable w → step env a w = Ok (w', evs) → reachable w'.

(** * Vocabulary of the statements *)

(** ** Deck and turn order *)

(** The cards that [drawCards] can still hand out: the deck and the discard
    pile but its top card. *)
Definition available (r : Room.t) : nat :=
  (length (Room.deck r) + (length (Room.discardPile r) - 1))%nat.

(** What [drawCards] leaves alone. *)
Definition same_table (r r' : Room.t) : Prop :=
  Room.code r' = Room.code r ∧ Room.players r' = Room.players r ∧
  Room.currentPlayerIndex r' = Room.currentPlayerIndex r ∧
  Room.direction r' = Room.direction r ∧ Room.chosenColor r' = Room.chosenColor r ∧
  Room.gameStarted r' = Room.gameStarted r ∧ Room.winner r' = Room.winner r.

(** One step of the turn among [n] players in direction [d]. *)
Definition next (n d i : Z) : Z := Z.rem (i + d + n) n.

(** Directions the server ever sets: 1 at the start, negated by a reverse. *)
Definition direction_ok (room : Room.t) : Prop :=
  Room.direction room = 1 ∨ Room.direction room = -1.

(** What holds of every room the server can hold: the direction is 1 or -1,
    and while the game is on the discard pile is not empty and the current
    index is the index of a player. *)
Definition room_ok (room : Room.t) : Prop :=
  direction_ok room ∧
  (Room.gameStarted room = true →
   Room.discardPile room ≠ [] ∧
   0 ≤ Room.currentPlayerIndex room < Z.of_nat (length (Room.players room))).

Definition world_ok (w : World) : Prop :=
  ∀ code room, rooms w !! code = Some room → room_ok room.

(** The socket ids of the players, in turn order. *)
Definition ids (ps : list Player.t) : list string := Player.id <$> ps.

(** The sizes of the hands, in turn order. *)
Definition hands (r : Room.t) : list nat := (length ∘ Player.cards) <$> Room.players r.

(** [r'] is [r] with other player objects under the same socket ids. *)
Definition players_only (r r' : Room.t) : Prop :=
  r' = Room.set_players (Room.players r') r ∧
  ids (Room.players r') = ids (Room.players r).

(** How many times the turn moves on after [card] is played among
    [playerCount] players, and the direction in which it does. *)
Definition turnSteps (card : Card.t) (playerCount : nat) : nat :=
  if String.eqb (Card.value card) "skip" then 2
  else if String.eqb (Card.value card) "reverse" then
    (if Nat.eqb playerCount 2 then 2 else 1)
  else if String.eqb (Card.value card) "draw2" then 3
  else if String.eqb (Card.value card) "wild_draw4" then 3
  else 1.

Definition directionAfter (card : Card.t) (d : Z) : Z :=
  if String.eqb (Card.value card) "reverse" then d * -1 else d.

(** ** Rejected and accepted actions *)

(** An action is rejected when its handler emits an ['error'] event. *)
Definition rejected (evs : list event) : Prop := Exists (λ e, ename e = "error") evs.

(** No ['error'] event among [evs]. *)
Definition quiet (evs : list event) : Prop := Forall (λ e, ename e ≠ "error") evs.

(** The checks that [playCard] makes before it changes anything, with what
    they find: the room [code] of the socket, the player object [player] at
    the current index, and the card [card] at [cardIndex] of the hand. *)
Record accepted (sid cardId : string) (w : World) (code : string) (room : Room.t)
    (player : Player.t) (cardIndex : nat) (card : Card.t) : Prop := {
  acc_socket : roomCode w !! sid = Some code;
  acc_room : rooms w !! code = Some room;
  acc_started : Room.gameStarted room = true;
  acc_turn :
    findIndex (λ p, Player.id p = sid) (Room.players room) = Room.currentPlayerIndex room;
  acc_player : index (Room.players room) (Room.currentPlayerIndex room) = Some player;
  acc_card : list_find (λ c, Card.id c = cardId) (Player.cards player) = Some (cardIndex, card);
  acc_legal :
    canPlayCard card (last (Room.discardPile room)) (Room.chosenColor room) = Some true
}.

(** What [catchUno] looks up before it decides: the room of the socket, the
    player object [catcher] of the socket and the player object [target],
    found at index [i], of the id sent. *)
Record catch_attempt (sid targetPlayerId : string) (w : World) (code : string)
    (room : Room.t) (catcher : Player.t) (i : nat) (target : Player.t) : Prop := {
  att_socket : roomCode w !! sid = Some code;
  att_room : rooms w !! code = Some room;
  att_started : Room.gameStarted room = true;
  att_catcher : find (λ p, Player.id p = sid) (Room.players room) = Some catcher;
  att_target :
    list_find (λ p, Player.id p = targetPlayerId) (Room.players room) = Some (i, target)
}.

(** The error of a catch that comes too late. *)
Definition tooLate (sid : string) : event := error sid "Too late! Player is safe now.".

(** The flag of a player is set exactly when a timer for that player object
    is pending. *)
Definition flag_iff_timer (w : World) : Prop :=
  ∀ code room p,
    rooms w !! code = Some room → p ∈ Room.players room →
    Player.canBeCaught p = true ↔ ∃ h, timers w !! h = Some (Player.oid p).

(** ** Runs *)

(** The world a handler run ends in. *)
Definition after (r : result (World * list event)) : option World :=
  match r with Ok (w, _) => Some w | Fault _ => None end.

(** A run of the server: the actions in order, each with the same outside
    world; [None] when a handler does not end. *)
Definition run (env : Env) (acts : list action) (w : World) : option World :=
  foldl (λ ow a, w ← ow; after (step env a w)) (Some w) acts.

(** The world after a run, or the world before it when a handler does not
    end. *)
Definition ran (env : Env) (acts : list action) (w : World) : World :=
  default w (run env acts w).

(** * Rooms and runs of the examples *)

(** An outside world: [Math.random()] returns 0 at every call, and the
    [n]-th card made gets the id ["card" n]. *)
Definition env0 : Env :=
  {| random := λ _, {| rnum := 0; rgap := 0 |}; uuidv4 := λ i, "card" +:+ pretty i |}.

(** The player of socket [sid], the [o]-th player object made; object 0 is the
    host. *)
Definition seat (o : nat) (sid : string) (hand : list Card.t) : Player.t :=
  Player.mk o sid sid hand (Nat.eqb o 0) false false None.

(** The [roomCode] attribute of the sockets [sids], all in room [code]. *)
Definition sockets (code : string) (sids : list string) : gmap string string :=
  list_to_map ((λ sid, (sid, code)) <$> sids).

Definition stock : list Card.t :=
  [Card.mk "yellow" "1" "k1"; Card.mk "yellow" "2" "k2"; Card.mk "yellow" "3" "k3";
   Card.mk "yellow" "4" "k4"; Card.mk "yellow" "5" "k5"].

(** Four players, two cards each; the first holds a red draw-two and the top
    of the discard pile is a red 3. *)
Definition table4Room (cur : Z) : Room.t :=
  Room.mk "ROOM01"
    [seat 0 "s1" [Card.mk "red" "draw2" "a1"; Card.mk "red" "5" "a2"];
     seat 1 "s2" [Card.mk "green" "1" "b1"; Card.mk "green" "2" "b2"];
     seat 2 "s3" [Card.mk "green" "3" "c1"; Card.mk "green" "4" "c2"];
     seat 3 "s4" [Card.mk "green" "5" "d1"; Card.mk "green" "6" "d2"]]
    stock [Card.mk "red" "3" "t1"] cur 1 None true None.

Definition table4 (cur : Z) : World :=
  mkWorld {[ "ROOM01" := table4Room cur ]} (sockets "ROOM01" ["s1"; "s2"; "s3"; "s4"]) ∅ 0 4.

(** Two players; it is the turn of the first, who holds a red reverse, a red
    5 and a wild card. *)
Definition duelS1 : Player.t :=
  seat 0 "s1" [Card.mk "red" "reverse" "a1"; Card.mk "red" "5" "a2";
               Card.mk "wild" "wild" "a3"].

Definition duelRoom : Room.t :=
  Room.mk "ROOM01"
    [duelS1;
     seat 1 "s2" [Card.mk "red" "draw2" "b1"; Card.mk "green" "1" "b2";
                  Card.mk "green" "2" "b3"]]
    stock [Card.mk "red" "3" "t1"] 0 1 None true None.

Definition duel : World :=
  mkWorld {[ "ROOM01" := duelRoom ]} (sockets "ROOM01" ["s1"; "s2"]) ∅ 0 2.

(** Two players; the first holds two cards and has not said UNO, the second
    holds a red draw-two. *)
Definition endgameS2 : Player.t :=
  seat 1 "s2" [Card.mk "red" "draw2" "b1"; Card.mk "green" "1" "b2"; Card.mk "green" "2" "b3"].

Definition endgame : World :=
  mkWorld
    {[ "ROOM01" :=
         Room.mk "ROOM01"
           [seat 0 "s1" [Card.mk "red" "5" "a1"; Card.mk "red" "7" "a2"]; endgameS2]
           stock [Card.mk "red" "3" "t1"] 0 1 None true None ]}
    (sockets "ROOM01" ["s1"; "s2"]) ∅ 0 2.

(** [endgame] after the first player has played its red 5: it holds one card,
    its flag is set and its timer, handle 0, is pending. *)
Definition endgame1 : World := ran env0 [PlayCard "s1" "a1" None] endgame.

Definition vulnerableS1 : Player.t :=
  Player.mk 0 "s1" "s1" [Card.mk "red" "7" "a2"] true false true (Some 0%nat).

Definition endgame1Room : Room.t :=
  Room.mk "ROOM01" [vulnerableS1; endgameS2] stock
    [Card.mk "red" "3" "t1"; Card.mk "red" "5" "a1"] 1 1 None true None.

(** [endgame1] after the second player has played its red draw-two: the first
    holds three cards, its flag is still set and its timer still pending. *)
Definition endgame2 : World :=
  ran env0 [PlayCard "s1" "a1" None; PlayCard "s2" "b1" None] endgame.

Definition loadedS1 : Player.t :=
  Player.mk 0 "s1" "s1"
    [Card.mk "red" "7" "a2"; Card.mk "yellow" "5" "k5"; Card.mk "yellow" "4" "k4"]
    true false true (Some 0%nat).

Definition endgame2S2 : Player.t :=
  seat 1 "s2" [Card.mk "green" "1" "b2"; Card.mk "green" "2" "b3"].

Definition endgame2Room : Room.t :=
  Room.mk "ROOM01" [loadedS1; endgame2S2]
    [Card.mk "yellow" "1" "k1"; Card.mk "yellow" "2" "k2"; Card.mk "yellow" "3" "k3"]
    [Card.mk "red" "3" "t1"; Card.mk "red" "5" "a1"; Card.mk "red" "draw2" "b1"]
    0 1 None true None.

(** Two players with one card each.  The second has just played down to one
    card without saying UNO: its flag is set and its timer, handle 0, is
    pending.  It is the turn of the first, who has said UNO and whose last
    card is a red draw-two. *)
Definition finaleS1 : Player.t :=
  Player.mk 0 "s1" "s1" [Card.mk "red" "draw2" "a1"] true true false None.

Definition finaleS2 : Player.t :=
  Player.mk 1 "s2" "s2" [Card.mk "green" "1" "b1"] false false true (Some 0%nat).

Definition finaleRoom : Room.t :=
  Room.mk "ROOM01" [finaleS1; finaleS2] stock [Card.mk "red" "3" "t1"] 0 1 None true None.

Definition finale : World :=
  mkWorld {[ "ROOM01" := finaleRoom ]} (sockets "ROOM01" ["s1"; "s2"])
          {[ 0%nat := 1%nat ]} 1 2.

(** From start-up: two sockets create, join and start a room; the second then
    plays six of its seven cards and does not say UNO. *)
Definition opening : list action :=
  [CreateRoom "s1" "Ann"; JoinRoom "s2" "aaaaaa" "Bob"; StartGame "s1";
   PlayCard "s2" "card95" None; PlayCard "s2" "card96" None; PlayCard "s2" "card97" None;
   PlayCard "s2" "card99" None; PlayCard "s1" "card102" (Some "yellow");
   PlayCard "s2" "card98" None; PlayCard "s1" "card104" (Some "red");
   PlayCard "s2" "card100" (Some "red")].

(** A lobby of ten players. *)
Definition fullLobby : World :=
  ran env0
    [CreateRoom "s1" "p1"; JoinRoom "s2" "AAAAAA" "p2"; JoinRoom "s3" "AAAAAA" "p3";
     JoinRoom "s4" "AAAAAA" "p4"; JoinRoom "s5" "AAAAAA" "p5"; JoinRoom "s6" "AAAAAA" "p6";
     JoinRoom "s7" "AAAAAA" "p7"; JoinRoom "s8" "AAAAAA" "p8"; JoinRoom "s9" "AAAAAA" "p9";
     JoinRoom "s10" "AAAAAA" "p10"] initial.

(** A lobby with its creator alone. *)
Definition soloLobby : World := ran env0 [CreateRoom "s1" "p1"] initial.

(** * The chat, the payloads and the page *)

(** ** Chat *)

(** What a ['chatMessage'] event carries to a room. *)
Record chat := Chat { chatRoom : string; playerName : string; chatText : string }.

(** [socket.on('chatMessage', (message) => ...)].  The handler reads the state
    and changes nothing: the event it emits to the room of the socket, if
    any. *)
Definition chatMessage (sid message : string) (w : World) : option chat :=
  code ← roomCode w !! sid;
  room ← rooms w !! code;
  player ← find (λ p, Player.id p = sid) (Room.players room);
  Some (Chat code (Player.name player) message).

(** ** What the players are sent *)

(** A player as the payloads show it to everybody:
    [{ id, name, cardCount, isHost, canBeCaught }].  The payloads of
    [startGame], [drawCard] and [disconnect] leave [canBeCaught] out, which
    reads as [undefined]. *)
Module View.
Record t := mk {
  id : string;
  name : string;
  cardCount : nat;
  isHost : bool;
  canBeCaught : option bool
}.
End View.

(** [room.players.map(pl => ({ id: pl.id, name: pl.name, cardCount:
    pl.cards.length, isHost: pl.isHost, canBeCaught: pl.canBeCaught }))]. *)
Definition publicPlayers (room : Room.t) : list View.t :=
  (λ pl, View.mk (Player.id pl) (Player.name pl) (length (Player.cards pl))
           (Player.isHost pl) (Some (Player.canBeCaught pl))) <$> Room.players room.

(** The payload of ['gameState']. *)
Module Data.
Record t := mk {
  cards : list Card.t;
  topCard : option Card.t;
  currentPlayer : string;
  direction : Z;
  chosenColor : option string;
  players : list View.t
}.
End Data.

(** The ['gameState'] that [sendGameState] of [playCard] and the loop at the
    end of [catchUno] send to the player [p]; nothing when
    [room.players[room.currentPlayerIndex]] is [undefined]. *)
Definition gameState (room : Room.t) (p : Player.t) : option Data.t :=
  current ← index (Room.players room) (Room.currentPlayerIndex room);
  Some (Data.mk (Player.cards p) (last (Room.discardPile room)) (Player.id current)
          (Room.direction room) (Room.chosenColor room) (publicPlayers room)).

(** ** The client *)

(** What the page sends to the server with [socket.emit]. *)
Inductive request :=
  | EmitPlayCard (cardId : string) (chosenColor : option string)
  | EmitDrawCard
  | EmitSayUno
  | EmitCatchUno (targetPlayerId : string).

(** The request as the server receives it from the socket [sid]. *)
Definition received (sid : string) (r : request) : action :=
  match r with
  | EmitPlayCard cardId chosenColor => PlayCard sid cardId chosenColor
  | EmitDrawCard => DrawCard sid
  | EmitSayUno => SayUno sid
  | EmitCatchUno targetPlayerId => CatchUno sid targetPlayerId
  end.

Module Client.
(** The variables of the page under [// Game state], and of the document the
    catch buttons that [renderOpponents] has put into it, each with the
    player id that its click sends.  The rest of the document and the toasts
    are left out. *)
Record t := mk {
  myId : option string;
  myCards : list Card.t;
  isMyTurn : bool;
  topCard : option Card.t;
  chosenColor : option string;
  pendingWildCard : option Card.t;
  calledUno : bool;
  catchablePlayers : list View.t;
  catchButtons : list string
}.

(** The page when it is loaded. *)
Definition start : t := mk None [] false None None None false [] [].

Definition set_myId (v : option string) (c : t) : t :=
  mk v (myCards c) (isMyTurn c) (topCard c) (chosenColor c) (pendingWildCard c)
     (calledUno c) (catchablePlayers c) (catchButtons c).
Definition set_myCards (v : list Card.t) (c : t) : t :=
  mk (myId c) v (isMyTurn c) (topCard c) (chosenColor c) (pendingWildCard c)
     (calledUno c) (catchablePlayers c) (catchButtons c).
Definition set_isMyTurn (v : bool) (c : t) : t :=
  mk (myId c) (myCards c) v (topCard c) (chosenColor c) (pendingWildCard c)
     (calledUno c) (catchablePlayers c) (catchButtons c).
Definition set_topCard (v : option Card.t) (c : t) : t :=
  mk (myId c) (myCards c) (isMyTurn c) v (chosenColor c) (pendingWildCard c)
     (calledUno c) (catchablePlayers c) (catchButtons c).
Definition set_chosenColor (v : option string) (c : t) : t :=
  mk (myId c) (myCards c) (isMyTurn c) (topCard c) v (pendingWildCard c)
     (calledUno c) (catchablePlayers c) (catchButtons c).
Definition set_pendingWildCard (v : option Card.t) (c : t) : t :=
  mk (myId c) (myCards c) (isMyTurn c) (topCard c) (chosenColor c) v
     (calledUno c) (catchablePlayers c) (catchButtons c).
Definition set_calledUno (v : bool) (c : t) : t :=
  mk (myId c) (myCards c) (isMyTurn c) (topCard c) (chosenColor c) (pendingWildCard c)
     v (catchablePlayers c) (catchButtons c).

(** [canPlayCard(card)] of the page. *)
Definition canPlayCard (c : t) (card : Card.t) : bool :=
  match topCard c with
  | None => false
  | Some top =>
    if negb (isMyTurn c) then false
    else if String.eqb (Card.color card) "wild" then true
    else
      let activeColor :=
        match chosenColor c with
        | Some color => if truthy (Some color) then color else Card.color top
        | None => Card.color top
        end in
      if String.eqb (Card.color card) activeColor then true
      else if String.eqb (Card.value card) (Card.value top) then true
      else false
  end.

(** [renderOpponents(players, currentPlayerId)]. *)
Definition renderOpponents (players : list View.t) (c : t) : t :=
  mk (myId c) (myCards c) (isMyTurn c) (topCard c) (chosenColor c) (pendingWildCard c)
     (calledUno c)
     (filter (λ p, View.canBeCaught p = Some true ∧ Some (View.id p) ≠ myId c) players)
     (View.id <$>
        filter (λ player, Some (View.id player) ≠ myId c ∧
                          View.canBeCaught player = Some true ∧
                          View.cardCount player = 1%nat) players).

(** [handleCardClick(card)]. *)
Definition handleCardClick (card : Card.t) (c : t) : t * list request :=
  if negb (isMyTurn c) then (c, [])
  else if negb (canPlayCard c card) then (c, [])
  (* Wild card - show color picker *)
  else if String.eqb (Card.color card) "wild" then (set_pendingWildCard (Some card) c, [])
  else (c, [EmitPlayCard (Card.id card) None]).

(** The click on the draw pile. *)
Definition drawPileClick (c : t) : t * list request :=
  if negb (isMyTurn c) then (c, []) else (c, [EmitDrawCard]).

(** The click on the button of the color picker whose [data-color] is
    [color]. *)
Definition colorClick (color : option string) (c : t) : t * list request :=
  match pendingWildCard c with
  | Some card => (set_pendingWildCard None c, [EmitPlayCard (Card.id card) color])
  | None => (c, [])
  end.

(** The click on the UNO button. *)
Definition unoClick (c : t) : t * list request :=
  (set_calledUno true c, [EmitSayUno]).

(** The click on the catch button of the player [playerId], when
    [renderOpponents] has made one. *)
Definition catchClick (playerId : string) (c : t) : t * list request :=
  if decide (playerId ∈ catchButtons c) then (c, [EmitCatchUno playerId]) else (c, []).

(** [socket.on('roomCreated', ...)] and [socket.on('roomJoined', ...)]. *)
Definition onRoom (playerId : string) (c : t) : t := set_myId (Some playerId) c.

(** [socket.on('gameStarted', (data) => ...)]. *)
Definition onGameStarted (data : Data.t) (c : t) : t :=
  let c := set_myCards (Data.cards data) c in
  let c := set_topCard (Data.topCard data) c in
  let c := set_isMyTurn (bool_decide (Some (Data.currentPlayer data) = myId c)) c in
  let c := set_chosenColor None c in
  let c := set_calledUno false c in
  renderOpponents (Data.players data) c.

(** [socket.on('gameState', (data) => ...)]. *)
Definition onGameState (data : Data.t) (c : t) : t :=
  let c := set_myCards (Data.cards data) c in
  let c := set_topCard (Data.topCard data) c in
  let c := set_isMyTurn (bool_decide (Some (Data.currentPlayer data) = myId c)) c in
  let c := set_chosenColor (Data.chosenColor data) c in
  renderOpponents (Data.players data) c.

(** [socket.on('cardDrawn', ...)] and [socket.on('cardsDrawn', ...)]. *)
Definition onCards (cards : list Card.t) (c : t) : t :=
  let c := set_myCards cards c in
  if Nat.ltb 2 (length (myCards c)) then set_calledUno false c else c.

(** [socket.on('unoCaught', ...)]. *)
Definition onUnoCaught (targetId : string) (c : t) : t :=
  if decide (Some targetId = myId c) then set_calledUno false c else c.

(** [socket.on('gameOver', ...)]. *)
Definition onGameOver (c : t) : t := set_calledUno false c.

(** [socket.on('playerLeft', ...)]. *)
Definition onPlayerLeft (players : list View.t) (c : t) : t := renderOpponents players c.

(** What happens to the page: the clicks of the player and the events of the
    server. *)
Inductive event :=
  | CardClick (card : Card.t)
  | DrawPileClick
  | ColorClick (color : option string)
  | UnoClick
  | CatchClick (playerId : string)
  | Room (playerId : string)
  | GameStarted (data : Data.t)
  | GameState (data : Data.t)
  | Cards (cards : list Card.t)
  | UnoCaught (targetId : string)
  | GameOver
  | PlayerLeft (players : list View.t).

Definition step (e : event) (c : t) : t * list request :=
  match e with
  | CardClick card => handleCardClick card c
  | DrawPileClick => drawPileClick c
  | ColorClick color => colorClick color c
  | UnoClick => unoClick c
  | CatchClick playerId => catchClick playerId c
  | Room playerId => (onRoom playerId c, [])
  | GameStarted data => (onGameStarted data c, [])
  | GameState data => (onGameState data c, [])
  | Cards cards => (onCards cards c, [])
  | UnoCaught targetId => (onUnoCaught targetId c, [])
  | GameOver => (onGameOver c, [])
  | PlayerLeft players => (onPlayerLeft players c, [])
  end.

(** The states of the page, from its load on. *)
Inductive reachable : t → Prop :=
  | reachable_start : reachable start
  | reachable_step e c c' rs : reachable c → step e c = (c', rs) → reachable c'.
End Client.

(** * Vocabulary of the further statements *)

(** ** Cards, seats and rounds *)

(** The copies of the face [color], [value] among [deck]. *)
Definition copies (color value : string) (deck : list Card.t) : nat :=
  length (filter (λ c, Card.color c = color ∧ Card.value c = value) deck).

(** [room.currentPlayerIndex = getNextPlayer(room)]. *)
Definition advance (room : Room.t) : Room.t :=
  Room.set_currentPlayerIndex (getNextPlayer room) room.

(** The cards of a room: its deck, its discard pile and the hands of its
    players. *)
Definition allCards (room : Room.t) : list Card.t :=
  Room.deck room ++ Room.discardPile room ++ concat (Player.cards <$> Room.players room).

(** What a player object is for its room, whatever it holds and whatever its
    UNO state: the object, its socket id, its name and whether it is the
    host. *)
Definition who (p : Player.t) : nat * string * string * bool :=
  (Player.oid p, Player.id p, Player.name p, Player.isHost p).

Definition seating (ps : list Player.t) : list (nat * string * string * bool) := who <$> ps.

(** [room'] is [room] further on in the same game: the same players are
    seated in the same order, the cards are the same, and no game has been
    started. *)
Definition keeps (room room' : Room.t) : Prop :=
  Room.code room' = Room.code room ∧
  seating (Room.players room') = seating (Room.players room) ∧
  allCards room' ≡ₚ allCards room ∧
  (Room.gameStarted room' = true → Room.gameStarted room = true).

(** The actions of a game in progress. *)
Definition inGame (a : action) : bool :=
  match a with
  | PlayCard _ _ _ | DrawCard _ | SayUno _ | CatchUno _ _ | TimerFires _ => true
  | CreateRoom _ _ | JoinRoom _ _ _ | StartGame _ | Disconnect _ => false
  end.

(** The number of hosts among the players. *)
Definition hosts (ps : list Player.t) : nat :=
  length (filter (λ p, Player.isHost p = true) ps).

(** The players of a room of the registry: at least one and at most ten, one
    of them the host, and at least two while a game is on. *)
Definition roster_ok (room : Room.t) : Prop :=
  (1 ≤ length (Room.players room) ≤ 10)%nat ∧
  hosts (Room.players room) = 1%nat ∧
  (Room.gameStarted room = true → (2 ≤ length (Room.players room))%nat).

(** A player object but for its cards: who it is, and its UNO state. *)
Definition status (p : Player.t) : (nat * string * string * bool) * bool * bool * option nat :=
  (who p, Player.saidUno p, Player.canBeCaught p, Player.catchTimeout p).

(** A player object and the timer handle it holds. *)
Definition holder (p : Player.t) : nat * option nat := (Player.oid p, Player.catchTimeout p).

Definition holders (room : Room.t) : list (nat * option nat) := holder <$> Room.players room.

(** The handles and the timers fit: a handle that a player of a room holds
    is that of a pending timer for the same player object; handles and player
    objects are numbered below the next ones; and no player object is seated
    twice, in one room or in two. *)
Record timers_ok (w : World) : Prop := {
  held_pending : ∀ code room o h,
    rooms w !! code = Some room → (o, Some h) ∈ holders room → timers w !! h = Some o;
  timers_below : ∀ h o, timers w !! h = Some o → (h < nextTimer w)%nat;
  oids_below : ∀ code room o t,
    rooms w !! code = Some room → (o, t) ∈ holders room → (o < nextOid w)%nat;
  oids_once : ∀ code room, rooms w !! code = Some room → NoDup (fst <$> holders room);
  oids_apart : ∀ c1 c2 r1 r2 o t1 t2,
    c1 ≠ c2 → rooms w !! c1 = Some r1 → rooms w !! c2 = Some r2 →
    (o, t1) ∈ holders r1 → (o, t2) ∈ holders r2 → False
}.

(** * Further rooms and pages of the examples *)

(** A lobby of two: the host and a guest. *)
Definition pairLobbyRoom : Room.t :=
  Room.mk "AAAAAA" [newPlayer 0 "s1" "Ann" true; newPlayer 1 "s2" "Bob" false]
    [] [] 0 1 None false None.

Definition pairLobby : World :=
  ran env0 [CreateRoom "s1" "Ann"; JoinRoom "s2" "aaaaaa" "Bob"] initial.

(** The room of [endgame]. *)
Definition endgameS1 : Player.t :=
  seat 0 "s1" [Card.mk "red" "5" "a1"; Card.mk "red" "7" "a2"].

Definition endgameRoom : Room.t :=
  Room.mk "ROOM01" [endgameS1; endgameS2] stock [Card.mk "red" "3" "t1"] 0 1 None true None.

(** The page of the first player of [duel], with the state of [duelRoom]. *)
Definition duelData : Data.t :=
  Data.mk (Player.cards duelS1) (Some (Card.mk "red" "3" "t1")) "s1" 1 None
    (publicPlayers duelRoom).

Definition duelPage : Client.t :=
  Client.onGameState duelData (Client.onRoom "s1" Client.start).

(** The page of the second player of [endgame1], with the state of
    [endgame1Room]. *)
Definition endgame1Data : Data.t :=
  Data.mk (Player.cards endgameS2) (Some (Card.mk "red" "5" "a1")) "s2" 1 None
    (publicPlayers endgame1Room).

Definition endgame1Page : Client.t :=
  Client.onGameState endgame1Data (Client.onRoom "s2" Client.start).

(** The server after [opening]: the second player has one card left and has
    not said UNO. *)
Definition forgotten : World := ran env0 opening initial.

(** * Properties *)

(** Projections of updated rooms and worlds. *)
Ltac room_norm :=
  cbn [rooms roomCode timers nextTimer nextOid set_rooms set_timers
       Room.code Room.players Room.deck Room.discardPile Room.currentPlayerIndex
       Room.direction Room.chosenColor Room.gameStarted Room.winner
       Room.set_players Room.set_deck Room.set_discardPile Room.set_currentPlayerIndex
       Room.set_direction Room.set_chosenColor Room.set_gameStarted Room.set_winner
       Room.update_player] in *.

Ltac unbind := unfold mbind, result_bind in *.

(** ** Arrays *)

Lemma index_Some {A} (a : list A) i x :
  index a i = Some x ↔ 0 ≤ i ∧ a !! Z.to_nat i = Some x.
Proof.
  unfold index. destruct (Z.ltb_spec i 0).
  - split; [done|]. intros [? _]. lia.
  - split; [by split|]. by intros [_ ?].
Qed.

Lemma index_lt {A} (a : list A) i x :
  index a i = Some x → 0 ≤ i < Z.of_nat (length a).
Proof.
  rewrite index_Some. intros [? Hx]. apply lookup_lt_Some in Hx. lia.
Qed.

Lemma index_is_Some {A} (a : list A) i :
  0 ≤ i < Z.of_nat (length a) → is_Some (index a i).
Proof.
  intros Hi. unfold index. destruct (Z.ltb_spec i 0); [lia|].
  apply lookup_lt_is_Some. lia.
Qed.

Lemma index_fmap {A B} (f : A → B) (a : list A) i : index (f <$> a) i = f <$> index a i.
Proof. unfold index. destruct (Z.ltb i 0); [done|]. apply list_lookup_fmap. Qed.

Lemma update_length {A} (f : A → A) i a : length (update i f a) = length a.
Proof. unfold update. destruct (Z.ltb i 0); [done|]. apply length_alter. Qed.

Lemma index_update_eq {A} (f : A → A) i a : index (update i f a) i = f <$> index a i.
Proof.
  unfold index, update. destruct (Z.ltb i 0); [done|]. apply list_lookup_alter_eq.
Qed.

Lemma index_update_ne {A} (f : A → A) i j a : i ≠ j → index (update i f a) j = index a j.
Proof.
  intros Hij. unfold index, update.
  destruct (Z.ltb_spec i 0), (Z.ltb_spec j 0); try done.
  apply list_lookup_alter_ne. lia.
Qed.

Lemma update_insert {A} (f : A → A) (i : nat) (a : list A) x :
  a !! i = Some x → update (Z.of_nat i) f a = <[i := f x]> a.
Proof.
  intros Hi. unfold update. destruct (Z.ltb_spec (Z.of_nat i) 0); [lia|].
  rewrite Nat2Z.id. apply list_eq. intros j. destruct (decide (i = j)) as [<-|Hij].
  - rewrite list_lookup_alter_eq, list_lookup_insert_eq by (by eapply lookup_lt_Some).
    by rewrite Hi.
  - by rewrite list_lookup_alter_ne, list_lookup_insert_ne.
Qed.

Lemma pop_snoc {A} (a : list A) x : pop (a ++ [x]) = (Some x, a).
Proof. unfold pop. by rewrite last_snoc, removelast_last. Qed.

Lemma pop_length {A} (a : list A) x rest :
  pop a = (Some x, rest) → length a = S (length rest).
Proof.
  destruct a as [|y a _] using rev_ind; [done|].
  rewrite pop_snoc. intros [= <- <-]. rewrite length_app. simpl. lia.
Qed.

Lemma pop_None {A} (a : list A) rest : pop a = (None, rest) → a = [].
Proof.
  destruct a as [|y a _] using rev_ind; [done|].
  by rewrite pop_snoc.
Qed.

(** ** Socket ids *)

Lemma ids_update f i ps :
  (∀ p, Player.id (f p) = Player.id p) → ids (update i f ps) = ids ps.
Proof.
  intros Hf. unfold ids, update. destruct (Z.ltb i 0); [done|].
  rewrite (list_fmap_alter Player.id f (λ x, x)) by (by apply Forall_forall).
  by apply list_alter_id.
Qed.

Lemma ids_insert ps (i : nat) p p' :
  ps !! i = Some p → Player.id p' = Player.id p → ids (<[i := p']> ps) = ids ps.
Proof.
  intros Hi Hid. unfold ids. rewrite list_fmap_insert, Hid.
  apply list_insert_id. by rewrite list_lookup_fmap, Hi.
Qed.

Lemma ids_length ps ps' : ids ps' = ids ps → length ps' = length ps.
Proof. unfold ids. intros H. apply (f_equal length) in H. by rewrite !length_fmap in H. Qed.

Lemma ids_lookup ps ps' (i : nat) p :
  ids ps' = ids ps → ps !! i = Some p →
  ∃ p', ps' !! i = Some p' ∧ Player.id p' = Player.id p.
Proof.
  unfold ids. intros Hids Hp.
  assert ((Player.id <$> ps') !! i = Some (Player.id p)) as H.
  { by rewrite Hids, list_lookup_fmap, Hp. }
  rewrite list_lookup_fmap in H. destruct (ps' !! i) as [p'|]; [|done].
  exists p'. split; [done|]. by injection H.
Qed.

Lemma ids_index ps ps' i p :
  ids ps' = ids ps → index ps i = Some p →
  ∃ p', index ps' i = Some p' ∧ Player.id p' = Player.id p.
Proof.
  intros Hids [Hi Hp]%index_Some.
  destruct (ids_lookup _ _ _ _ Hids Hp) as (p' & Hp' & Hid).
  exists p'. split; [|done]. by apply index_Some.
Qed.

Lemma list_find_ids x ps ps' i p :
  ids ps' = ids ps →
  list_find (λ p, Player.id p = x) ps = Some (i, p) →
  ∃ p', list_find (λ p, Player.id p = x) ps' = Some (i, p') ∧ ps' !! i = Some p'.
Proof.
  intros Hids Hf. apply list_find_Some in Hf as (Hi & Hx & Hfirst).
  destruct (ids_lookup _ _ _ _ Hids Hi) as (p' & Hi' & Hid').
  exists p'. split; [|done]. apply list_find_Some. split; [done|]. split; [congruence|].
  intros j y' Hj Hlt Hy'.
  destruct (ids_lookup _ _ _ _ (eq_sym Hids) Hj) as (y & Hy & Hid).
  apply (Hfirst j y Hy Hlt). congruence.
Qed.

(** ** Deck manager *)

Lemma floor_mul_lt r k : (0 < k)%nat → (floor_mul r k < k)%nat.
Proof.
  intros Hk. unfold floor_mul.
  apply Nat.Div0.div_lt_upper_bound. nia.
Qed.

Lemma swap_length {A} i j (a : list A) : length (swap i j a) = length a.
Proof.
  unfold swap. destruct (a !! i), (a !! j); auto.
  by rewrite !length_insert.
Qed.

Lemma shuffleLoop_length env i : ∀ k a, length (shuffleLoop env k i a).1 = length a.
Proof.
  induction i as [|i IH]; intros k a; simpl; [done|].
  by rewrite IH, swap_length.
Qed.

Lemma shuffleDeck_length env k deck : length (shuffleDeck env k deck).1 = length deck.
Proof. apply shuffleLoop_length. Qed.

Lemma same_table_trans r1 r2 r3 : same_table r1 r2 → same_table r2 r3 → same_table r1 r3.
Proof. unfold same_table. intros (?&?&?&?&?&?&?) (?&?&?&?&?&?&?). repeat split; congruence. Qed.

Ltac deck_norm :=
  unfold available in *;
  cbn [Room.deck Room.discardPile Room.set_deck Room.set_discardPile length] in *.

Ltac arith_deck :=
  deck_norm;
  repeat match goal with
  | H : Room.deck _ = _ |- _ => rewrite H in *; clear H
  | H : length ?cs = Nat.min _ _ |- _ => rewrite H in *; clear H
  end;
  deck_norm; lia.

(** With a card on the discard pile [drawCards] ends, hands out [count] cards
    or all that are available, loses none, and leaves a card on the discard
    pile. *)
Lemma drawCards_spec env count : ∀ k room,
  Room.discardPile room ≠ [] →
  ∃ room' cs k',
    drawCards env k room count = Ok (room', cs, k') ∧
    same_table room room' ∧
    length cs = Nat.min count (available room) ∧
    (length (Room.deck room') + length (Room.discardPile room') + length cs
     = length (Room.deck room) + length (Room.discardPile room))%nat ∧
    Room.discardPile room' ≠ [] ∧
    last (Room.discardPile room') = last (Room.discardPile room).
Proof.
  induction count as [|count IH]; intros k room Hd.
  { exists room, [], k. simpl. repeat split; auto; lia. }
  cbn [drawCards].
  destruct (Room.deck room) as [|c0 deck0] eqn:Hdeck.
  - (* reshuffle *)
    destruct (pop (Room.discardPile room)) as [[topCard|] rest] eqn:Hpop.
    2:{ by apply pop_None in Hpop. }
    pose proof (pop_length _ _ _ Hpop) as Hlen.
    assert (Hlast : last (Room.discardPile room) = Some topCard) by (by injection Hpop).
    destruct (shuffleDeck env k rest) as [d k1] eqn:Hsh.
    pose proof (shuffleDeck_length env k rest) as Hdl. rewrite Hsh in Hdl. simpl in Hdl.
    cbn [mbind result_bind].
    set (room1 := Room.set_discardPile [topCard] (Room.set_deck d room)).
    destruct (pop (Room.deck room1)) as [[c|] d'] eqn:Hpop1.
    + pose proof (pop_length _ _ _ Hpop1) as Hlen1.
      destruct (IH k1 (Room.set_deck d' room1)) as (room'&cs&k'&Hdraw&Hsame&Hcs&Hcons&Hne&Hl).
      { done. }
      rewrite Hdraw. cbn [mbind result_bind]. subst room1. deck_norm.
      exists room', (c :: cs), k'. split; [done|]. split; [|split; [|split; [|split]]].
      * eapply same_table_trans; [|exact Hsame]. by repeat split.
      * arith_deck.
      * arith_deck.
      * done.
      * by rewrite Hl, Hlast.
    + apply pop_None in Hpop1. cbn in Hpop1. subst d. deck_norm.
      destruct (IH k1 room1) as (room'&cs&k'&Hdraw&Hsame&Hcs&Hcons&Hne&Hl).
      { done. }
      rewrite Hdraw.
      exists room', cs, k'. split; [done|]. split; [|split; [|split; [|split]]].
      * eapply same_table_trans; [|exact Hsame]. by repeat split.
      * subst room1. arith_deck.
      * subst room1. arith_deck.
      * done.
      * by rewrite Hl, Hlast.
  - cbn [mbind result_bind]. rewrite Hdeck.
    destruct (pop (c0 :: deck0)) as [[c|] d'] eqn:Hpop1.
    2:{ by apply pop_None in Hpop1. }
    pose proof (pop_length _ _ _ Hpop1) as Hlen1.
    destruct (IH k (Room.set_deck d' room)) as (room'&cs&k'&Hdraw&Hsame&Hcs&Hcons&Hne&Hl).
    { done. }
    rewrite Hdraw. cbn [mbind result_bind].
    exists room', (c :: cs), k'. split; [done|]. split; [|split; [|split; [|split]]].
    * eapply same_table_trans; [|exact Hsame]. by repeat split.
    * arith_deck.
    * arith_deck.
    * done.
    * done.
Qed.

(** ** Turn order *)

Lemma getNextPlayer_next room :
  getNextPlayer room =
  next (Z.of_nat (length (Room.players room))) (Room.direction room)
       (Room.currentPlayerIndex room).
Proof. done. Qed.

Lemma next_range n d i : (d = 1 ∨ d = -1) → 0 ≤ i < n → 0 ≤ next n d i < n.
Proof.
  intros Hd Hi. unfold next. rewrite Z.rem_mod_nonneg by lia.
  apply Z.mod_pos_bound. lia.
Qed.

Lemma next_mod n d i : (d = 1 ∨ d = -1) → 0 ≤ i < n → next n d i = (i + d) mod n.
Proof.
  intros Hd Hi. unfold next. rewrite Z.rem_mod_nonneg by lia.
  replace (i + d + n) with (i + d + 1 * n) by lia. apply Z_mod_plus_full.
Qed.

Lemma iter_next_range k n d i :
  (d = 1 ∨ d = -1) → 0 ≤ i < n → 0 ≤ Nat.iter k (next n d) i < n.
Proof. intros Hd Hi. induction k; simpl; [done|]. by apply next_range. Qed.

Lemma next_next_two d i : (d = 1 ∨ d = -1) → 0 ≤ i < 2 → next 2 d (next 2 d i) = i.
Proof.
  intros [-> | ->] Hi; assert (i = 0 ∨ i = 1) as [-> | ->] by lia; reflexivity.
Qed.

Lemma next_moves n d i : (d = 1 ∨ d = -1) → 2 ≤ n → 0 ≤ i < n → next n d i ≠ i.
Proof.
  intros Hd Hn Hi. rewrite next_mod by lia.
  destruct Hd as [-> | ->].
  - destruct (decide (i + 1 = n)) as [<-|]; [rewrite Z_mod_same_full; lia|].
    rewrite Z.mod_small; lia.
  - destruct (decide (i = 0)) as [->|].
    + replace (0 + -1) with (-1 * n + (n - 1)) by lia.
      rewrite Z.add_comm, Z_mod_plus_full, Z.mod_small; lia.
    + rewrite Z.mod_small; lia.
Qed.

Lemma direction_ok_after card d :
  (d = 1 ∨ d = -1) → directionAfter card d = 1 ∨ directionAfter card d = -1.
Proof. unfold directionAfter. destruct (String.eqb _ _); lia. Qed.

Lemma moveToNextPlayer_index skipNext room :
  Room.currentPlayerIndex (moveToNextPlayer skipNext room) =
  Nat.iter (if skipNext then 2 else 1)%nat
    (next (Z.of_nat (length (Room.players room))) (Room.direction room))
    (Room.currentPlayerIndex room).
Proof. by destruct skipNext. Qed.

Lemma moveToNextPlayer_frame skipNext room :
  Room.players (moveToNextPlayer skipNext room) = Room.players room ∧
  Room.direction (moveToNextPlayer skipNext room) = Room.direction room ∧
  Room.chosenColor (moveToNextPlayer skipNext room) = Room.chosenColor room ∧
  Room.gameStarted (moveToNextPlayer skipNext room) = Room.gameStarted room ∧
  Room.winner (moveToNextPlayer skipNext room) = Room.winner room ∧
  Room.deck (moveToNextPlayer skipNext room) = Room.deck room ∧
  Room.discardPile (moveToNextPlayer skipNext room) = Room.discardPile room.
Proof. by destruct skipNext. Qed.

Lemma emitToPlayers_Ok name room :
  0 ≤ Room.currentPlayerIndex room < Z.of_nat (length (Room.players room)) →
  ∃ evs, emitToPlayers name room = Ok evs.
Proof.
  intros Hi. unfold emitToPlayers.
  destruct (Room.players room) as [|p ps] eqn:Hps; [by eexists|].
  destruct (index_is_Some (p :: ps) (Room.currentPlayerIndex room)) as [q ->]; [done|].
  by eexists.
Qed.

(** ** Forced draws *)

Lemma forcedDraw_spec env n room :
  direction_ok room →
  0 ≤ Room.currentPlayerIndex room < Z.of_nat (length (Room.players room)) →
  Room.discardPile room ≠ [] →
  ∃ room' drawn evs,
    forcedDraw env n room = Ok (room', true, evs) ∧
    Room.currentPlayerIndex room' = getNextPlayer room ∧
    Room.players room' = update (getNextPlayer room) (Player.push_cards drawn) (Room.players room) ∧
    length drawn = Nat.min n (available room) ∧
    Room.direction room' = Room.direction room ∧
    Room.chosenColor room' = Room.chosenColor room ∧
    Room.gameStarted room' = Room.gameStarted room ∧
    Room.winner room' = Room.winner room ∧
    Room.code room' = Room.code room ∧
    (length (Room.deck room') + length (Room.discardPile room') + length drawn
     = length (Room.deck room) + length (Room.discardPile room))%nat ∧
    Room.discardPile room' ≠ [] ∧
    last (Room.discardPile room') = last (Room.discardPile room).
Proof.
  intros Hd Hi Hdisc. unfold forcedDraw.
  pose proof (next_range _ _ _ Hd Hi) as Hn. rewrite <- getNextPlayer_next in Hn.
  cbn [Room.players Room.currentPlayerIndex Room.set_currentPlayerIndex].
  destruct (index_is_Some (Room.players room) (getNextPlayer room) Hn) as [q ->].
  destruct (drawCards_spec env n 0 (Room.set_currentPlayerIndex (getNextPlayer room) room))
    as (room'&cs&k'&->&Hsame&Hcs&Hcons&Hne&Hl); [done|].
  cbn [mbind result_bind].
  destruct Hsame as (Hc&Hp&Hi'&Hdir&Hcol&Hst&Hw). simpl in *.
  eexists _, cs, _. split; [done|]. simpl.
  rewrite Hp, Hi'. repeat split; auto.
Qed.

(** ** Runs *)

Lemma run_reachable env acts : ∀ w w',
  reachable w → run env acts w = Some w' → reachable w'.
Proof.
  unfold run. induction acts as [|a acts IH] using rev_ind; intros w w' Hw Hrun.
  { simpl in Hrun. by simplify_eq. }
  rewrite foldl_app in Hrun. simpl in Hrun.
  destruct (foldl _ (Some w) acts) as [w1|] eqn:H1; [|done].
  simpl in Hrun. destruct (step env a w1) as [[w2 evs]|] eqn:Hs; [|done].
  simpl in Hrun. simplify_eq. eapply reachable_step; [|exact Hs]. by eapply IH.
Qed.

(** ** C9: rejected actions change nothing *)

Lemma quiet_not_rejected evs : quiet evs → ¬ rejected evs.
Proof.
  unfold quiet, rejected. rewrite Forall_forall, Exists_exists.
  intros Hq (e & He & Herr). by apply (Hq e He).
Qed.

Lemma quiet_app evs1 evs2 : quiet evs1 → quiet evs2 → quiet (evs1 ++ evs2).
Proof. unfold quiet. rewrite Forall_app. auto. Qed.

Lemma quiet_cons d name m evs : name ≠ "error" → quiet evs → quiet (Emit d name m :: evs).
Proof. intros. by constructor. Qed.

Lemma quiet_nil : quiet [].
Proof. constructor. Qed.

Lemma emitToPlayers_quiet name room evs :
  name ≠ "error" → emitToPlayers name room = Ok evs → quiet evs.
Proof.
  unfold emitToPlayers. intros Hn H.
  destruct (Room.players room) as [|p ps]; [simplify_eq; apply quiet_nil|].
  destruct (index _ _); [|done]. injection H as <-.
  change (quiet ((λ p, Emit (ToSocket (Player.id p)) name None) <$> (p :: ps))).
  apply Forall_fmap, Forall_forall. by intros.
Qed.

Create HintDb quiet.
#[local] Hint Resolve quiet_app quiet_cons quiet_nil : quiet.
#[local] Hint Extern 1 (_ ≠ "error") => discriminate : quiet.
#[local] Hint Extern 2 (quiet _) =>
  eapply emitToPlayers_quiet; [|eassumption]; discriminate : quiet.

Lemma forcedDraw_quiet env n room room' b evs :
  forcedDraw env n room = Ok (room', b, evs) → quiet evs.
Proof.
  unfold forcedDraw. intros H.
  repeat case_match; simplify_eq; unbind;
    repeat case_match; simplify_eq.
  auto with quiet.
Qed.
#[local] Hint Resolve forcedDraw_quiet : quiet.

Lemma unoLogic_quiet code i player hand room w room' w' evs :
  unoLogic code i player hand room w = (room', w', evs) → quiet evs.
Proof.
  unfold unoLogic. intros H. repeat case_match; simplify_eq; auto with quiet.
Qed.

Lemma handleSpecialCards_quiet env card room room' b evs :
  handleSpecialCards env card room = Ok (room', b, evs) → quiet evs.
Proof.
  unfold handleSpecialCards. intros H.
  repeat case_match; simplify_eq; eauto with quiet.
Qed.
#[local] Hint Resolve unoLogic_quiet handleSpecialCards_quiet : quiet.

Lemma playAccepted_quiet env code i player k card chosen room w w' evs :
  playAccepted env code i player k card chosen room w = Ok (w', evs) → quiet evs.
Proof.
  unfold playAccepted. intros H.
  repeat case_match; simplify_eq; unbind;
    repeat case_match; simplify_eq; eauto 10 with quiet.
Qed.

Lemma playCard_rejected env sid cardId chosen w w' evs :
  playCard env sid cardId chosen w = Ok (w', evs) → rejected evs → w' = w.
Proof.
  unfold playCard. intros H Hrej.
  repeat case_match; simplify_eq; try done.
  all: exfalso; eapply quiet_not_rejected; [|exact Hrej].
  all: eauto using playAccepted_quiet with quiet.
Qed.

Ltac reject_or_quiet Hrej :=
  repeat case_match; simplify_eq; try done;
  unbind; repeat case_match; simplify_eq; try done;
  exfalso; (eapply quiet_not_rejected; [|exact Hrej]); eauto 10 with quiet.

Lemma joinRoom_rejected sid code name w w' evs :
  joinRoom sid code name w = Ok (w', evs) → rejected evs → w' = w.
Proof. unfold joinRoom. intros H Hrej. reject_or_quiet Hrej. Qed.

Lemma startGame_rejected env sid w w' evs :
  startGame env sid w = Ok (w', evs) → rejected evs → w' = w.
Proof. unfold startGame. intros H Hrej. reject_or_quiet Hrej. Qed.

Lemma drawCard_rejected env sid w w' evs :
  drawCard env sid w = Ok (w', evs) → rejected evs → w' = w.
Proof. unfold drawCard. intros H Hrej. reject_or_quiet Hrej. Qed.

Lemma catchUno_rejected env sid target w w' evs :
  catchUno env sid target w = Ok (w', evs) → rejected evs → w' = w.
Proof. unfold catchUno. intros H Hrej. reject_or_quiet Hrej. Qed.

Lemma createRoom_quiet env sid name w w' evs :
  createRoom env sid name w = Ok (w', evs) → quiet evs.
Proof. unfold createRoom. intros H. simplify_eq. auto with quiet. Qed.

Lemma sayUno_quiet sid w w' evs : sayUno sid w = Ok (w', evs) → quiet evs.
Proof.
  unfold sayUno. intros H. repeat case_match; simplify_eq; auto with quiet.
Qed.

Lemma disconnect_quiet sid w w' evs : disconnect sid w = Ok (w', evs) → quiet evs.
Proof.
  unfold disconnect. intros H. repeat case_match; simplify_eq; auto 10 with quiet.
Qed.

Lemma catchTimeoutFires_quiet h w w' evs :
  catchTimeoutFires h w = Ok (w', evs) → quiet evs.
Proof.
  unfold catchTimeoutFires. intros H. repeat case_match; simplify_eq; auto with quiet.
Qed.

(** C9.  Whenever a handler answers with an ['error'] event (it is not the
    turn of the socket, the card id is unknown, the card is illegal, the room
    is not found, is full or has started, the players are too few to start, a
    player catches itself, a catch comes too late) the server state after the
    run is the state before it: every check comes before the first change. *)
Theorem rejected_action_changes_nothing env a w w' evs :
  step env a w = Ok (w', evs) → rejected evs → w' = w.
Proof.
  destruct a; simpl; intros H Hrej.
  - exfalso. eapply quiet_not_rejected; [eapply createRoom_quiet|]; eauto.
  - eauto using joinRoom_rejected.
  - eauto using startGame_rejected.
  - eauto using playCard_rejected.
  - eauto using drawCard_rejected.
  - exfalso. eapply quiet_not_rejected; [eapply sayUno_quiet|]; eauto.
  - eauto using catchUno_rejected.
  - exfalso. eapply quiet_not_rejected; [eapply disconnect_quiet|]; eauto.
  - exfalso. eapply quiet_not_rejected; [eapply catchTimeoutFires_quiet|]; eauto.
Qed.

(** The witness of C9: a play out of turn. *)
Lemma rejected_action_changes_nothing_witness :
  ∃ w' evs,
    step env0 (PlayCard "s2" "b1" None) duel = Ok (w', evs) ∧ rejected evs ∧ w' = duel.
Proof.
  assert (Hstep : step env0 (PlayCard "s2" "b1" None) duel
                  = Ok (duel, [error "s2" "It's not your turn!"])).
  { vm_compute; reflexivity. }
  assert (Hrej : rejected [error "s2" "It's not your turn!"]).
  { constructor. reflexivity. }
  exists duel, [error "s2" "It's not your turn!"].
  split; [exact Hstep|]. split; [exact Hrej|].
  exact (rejected_action_changes_nothing env0 (PlayCard "s2" "b1" None) duel duel
           [error "s2" "It's not your turn!"] Hstep Hrej).
Defined.

(** Each rejection that the claim lists occurs, and leaves the state as it
    was. *)
Lemma listed_rejections_occur :
  let rejects a w sid msg := step env0 a w = Ok (w, [error sid msg]) in
  rejects (PlayCard "s2" "b1" None) duel "s2" "It's not your turn!" ∧
  rejects (DrawCard "s2") duel "s2" "It's not your turn!" ∧
  rejects (PlayCard "s1" "zz" None) duel "s1" "Card not found!" ∧
  rejects (PlayCard "s2" "b1" None) (table4 1) "s2" "Invalid card!" ∧
  rejects (JoinRoom "s9" "nosuch" "Zed") duel "s9" "Room not found!" ∧
  rejects (JoinRoom "s11" "AAAAAA" "p11") fullLobby "s11" "Room is full!" ∧
  rejects (JoinRoom "s9" "room01" "Zed") duel "s9" "Game already in progress!" ∧
  rejects (StartGame "s1") soloLobby "s1" "Need at least 2 players to start!" ∧
  rejects (StartGame "s2") duel "s2" "Only the host can start the game!" ∧
  rejects (CatchUno "s1" "s1") duel "s1" "You can't catch yourself!" ∧
  rejects (CatchUno "s1" "s2") duel "s1" "Too late! Player is safe now.".
Proof.
  cbv zeta. repeat split; vm_compute; reflexivity.
Qed.

(** ** Accepted plays *)

Lemma playCard_accepted env sid cardId chosen w code room player k card :
  accepted sid cardId w code room player k card →
  playCard env sid cardId chosen w =
  playAccepted env code (Room.currentPlayerIndex room) player k card chosen room w.
Proof.
  intros [Hs Hr Hst Ht Hp Hc Hl]. unfold playCard.
  rewrite Hs, Hr, Hst. cbn [negb]. rewrite Ht, Z.eqb_refl. cbn [negb].
  by rewrite Hp, Hc, Hl.
Qed.

(** A play that is not accepted changes nothing. *)
Lemma playCard_dichotomy env sid cardId chosen w w' evs :
  playCard env sid cardId chosen w = Ok (w', evs) →
  (∃ code room player k card, accepted sid cardId w code room player k card) ∨
  (w' = w ∧ (evs = [] ∨ rejected evs)).
Proof.
  unfold playCard. intros H.
  destruct (roomCode w !! sid) as [code|] eqn:Hs; [|simplify_eq; auto].
  destruct (rooms w !! code) as [room|] eqn:Hr; [|simplify_eq; auto].
  destruct (Room.gameStarted room) eqn:Hst; cbn [negb] in H; [|simplify_eq; auto].
  destruct (Z.eqb_spec (findIndex (λ p, Player.id p = sid) (Room.players room))
              (Room.currentPlayerIndex room)) as [Ht|Ht]; cbn [negb] in H.
  2:{ simplify_eq. right. split; [done|]. right. by constructor. }
  rewrite Ht in H.
  destruct (index _ _) as [player|] eqn:Hp; [|done].
  destruct (list_find _ _) as [[k card]|] eqn:Hc.
  2:{ simplify_eq. right. split; [done|]. right. by constructor. }
  destruct (canPlayCard _ _ _) as [[]|] eqn:Hl; [| |done].
  - left. by exists code, room, player, k, card.
  - simplify_eq. right. split; [done|]. right. by constructor.
Qed.

Lemma accepted_player_id sid cardId w code room player k card :
  accepted sid cardId w code room player k card → Player.id player = sid.
Proof.
  intros [_ _ _ Ht Hp _ _]. unfold findIndex in Ht.
  destruct (list_find _ _) as [[i p]|] eqn:Hf.
  - apply list_find_Some in Hf as (Hi & Hid & _).
    rewrite <- Ht in Hp. apply index_Some in Hp as [_ Hp].
    rewrite Nat2Z.id in Hp. congruence.
  - rewrite <- Ht in Hp. done.
Qed.

Lemma players_only_update i f r :
  (∀ p, Player.id (f p) = Player.id p) → players_only r (Room.update_player i f r).
Proof. split; [done|]. by apply ids_update. Qed.

Lemma players_only_refl r : players_only r r.
Proof. by destruct r. Qed.

Lemma players_only_trans r1 r2 r3 :
  players_only r1 r2 → players_only r2 r3 → players_only r1 r3.
Proof.
  intros [H1 L1] [H2 L2]. split; [|congruence].
  destruct r1, r2, r3. unfold Room.set_players in *. cbn in *.
  inversion H1. inversion H2. by subst.
Qed.

Lemma unoLogic_frame code i player hand room w room' w' evs :
  unoLogic code i player hand room w = (room', w', evs) →
  players_only room room' ∧ rooms w' = rooms w ∧ roomCode w' = roomCode w.
Proof.
  unfold unoLogic, setTimeout. intros H.
  destruct (Nat.eqb _ 1); [destruct (negb _)|]; simplify_eq; (split; [|done]);
    auto using players_only_update, players_only_refl.
Qed.

Lemma handleSpecialCards_spec env card room :
  direction_ok room →
  0 ≤ Room.currentPlayerIndex room < Z.of_nat (length (Room.players room)) →
  Room.discardPile room ≠ [] →
  ∃ room' skipNext evs,
    handleSpecialCards env card room = Ok (room', skipNext, evs) ∧
    ids (Room.players room') = ids (Room.players room) ∧
    Room.direction room' = directionAfter card (Room.direction room) ∧
    Room.chosenColor room' = Room.chosenColor room ∧
    Room.gameStarted room' = Room.gameStarted room ∧
    Room.winner room' = Room.winner room ∧
    Room.discardPile room' ≠ [] ∧
    Room.currentPlayerIndex (moveToNextPlayer skipNext room') =
      Nat.iter (turnSteps card (length (Room.players room)))
        (next (Z.of_nat (length (Room.players room))) (Room.direction room'))
        (Room.currentPlayerIndex room).
Proof.
  intros Hd Hi Hdisc. unfold handleSpecialCards, turnSteps, directionAfter.
  assert (Hdraw : ∀ n, ∃ room' skipNext evs,
    forcedDraw env n room = Ok (room', skipNext, evs) ∧
    ids (Room.players room') = ids (Room.players room) ∧
    Room.direction room' = Room.direction room ∧
    Room.chosenColor room' = Room.chosenColor room ∧
    Room.gameStarted room' = Room.gameStarted room ∧
    Room.winner room' = Room.winner room ∧
    Room.discardPile room' ≠ [] ∧
    Room.currentPlayerIndex (moveToNextPlayer skipNext room') =
      Nat.iter 3 (next (Z.of_nat (length (Room.players room))) (Room.direction room'))
        (Room.currentPlayerIndex room)).
  { intros n.
    destruct (forcedDraw_spec env n room Hd Hi Hdisc)
      as (room'&drawn&evs&->&Hcur&Hp&_&Hdir&Hcol&Hst&Hw&_&_&Hne&_).
    eexists _, _, _. split; [done|].
    assert (Hids : ids (Room.players room') = ids (Room.players room)).
    { rewrite Hp. by apply ids_update. }
    rewrite moveToNextPlayer_index, (ids_length _ _ Hids), Hcur, Hdir. by repeat split. }
  generalize (Card.value card). intros v.
  destruct (String.eqb_spec v "skip") as [->|?].
  { eexists _, _, _. split; [done|]. by rewrite moveToNextPlayer_index. }
  destruct (String.eqb_spec v "reverse") as [->|?].
  { eexists _, _, _. split; [done|]. rewrite moveToNextPlayer_index. simpl.
    repeat split; auto. }
  destruct (String.eqb_spec v "draw2") as [->|?]; [apply Hdraw|].
  destruct (String.eqb_spec v "wild_draw4") as [->|?]; [apply Hdraw|].
  eexists _, _, _. split; [done|]. by rewrite moveToNextPlayer_index.
Qed.

(** A play that is accepted and does not empty the hand goes through, and the
    turn moves on [turnSteps] times in the direction the play leaves. *)
Lemma playAccepted_continues env code player k card chosen room w :
  index (Room.players room) (Room.currentPlayerIndex room) = Some player →
  direction_ok room →
  length (delete k (Player.cards player)) ≠ 0%nat →
  ∃ w' room' evs,
    playAccepted env code (Room.currentPlayerIndex room) player k card chosen room w
      = Ok (w', evs) ∧
    rooms w' = <[code := room']> (rooms w) ∧
    roomCode w' = roomCode w ∧
    Room.chosenColor room' = or_null chosen ∧
    Room.gameStarted room' = Room.gameStarted room ∧
    Room.winner room' = Room.winner room ∧
    ids (Room.players room') = ids (Room.players room) ∧
    Room.direction room' = directionAfter card (Room.direction room) ∧
    Room.discardPile room' ≠ [] ∧
    Room.currentPlayerIndex room' =
      Nat.iter (turnSteps card (length (Room.players room)))
        (next (Z.of_nat (length (Room.players room))) (Room.direction room'))
        (Room.currentPlayerIndex room).
Proof.
  intros Hp Hd Hhand. unfold playAccepted.
  pose proof (index_lt _ _ _ Hp) as Hi.
  destruct (Nat.eqb_spec (length (delete k (Player.cards player))) 0) as [|_]; [done|].
  set (room1 := Room.set_chosenColor _ _).
  assert (H1 : players_only (Room.set_chosenColor (or_null chosen)
                 (Room.set_discardPile (Room.discardPile room ++ [card]) room)) room1).
  { split; [done|]. by apply ids_update. }
  destruct (unoLogic _ _ _ _ room1 w) as [[room2 w2] evs1] eqn:Huno.
  apply unoLogic_frame in Huno as (H2 & Hrooms & Hcodes).
  set (room3 := Room.update_player _ _ room2).
  assert (H3 : players_only room2 room3) by (by apply players_only_update).
  pose proof (players_only_trans _ _ _ H1 (players_only_trans _ _ _ H2 H3)) as [H13 I13].
  cbn [Room.players Room.set_chosenColor Room.set_discardPile] in I13.
  pose proof (ids_length _ _ I13) as L13.
  assert (Room.currentPlayerIndex room3 = Room.currentPlayerIndex room) as E1
    by (by rewrite H13).
  assert (Room.direction room3 = Room.direction room) as E2 by (by rewrite H13).
  assert (Room.chosenColor room3 = or_null chosen) as E3 by (by rewrite H13).
  assert (Room.gameStarted room3 = Room.gameStarted room) as E4 by (by rewrite H13).
  assert (Room.winner room3 = Room.winner room) as E5 by (by rewrite H13).
  assert (Room.discardPile room3 ≠ []) as E6.
  { rewrite H13. cbn. by destruct (Room.discardPile room). }
  clearbody room3. clear H13 H1 H2 H3 room1 room2.
  destruct (handleSpecialCards_spec env card room3)
    as (room4&skipNext&evs2&->&Hids&Hdir&Hcol&Hst&Hw&Hne&Hcur).
  { unfold direction_ok. by rewrite E2. }
  { by rewrite L13, E1. }
  { done. }
  cbn [mbind result_bind].
  destruct (moveToNextPlayer_frame skipNext room4) as (Fp&Fd&Fc&Fs&Fw&_&Fdp).
  pose proof (ids_length _ _ Hids) as Hlen.
  rewrite L13, E1 in Hcur. rewrite E2 in Hdir. rewrite L13 in Hlen.
  destruct (emitToPlayers_Ok "gameState" (moveToNextPlayer skipNext room4)) as [evs3 ->].
  { rewrite Hcur, Fp, Hlen. apply iter_next_range; [|lia].
    rewrite Hdir. by apply direction_ok_after. }
  eexists _, _, _. split; [done|]. cbn [rooms roomCode set_rooms].
  rewrite Hrooms, Hcodes, Fp, Fd, Fc, Fs, Fw, Fdp, Hcur, Hids, I13, Hcol, Hst, Hw.
  rewrite E3, E4, E5. by repeat split.
Qed.

(** Every accepted play goes through when the direction is 1 or -1. *)
Lemma playCard_accepted_Ok env sid cardId chosen w code room player k card :
  accepted sid cardId w code room player k card → direction_ok room →
  ∃ w' room' evs,
    playCard env sid cardId chosen w = Ok (w', evs) ∧
    rooms w' = <[code := room']> (rooms w) ∧
    Room.chosenColor room' = or_null chosen.
Proof.
  intros Hacc Hd. rewrite (playCard_accepted _ _ _ _ _ _ _ _ _ _ Hacc).
  destruct (decide (length (delete k (Player.cards player)) = 0%nat)) as [Hz|Hnz].
  - unfold playAccepted. rewrite Hz. cbn [Nat.eqb].
    eexists _, _, _. split; [done|]. by split.
  - destruct (playAccepted_continues env code player k card chosen room w)
      as (w'&room'&evs&Hplay&Hrooms&_&Hcol&_); [apply Hacc|done|done|].
    by exists w', room', evs.
Qed.

(** ** C2: a play that empties the hand ends the game at once *)

Lemma clearCatchTimeouts_lookup ps : ∀ (tm : gmap nat nat) h o,
  clearCatchTimeouts ps tm !! h = Some o → tm !! h = Some o.
Proof.
  unfold clearCatchTimeouts.
  induction ps as [|p ps IH]; intros tm h o; simpl; [done|].
  intros H. apply IH in H. destruct (Player.catchTimeout p) as [h'|]; [|done].
  apply lookup_delete_Some in H. by destruct H.
Qed.

Lemma clearCatchTimeouts_cleared ps : ∀ (tm : gmap nat nat) p h,
  p ∈ ps → Player.catchTimeout p = Some h → clearCatchTimeouts ps tm !! h = None.
Proof.
  unfold clearCatchTimeouts.
  induction ps as [|q ps IH]; intros tm p h Hin Hh; simpl.
  { by apply elem_of_nil in Hin. }
  apply elem_of_cons in Hin as [->|Hin]; [|by eapply IH].
  rewrite Hh.
  destruct (foldl _ (delete h tm) ps !! h) as [o|] eqn:E; [|done].
  apply (clearCatchTimeouts_lookup ps) in E. by rewrite lookup_delete_eq in E.
Qed.

(** C2.  An accepted play of the last card of the hand ends the game at once:
    the only event is ['gameOver'], the room is no longer started and its
    winner is the player who played.  Nothing else of the play runs: the deck
    is as before (nobody draws, also after a draw-two or a wild-draw-four),
    the hands of the other players, the turn, the direction and every
    [saidUno] and [canBeCaught] flag are as before, and no catch timer is
    started. *)
Theorem winning_play_ends_game env sid cardId chosen w code room player k card :
  accepted sid cardId w code room player k card →
  length (Player.cards player) = 1%nat →
  ∃ w' room',
    playCard env sid cardId chosen w = Ok (w', [Emit (ToRoom code) "gameOver" None]) ∧
    rooms w' = <[code := room']> (rooms w) ∧
    Room.gameStarted room' = false ∧
    Room.winner room' = Some (Player.oid player) ∧
    Room.deck room' = Room.deck room ∧
    Room.discardPile room' = Room.discardPile room ++ [card] ∧
    Room.currentPlayerIndex room' = Room.currentPlayerIndex room ∧
    Room.direction room' = Room.direction room ∧
    nextTimer w' = nextTimer w ∧
    (∀ h o, timers w' !! h = Some o → timers w !! h = Some o) ∧
    length (Room.players room') = length (Room.players room) ∧
    ∀ j q, index (Room.players room) j = Some q →
      ∃ q', index (Room.players room') j = Some q' ∧
        Player.cards q' =
          (if decide (j = Room.currentPlayerIndex room) then [] else Player.cards q) ∧
        Player.saidUno q' = Player.saidUno q ∧
        Player.canBeCaught q' = Player.canBeCaught q.
Proof.
  intros Hacc Hone. rewrite (playCard_accepted _ _ _ _ _ _ _ _ _ _ Hacc).
  destruct Hacc as [_ _ _ _ Hp Hc _].
  apply list_find_Some in Hc as (Hk & _ & _).
  assert (k = 0%nat) as -> by (apply lookup_lt_Some in Hk; lia).
  destruct (Player.cards player) as [|c [|? ?]] eqn:Hcards; try done.
  unfold playAccepted. rewrite Hcards. cbn [delete list_delete length Nat.eqb].
  eexists _, _. split; [done|]. split; [room_norm; done|]. room_norm.
  repeat split; try done.
  - apply clearCatchTimeouts_lookup.
  - by rewrite length_fmap, update_length.
  - intros j q Hq. rewrite index_fmap.
    destruct (decide (j = Room.currentPlayerIndex room)) as [->|Hne].
    + rewrite index_update_eq, Hq. by eexists.
    + rewrite index_update_ne, Hq by done. by eexists.
Qed.

(** The witness of C2: the last card of the first player of [finale], a
    draw-two. *)
Lemma winning_play_ends_game_witness :
  accepted "s1" "a1" finale "ROOM01" finaleRoom finaleS1 0 (Card.mk "red" "draw2" "a1") ∧
  length (Player.cards finaleS1) = 1%nat ∧
  ∃ w' room',
    playCard env0 "s1" "a1" None finale = Ok (w', [Emit (ToRoom "ROOM01") "gameOver" None]) ∧
    rooms w' = <["ROOM01" := room']> (rooms finale) ∧
    Room.gameStarted room' = false ∧
    Room.winner room' = Some 0%nat ∧
    Room.deck room' = stock.
Proof.
  assert (Hacc : accepted "s1" "a1" finale "ROOM01" finaleRoom finaleS1 0
                   (Card.mk "red" "draw2" "a1")).
  { split; vm_compute; reflexivity. }
  split; [exact Hacc|]. split; [reflexivity|].
  destruct (winning_play_ends_game env0 "s1" "a1" None finale "ROOM01" finaleRoom finaleS1 0
              (Card.mk "red" "draw2" "a1") Hacc eq_refl)
    as (w' & room' & H1 & H2 & H3 & H4 & H5 & _).
  exists w', room'. auto.
Defined.

(** ** C7: the declared color after a play *)

(** C7, counterexample.  The declared color is not a function of the card: a
    red 5 played with the color blue in the request leaves blue declared, and
    a wild card played with no color in the request completes (the card is on
    the discard pile and the turn has moved on) with no color declared. *)
Lemma declared_color_follows_request :
  (∃ w room,
     after (playCard env0 "s1" "a2" (Some "blue") duel) = Some w ∧
     rooms w !! "ROOM01" = Some room ∧
     last (Room.discardPile room) = Some (Card.mk "red" "5" "a2") ∧
     Room.chosenColor room = Some "blue") ∧
  (∃ w room,
     after (playCard env0 "s1" "a3" None duel) = Some w ∧
     rooms w !! "ROOM01" = Some room ∧
     last (Room.discardPile room) = Some (Card.mk "wild" "wild" "a3") ∧
     Room.chosenColor room = None ∧
     hands room = [2; 3]%nat ∧
     Room.currentPlayerIndex room = 1).
Proof.
  split.
  - eexists _, _. split; [vm_compute; reflexivity|]. split; [vm_compute; reflexivity|].
    split; reflexivity.
  - eexists _, _. split; [vm_compute; reflexivity|]. split; [vm_compute; reflexivity|].
    split; [reflexivity|]. split; [reflexivity|]. split; vm_compute; reflexivity.
Qed.

(** C7, amended.  Every accepted play sets the declared color to the color
    sent with the request, or to null when the request carries none (or the
    empty string), whatever the card: the server does not look at the card
    for it. *)
Theorem play_sets_chosenColor_from_request env sid cardId chosen w code room player k card :
  accepted sid cardId w code room player k card → room_ok room →
  ∃ w' room' evs,
    playCard env sid cardId chosen w = Ok (w', evs) ∧
    rooms w' !! code = Some room' ∧
    Room.chosenColor room' = or_null chosen.
Proof.
  intros Hacc [Hd _].
  destruct (playCard_accepted_Ok env _ _ chosen _ _ _ _ _ _ Hacc Hd)
    as (w'&room'&evs&Hplay&Hrooms&Hcol).
  exists w', room', evs. split; [done|]. split; [|done].
  rewrite Hrooms. apply lookup_insert_eq.
Qed.

(** The witness of C7: a red 5 played with the color blue in the request. *)
Lemma play_sets_chosenColor_from_request_witness :
  accepted "s1" "a2" duel "ROOM01" duelRoom duelS1 1 (Card.mk "red" "5" "a2") ∧
  room_ok duelRoom ∧
  ∃ w' room' evs,
    playCard env0 "s1" "a2" (Some "blue") duel = Ok (w', evs) ∧
    rooms w' !! "ROOM01" = Some room' ∧
    Room.chosenColor room' = or_null (Some "blue").
Proof.
  assert (Hacc : accepted "s1" "a2" duel "ROOM01" duelRoom duelS1 1
                   (Card.mk "red" "5" "a2")).
  { split; vm_compute; reflexivity. }
  assert (Hd : room_ok duelRoom).
  { split; [left; reflexivity|]. intros _. split; [discriminate|simpl; lia]. }
  split; [exact Hacc|]. split; [exact Hd|].
  exact (play_sets_chosenColor_from_request env0 "s1" "a2" (Some "blue") duel "ROOM01"
           duelRoom duelS1 1 (Card.mk "red" "5" "a2") Hacc Hd).
Defined.

(** ** C6: reverse between two players *)

(** C6, counterexample.  Two players, the first plays a reverse: the direction
    flips and the turn is again with the first player, who plays the very
    next card; the second player is told that it is not its turn. *)
Lemma two_player_reverse_replays :
  ∃ w room reverser w2 room2,
    after (playCard env0 "s1" "a1" None duel) = Some w ∧
    rooms w !! "ROOM01" = Some room ∧
    Room.direction room = -1 ∧
    index (Room.players room) (Room.currentPlayerIndex room) = Some reverser ∧
    Player.id reverser = "s1" ∧
    playCard env0 "s2" "b1" None w = Ok (w, [error "s2" "It's not your turn!"]) ∧
    after (playCard env0 "s1" "a2" None w) = Some w2 ∧
    rooms w2 !! "ROOM01" = Some room2 ∧
    hands room2 = [1; 3]%nat.
Proof.
  eexists _, _, _, _, _. split; [vm_compute; reflexivity|].
  split; [vm_compute; reflexivity|]. split; [reflexivity|].
  split; [vm_compute; reflexivity|]. split; [reflexivity|].
  split; [vm_compute; reflexivity|]. split; [vm_compute; reflexivity|].
  split; vm_compute; reflexivity.
Qed.

(** C6, amended.  In a room of two players an accepted play of a reverse card
    that does not empty the hand flips the direction and consumes a skip: the
    turn passes over the opponent and is again with the player who played the
    reverse. *)
Theorem two_player_reverse_returns_turn env sid cardId chosen w code room player k card :
  accepted sid cardId w code room player k card → room_ok room →
  length (Room.players room) = 2%nat →
  Card.value card = "reverse" →
  (1 < length (Player.cards player))%nat →
  ∃ w' room' evs p',
    playCard env sid cardId chosen w = Ok (w', evs) ∧
    rooms w' !! code = Some room' ∧
    Room.direction room' = - Room.direction room ∧
    Room.currentPlayerIndex room' = Room.currentPlayerIndex room ∧
    index (Room.players room') (Room.currentPlayerIndex room') = Some p' ∧
    Player.id p' = sid.
Proof.
  intros Hacc [Hd _] Htwo Hrev Hhand.
  rewrite (playCard_accepted _ _ _ _ _ _ _ _ _ _ Hacc).
  pose proof (accepted_player_id _ _ _ _ _ _ _ _ Hacc) as Hid.
  destruct Hacc as [_ _ _ _ Hp Hc _].
  apply list_find_Some in Hc as (Hk & _ & _). apply lookup_lt_Some in Hk.
  destruct (playAccepted_continues env code player k card chosen room w)
    as (w'&room'&evs&->&Hrooms&_&_&_&_&Hids&Hdir&_&Hcur); [done|done| |].
  { rewrite length_delete by (by apply lookup_lt_is_Some). lia. }
  apply index_lt in Hp as Hi.
  unfold directionAfter, turnSteps in *. rewrite Hrev, Htwo in *. cbn in Hdir, Hcur.
  rewrite next_next_two in Hcur by (rewrite ?Hdir; unfold direction_ok in Hd; lia).
  destruct (ids_index _ _ _ _ Hids Hp) as (p'&Hp'&Hid').
  exists w', room', evs, p'. rewrite Hrooms, lookup_insert_eq, Hcur.
  repeat split; auto; [lia|congruence].
Qed.

(** The witness of C6: the reverse of the first player of [duel]. *)
Lemma two_player_reverse_returns_turn_witness :
  accepted "s1" "a1" duel "ROOM01" duelRoom duelS1 0 (Card.mk "red" "reverse" "a1") ∧
  room_ok duelRoom ∧
  length (Room.players duelRoom) = 2%nat ∧
  (1 < length (Player.cards duelS1))%nat ∧
  ∃ w' room' evs p',
    playCard env0 "s1" "a1" None duel = Ok (w', evs) ∧
    rooms w' !! "ROOM01" = Some room' ∧
    Room.direction room' = - Room.direction duelRoom ∧
    Room.currentPlayerIndex room' = Room.currentPlayerIndex duelRoom ∧
    index (Room.players room') (Room.currentPlayerIndex room') = Some p' ∧
    Player.id p' = "s1".
Proof.
  assert (Hacc : accepted "s1" "a1" duel "ROOM01" duelRoom duelS1 0
                   (Card.mk "red" "reverse" "a1")).
  { split; vm_compute; reflexivity. }
  assert (Hd : room_ok duelRoom).
  { split; [left; reflexivity|]. intros _. split; [discriminate|simpl; lia]. }
  assert (Hh : (1 < length (Player.cards duelS1))%nat) by (simpl; lia).
  split; [exact Hacc|]. split; [exact Hd|]. split; [reflexivity|]. split; [exact Hh|].
  exact (two_player_reverse_returns_turn env0 "s1" "a1" None duel "ROOM01" duelRoom duelS1 0
           (Card.mk "red" "reverse" "a1") Hacc Hd eq_refl eq_refl Hh).
Defined.

(** ** C1: the turn after a draw-two or a wild-draw-four *)

(** C1, the code at the failing input.  Four players, direction 1, the first
    plays a draw-two: the second draws two cards, and the turn then passes
    over the third player as well and is with the fourth (index 3), not with
    the player right after the one who drew (index 2). *)
Theorem draw_two_skips_two_seats :
  ∃ w room,
    after (playCard env0 "s1" "a1" None (table4 0)) = Some w ∧
    rooms w !! "ROOM01" = Some room ∧
    hands room = [1; 4; 2; 2]%nat ∧
    Room.currentPlayerIndex room = 3.
Proof.
  eexists _, _. split; [vm_compute; reflexivity|]. split; [vm_compute; reflexivity|].
  split; vm_compute; reflexivity.
Qed.

(** After an accepted play of a draw-two or wild-draw-four card that does not
    empty the hand, the turn has moved on three times: to the player who
    draws, and then past two seats.  With two players or more this is never
    the seat right after the player who draws. *)
Lemma draw_play_turn env sid cardId chosen w code room player k card :
  accepted sid cardId w code room player k card → room_ok room →
  (Card.value card = "draw2" ∨ Card.value card = "wild_draw4") →
  (1 < length (Player.cards player))%nat →
  let n := Z.of_nat (length (Room.players room)) in
  let d := Room.direction room in
  let victim := next n d (Room.currentPlayerIndex room) in
  ∃ w' room' evs,
    playCard env sid cardId chosen w = Ok (w', evs) ∧
    rooms w' !! code = Some room' ∧
    Room.direction room' = d ∧
    Room.currentPlayerIndex room' = next n d (next n d victim) ∧
    (2 ≤ n → Room.currentPlayerIndex room' ≠ next n d victim).
Proof.
  intros Hacc [Hd _] Hval Hhand n d victim. subst n d victim.
  rewrite (playCard_accepted _ _ _ _ _ _ _ _ _ _ Hacc).
  destruct Hacc as [_ _ _ _ Hp Hc _].
  apply list_find_Some in Hc as (Hk & _ & _). apply lookup_lt_Some in Hk.
  destruct (playAccepted_continues env code player k card chosen room w)
    as (w'&room'&evs&->&Hrooms&_&_&_&_&Hids&Hdir&_&Hcur); [done|done| |].
  { rewrite length_delete by (by apply lookup_lt_is_Some). lia. }
  apply index_lt in Hp as Hi.
  assert (directionAfter card (Room.direction room) = Room.direction room
          ∧ turnSteps card (length (Room.players room)) = 3%nat) as [Ed Es].
  { unfold directionAfter, turnSteps. by destruct Hval as [-> | ->]. }
  rewrite Ed in Hdir. rewrite Es, Hdir in Hcur. cbn in Hcur.
  exists w', room', evs. rewrite Hrooms, lookup_insert_eq.
  repeat split; auto. intros Hn. rewrite Hcur.
  apply next_moves; [done|done|]. by repeat apply next_range.
Qed.

(** The same defect from start-up, in four events: with two players the one
    who draws the two cards is not passed over at all, the turn is with that
    player right after the draw. *)
Lemma draw_two_of_two_players_skips_nobody :
  ∃ w0 room0 w room,
    run env0 [CreateRoom "s1" "Ann"; JoinRoom "s2" "aaaaaa" "Bob"; StartGame "s1"] initial
      = Some w0 ∧
    rooms w0 !! "AAAAAA" = Some room0 ∧
    ids (Room.players room0) = ["s1"; "s2"] ∧ hands room0 = [7; 7]%nat ∧
    Room.currentPlayerIndex room0 = 1 ∧
    after (playCard env0 "s2" "card99" None w0) = Some w ∧ reachable w ∧
    rooms w !! "AAAAAA" = Some room ∧
    hands room = [9; 6]%nat ∧
    Room.currentPlayerIndex room = 0.
Proof.
  eexists _, _, _, _. split; [vm_compute; reflexivity|]. split; [vm_compute; reflexivity|].
  split; [vm_compute; reflexivity|]. split; [vm_compute; reflexivity|].
  split; [vm_compute; reflexivity|]. split; [vm_compute; reflexivity|].
  split.
  { apply (run_reachable env0
             [CreateRoom "s1" "Ann"; JoinRoom "s2" "aaaaaa" "Bob"; StartGame "s1";
              PlayCard "s2" "card99" None] initial); [constructor|].
    vm_compute; reflexivity. }
  split; [vm_compute; reflexivity|]. split; vm_compute; reflexivity.
Qed.

(** ** Catching *)

Lemma catch_attempt_ids sid tid w code room catcher i target :
  catch_attempt sid tid w code room catcher i target →
  Player.id catcher = sid ∧ Player.id target = tid ∧ Room.players room !! i = Some target.
Proof.
  intros [_ _ _ Hc Ht]. unfold find in Hc.
  destruct (list_find _ _) as [[j c]|] eqn:Hf; [|done].
  apply list_find_Some in Hf as (_ & ? & _). apply list_find_Some in Ht as (? & ? & _).
  simpl in Hc. by simplify_eq.
Qed.

Lemma catchUno_self env sid w code room catcher i target :
  catch_attempt sid sid w code room catcher i target →
  catchUno env sid sid w = Ok (w, [error sid "You can't catch yourself!"]).
Proof.
  intros Hatt. destruct (catch_attempt_ids _ _ _ _ _ _ _ _ Hatt) as (Hc & Ht & _).
  destruct Hatt as [Hs Hr Hst Hfc Hft]. unfold catchUno.
  rewrite Hs, Hr, Hst, Hfc, Hft. cbn [negb].
  rewrite decide_True; [done|congruence].
Qed.

Lemma catchUno_tooLate env sid tid w code room catcher i target :
  catch_attempt sid tid w code room catcher i target →
  sid ≠ tid →
  (Player.canBeCaught target && Nat.eqb (length (Player.cards target)) 1)%bool = false →
  catchUno env sid tid w = Ok (w, [tooLate sid]).
Proof.
  intros Hatt Hne Hno. destruct (catch_attempt_ids _ _ _ _ _ _ _ _ Hatt) as (Hc & Ht & _).
  destruct Hatt as [Hs Hr Hst Hfc Hft]. unfold catchUno.
  rewrite Hs, Hr, Hst, Hfc, Hft. cbn [negb].
  rewrite decide_False by congruence. by rewrite Hno.
Qed.

(** The successful branch of [catchUno]. *)
Lemma catchUno_caught env sid tid w code room catcher i target :
  catch_attempt sid tid w code room catcher i target →
  sid ≠ tid →
  Player.canBeCaught target = true →
  length (Player.cards target) = 1%nat →
  Room.discardPile room ≠ [] →
  0 ≤ Room.currentPlayerIndex room < Z.of_nat (length (Room.players room)) →
  ∃ w' room' target' penaltyCards evs,
    catchUno env sid tid w =
      Ok (w', [Emit (ToRoom code) "unoCaught" None;
               Emit (ToSocket tid) "cardsDrawn" None] ++ evs) ∧
    rooms w' = <[code := room']> (rooms w) ∧
    roomCode w' = roomCode w ∧
    timers w' =
      match Player.catchTimeout target with
      | Some h => delete h (timers w)
      | None => timers w
      end ∧
    Room.players room' =
      <[i := target']> (Room.players room) ∧
    target' =
      Player.push_cards penaltyCards
        (Player.set_catchTimeout None (Player.set_canBeCaught false target)) ∧
    length penaltyCards = Nat.min 2 (available room) ∧
    Room.gameStarted room' = true ∧
    Room.currentPlayerIndex room' = Room.currentPlayerIndex room ∧
    Room.direction room' = Room.direction room ∧
    Room.discardPile room' ≠ [].
Proof.
  intros Hatt Hne Hflag Hone Hdisc Hcur.
  destruct (catch_attempt_ids _ _ _ _ _ _ _ _ Hatt) as (Hc & Ht & Hi).
  destruct Hatt as [Hs Hr Hst Hfc Hft]. unfold catchUno.
  rewrite Hs, Hr, Hst, Hfc, Hft. cbn [negb].
  rewrite decide_False by congruence. rewrite Hflag, Hone. cbn [andb Nat.eqb].
  unfold Room.update_player. room_norm.
  rewrite (update_insert _ _ _ _ Hi). room_norm.
  rewrite (update_insert _ i (<[i := Player.set_canBeCaught false target]> _)
             (Player.set_canBeCaught false target))
    by (apply list_lookup_insert_eq; by eapply lookup_lt_Some).
  rewrite list_insert_insert_eq.
  set (w1 := match Player.catchTimeout target with
             | Some h => clearTimeout h w
             | None => w
             end).
  set (target1 := Player.set_catchTimeout None (Player.set_canBeCaught false target)).
  set (room2 := Room.set_players (<[i := target1]> (Room.players room)) room).
  assert (Hrw : match Player.catchTimeout target with
                | Some h =>
                  (Room.set_players
                     (<[i := target1]> (Room.players room))
                     (Room.set_players
                        (<[i := Player.set_canBeCaught false target]> (Room.players room))
                        room),
                   clearTimeout h w)
                | None =>
                  (Room.set_players
                     (<[i := Player.set_canBeCaught false target]> (Room.players room))
                     room, w)
                end = (room2, w1)).
  { subst w1 room2 target1. destruct (Player.catchTimeout target) eqn:Eh; [done|].
    do 3 f_equal. destruct target; cbn in *; by subst. }
  rewrite Hrw. clear Hrw.
  assert (rooms w1 = rooms w ∧ roomCode w1 = roomCode w ∧
          timers w1 = match Player.catchTimeout target with
                      | Some h => delete h (timers w)
                      | None => timers w
                      end) as (W1 & W2 & W3).
  { subst w1. by destruct (Player.catchTimeout target). }
  clearbody w1.
  destruct (drawCards_spec env 2 0 room2) as (room3&cs&k'&->&Hsame&Hcs&_&Hne3&_); [done|].
  cbn [mbind result_bind].
  destruct Hsame as (_&Hp&Hci&Hdir&_&Hgs&_). subst room2. room_norm.
  rewrite Hp.
  rewrite (update_insert _ i (<[i := target1]> _) target1)
    by (apply list_lookup_insert_eq; by eapply lookup_lt_Some).
  rewrite list_insert_insert_eq.
  destruct (emitToPlayers_Ok "gameState"
              (Room.set_players (<[i := Player.push_cards cs target1]> (Room.players room))
                 room3)) as [evs ->].
  { room_norm. by rewrite length_insert, Hci. }
  rewrite Ht.
  eexists _, (Room.set_players (<[i := Player.push_cards cs target1]> (Room.players room))
                room3), (Player.push_cards cs target1), cs, evs.
  split; [done|]. room_norm.
  rewrite W1, W2, W3, Hcs, Hgs, Hci, Hdir. by repeat split.
Qed.

(** A catch either leaves the state as it was or is the successful one. *)
Lemma catchUno_ways env sid tid w code room catcher i target :
  catch_attempt sid tid w code room catcher i target →
  Room.discardPile room ≠ [] →
  0 ≤ Room.currentPlayerIndex room < Z.of_nat (length (Room.players room)) →
  (∃ evs, catchUno env sid tid w = Ok (w, evs)) ∨
  (∃ w' room' evs,
     catchUno env sid tid w = Ok (w', evs) ∧
     rooms w' = <[code := room']> (rooms w) ∧
     Room.gameStarted room' = true ∧
     Room.currentPlayerIndex room' = Room.currentPlayerIndex room ∧
     Room.direction room' = Room.direction room ∧
     length (Room.players room') = length (Room.players room) ∧
     Room.discardPile room' ≠ []).
Proof.
  intros Hatt Hdisc Hcur.
  destruct (decide (sid = tid)) as [<-|Hne].
  { left. eexists. by eapply catchUno_self. }
  destruct (Player.canBeCaught target && Nat.eqb (length (Player.cards target)) 1)%bool
    eqn:Hc.
  2:{ left. eexists. by eapply catchUno_tooLate. }
  right. apply andb_true_iff in Hc as [Hflag Hone%Nat.eqb_eq].
  destruct (catchUno_caught env _ _ _ _ _ _ _ _ Hatt Hne Hflag Hone Hdisc Hcur)
    as (w'&room'&target'&cs&evs&Hrun&Hrooms&_&_&Hps&_&_&Hgs&Hc'&Hd'&Hne').
  exists w', room'. eexists. split; [exact Hrun|].
  rewrite Hps, length_insert. by repeat split.
Qed.

Lemma catch_attempt_ids_preserved sid tid w code room catcher i target w' room' :
  catch_attempt sid tid w code room catcher i target →
  roomCode w' = roomCode w → rooms w' !! code = Some room' →
  Room.gameStarted room' = true →
  ids (Room.players room') = ids (Room.players room) →
  ∃ catcher' target',
    catch_attempt sid tid w' code room' catcher' i target' ∧
    Room.players room' !! i = Some target'.
Proof.
  intros [Hs Hr Hst Hfc Hft] Hcodes Hr' Hst' Hids.
  unfold find in Hfc. destruct (list_find _ (Room.players room)) as [[j c]|] eqn:Hf; [|done].
  destruct (list_find_ids _ _ _ _ _ Hids Hf) as (c' & Hf' & _).
  destruct (list_find_ids _ _ _ _ _ Hids Hft) as (t' & Hft' & Hi').
  exists c', t'. split; [|done]. split; try done.
  - by rewrite Hcodes.
  - unfold find. by rewrite Hf'.
Qed.

(** ** C4: when a catch succeeds *)

(** C4, counterexample.  The first player goes down to one card without
    saying UNO and is vulnerable; the draw-two of the second then makes it
    draw two cards.  Its flag is still set and its timer still pending, and
    the catch of the second player fails as too late. *)
Lemma catch_fails_on_vulnerable_target :
  ∃ w room target h,
    run env0 [PlayCard "s1" "a1" None; PlayCard "s2" "b1" None] endgame = Some w ∧
    rooms w !! "ROOM01" = Some room ∧
    Room.gameStarted room = true ∧
    Room.players room !! 0%nat = Some target ∧
    Player.id target = "s1" ∧
    Player.canBeCaught target = true ∧
    Player.catchTimeout target = Some h ∧
    timers w !! h = Some (Player.oid target) ∧
    length (Player.cards target) = 3%nat ∧
    catchUno env0 "s2" "s1" w = Ok (w, [tooLate "s2"]).
Proof.
  eexists _, _, _, _. split; [vm_compute; reflexivity|]. split; [vm_compute; reflexivity|].
  split; [reflexivity|]. split; [reflexivity|]. split; [reflexivity|].
  split; [reflexivity|]. split; [reflexivity|]. split; [vm_compute; reflexivity|].
  split; vm_compute; reflexivity.
Qed.

(** C4, amended.  A catch by another player succeeds exactly when the target's
    [canBeCaught] flag is set and the target holds exactly one card.  On
    success the target's pending timer is cancelled, the flag is cleared and
    the target draws 2 penalty cards (fewer only when the deck and the discard
    pile below its top card hold fewer); a second catch right after it fails.
    In every other case the catch fails with the too-late error and changes
    nothing.  A catch of oneself is rejected. *)
Theorem catch_succeeds_iff_flag_and_one_card env sid tid w code room catcher i target :
  catch_attempt sid tid w code room catcher i target →
  room_ok room →
  let catchable :=
    (Player.canBeCaught target && Nat.eqb (length (Player.cards target)) 1)%bool in
  (sid = tid →
     catchUno env sid tid w = Ok (w, [error sid "You can't catch yourself!"])) ∧
  (sid ≠ tid → catchable = false → catchUno env sid tid w = Ok (w, [tooLate sid])) ∧
  (sid ≠ tid → catchable = true →
     ∃ w' room' target' penaltyCards evs,
       catchUno env sid tid w =
         Ok (w', [Emit (ToRoom code) "unoCaught" None;
                  Emit (ToSocket tid) "cardsDrawn" None] ++ evs) ∧
       rooms w' !! code = Some room' ∧
       Room.players room' !! i = Some target' ∧
       Player.canBeCaught target' = false ∧
       Player.catchTimeout target' = None ∧
       (∀ h, Player.catchTimeout target = Some h → timers w' !! h = None) ∧
       Player.cards target' = Player.cards target ++ penaltyCards ∧
       length penaltyCards = Nat.min 2 (available room) ∧
       catchUno env sid tid w' = Ok (w', [tooLate sid])).
Proof.
  intros Hatt [_ Hin] catchable.
  destruct (Hin (att_started _ _ _ _ _ _ _ _ Hatt)) as [Hdisc Hcur]. split; [|split].
  - intros <-. by eapply catchUno_self.
  - intros Hne Hno. by eapply catchUno_tooLate.
  - intros Hne Hyes. subst catchable. apply andb_true_iff in Hyes as [Hflag Hone].
    apply Nat.eqb_eq in Hone.
    destruct (catchUno_caught env _ _ _ _ _ _ _ _ Hatt Hne Hflag Hone Hdisc Hcur)
      as (w'&room'&target'&cs&evs&Hrun&Hrooms&Hcodes&Htimers&Hps&Ht'&Hcs&Hgs&_).
    destruct (catch_attempt_ids _ _ _ _ _ _ _ _ Hatt) as (_ & Htid & Hi).
    assert (Hr' : rooms w' !! code = Some room') by (rewrite Hrooms; apply lookup_insert_eq).
    assert (Hi' : Room.players room' !! i = Some target').
    { rewrite Hps. apply list_lookup_insert_eq. by eapply lookup_lt_Some. }
    exists w', room', target', cs, evs. split; [done|]. split; [done|]. split; [done|].
    split; [by rewrite Ht'|]. split; [by rewrite Ht'|].
    split. { intros h Hh. rewrite Htimers, Hh. apply lookup_delete_eq. }
    split; [by rewrite Ht'|]. split; [done|].
    destruct (catch_attempt_ids_preserved _ _ _ _ _ _ _ _ w' room' Hatt Hcodes Hr' Hgs)
      as (catcher'&target''&Hatt'&Hi'').
    { rewrite Hps. apply (ids_insert _ _ target); [done|]. by rewrite Ht'. }
    eapply catchUno_tooLate; [exact Hatt'|done|].
    assert (target'' = target') as -> by congruence. by rewrite Ht'.
Qed.

(** The witness of C4: the second player of [endgame1] catches the first,
    whose flag is set and who holds one card; a second catch is too late. *)
Lemma catch_succeeds_iff_flag_and_one_card_witness :
  catch_attempt "s2" "s1" endgame1 "ROOM01" endgame1Room endgameS2 0 vulnerableS1 ∧
  room_ok endgame1Room ∧
  (Player.canBeCaught vulnerableS1
   && Nat.eqb (length (Player.cards vulnerableS1)) 1)%bool = true ∧
  ∃ w' evs,
    catchUno env0 "s2" "s1" endgame1 =
      Ok (w', [Emit (ToRoom "ROOM01") "unoCaught" None;
               Emit (ToSocket "s1") "cardsDrawn" None] ++ evs) ∧
    catchUno env0 "s2" "s1" w' = Ok (w', [tooLate "s2"]).
Proof.
  assert (Hatt : catch_attempt "s2" "s1" endgame1 "ROOM01" endgame1Room endgameS2 0
                   vulnerableS1).
  { split; vm_compute; reflexivity. }
  assert (Hd : room_ok endgame1Room).
  { split; [left; reflexivity|]. intros _. split; [discriminate|simpl; lia]. }
  split; [exact Hatt|]. split; [exact Hd|]. split; [reflexivity|].
  destruct (catch_succeeds_iff_flag_and_one_card env0 "s2" "s1" endgame1 "ROOM01"
              endgame1Room endgameS2 0 vulnerableS1 Hatt Hd) as (_ & _ & Hyes).
  destruct (Hyes ltac:(discriminate) eq_refl)
    as (w' & _ & _ & _ & evs & H1 & _ & _ & _ & _ & _ & _ & _ & H2).
  exists w', evs. auto.
Defined.

(** ** C10: a catch needs a hand of exactly one card *)

(** C10.  A catch succeeds only if the target holds exactly one card and its
    [canBeCaught] flag is set.  When the flag is set but the hand has grown
    above one card, the catch fails with the too-late error and changes
    nothing, so the flag stays set and the timer pending. *)
Theorem catch_requires_single_card env sid tid w code room catcher i target :
  catch_attempt sid tid w code room catcher i target →
  (∀ w' evs,
     catchUno env sid tid w = Ok (w', evs) →
     Emit (ToRoom code) "unoCaught" None ∈ evs →
     Player.canBeCaught target = true ∧ length (Player.cards target) = 1%nat) ∧
  (sid ≠ tid → Player.canBeCaught target = true →
   (1 < length (Player.cards target))%nat →
   catchUno env sid tid w = Ok (w, [tooLate sid])).
Proof.
  intros Hatt. split.
  - intros w' evs Hrun Hev.
    destruct (decide (sid = tid)) as [<-|Hne].
    { rewrite (catchUno_self env _ _ _ _ _ _ _ Hatt) in Hrun. simplify_eq.
      by apply list_elem_of_singleton in Hev. }
    destruct (Player.canBeCaught target && Nat.eqb (length (Player.cards target)) 1)%bool
      eqn:Hc.
    + apply andb_true_iff in Hc as [? ?%Nat.eqb_eq]. done.
    + rewrite (catchUno_tooLate env _ _ _ _ _ _ _ _ Hatt Hne Hc) in Hrun. simplify_eq.
      by apply list_elem_of_singleton in Hev.
  - intros Hne Hflag Hmany. eapply catchUno_tooLate; [done..|].
    rewrite Hflag. cbn. apply Nat.eqb_neq. lia.
Qed.

(** The witness of C10: in [endgame2] the first player holds three cards, its
    flag is set and its timer pending; the catch of the second is too late. *)
Lemma catch_requires_single_card_witness :
  catch_attempt "s2" "s1" endgame2 "ROOM01" endgame2Room endgame2S2 0 loadedS1 ∧
  "s2" ≠ "s1" ∧
  Player.canBeCaught loadedS1 = true ∧
  (1 < length (Player.cards loadedS1))%nat ∧
  timers endgame2 !! 0%nat = Some (Player.oid loadedS1) ∧
  catchUno env0 "s2" "s1" endgame2 = Ok (endgame2, [tooLate "s2"]).
Proof.
  assert (Hatt : catch_attempt "s2" "s1" endgame2 "ROOM01" endgame2Room endgame2S2 0
                   loadedS1).
  { split; vm_compute; reflexivity. }
  split; [exact Hatt|]. split; [discriminate|]. split; [reflexivity|].
  split; [simpl; lia|]. split; [vm_compute; reflexivity|].
  destruct (catch_requires_single_card env0 "s2" "s1" endgame2 "ROOM01" endgame2Room
              endgame2S2 0 loadedS1 Hatt) as [_ Hlate].
  apply Hlate; [discriminate|reflexivity|simpl; lia].
Defined.

(** ** C3: the flag and the timer *)

Lemma flag_iff_timer_finale : flag_iff_timer finale.
Proof.
  intros code room p Hr Hp. unfold finale in Hr. room_norm.
  apply lookup_singleton_Some in Hr as [<- <-].
  unfold finaleRoom in Hp. room_norm.
  apply elem_of_cons in Hp as [->|Hp].
  { split; [done|]. intros [h Hh]. unfold finale in Hh. room_norm.
    apply lookup_singleton_Some in Hh as [_ Hh]. done. }
  apply list_elem_of_singleton in Hp as ->.
  split; [|done]. intros _. exists 0%nat. unfold finale. room_norm.
  by rewrite lookup_singleton_eq.
Qed.

Lemma flag_without_timer_breaks w code room (i : nat) p :
  rooms w !! code = Some room → Room.players room !! i = Some p →
  Player.canBeCaught p = true → timers w = ∅ → ¬ flag_iff_timer w.
Proof.
  intros Hr Hp Hflag Ht Hinv.
  destruct (proj1 (Hinv code room p Hr (list_elem_of_lookup_2 _ _ _ Hp)) Hflag) as [h Hh].
  by rewrite Ht, lookup_empty in Hh.
Qed.

(** C3, the code at the failing input.  In [finale] the flag of every player
    is set exactly when its timer is pending; the second player is
    vulnerable.  The first plays its last card and wins.  The winner branch
    cancels the timer and clears the handle, and leaves the flag set: after
    the game the flag of the second player is true and no timer is pending. *)
Theorem win_leaves_flag_without_timer :
  flag_iff_timer finale ∧
  ∃ w room p,
    after (playCard env0 "s1" "a1" None finale) = Some w ∧
    rooms w !! "ROOM01" = Some room ∧
    Room.gameStarted room = false ∧
    Room.players room !! 1%nat = Some p ∧
    Player.id p = "s2" ∧
    Player.canBeCaught p = true ∧
    Player.catchTimeout p = None ∧
    timers w = ∅ ∧
    ¬ flag_iff_timer w.
Proof.
  split; [exact flag_iff_timer_finale|].
  eexists _, _, _. split; [vm_compute; reflexivity|]. split; [vm_compute; reflexivity|].
  split; [reflexivity|]. split; [reflexivity|]. split; [reflexivity|].
  split; [reflexivity|]. split; [reflexivity|]. split; [vm_compute; reflexivity|].
  eapply (flag_without_timer_breaks _ "ROOM01" _ 1%nat);
    [vm_compute; reflexivity|reflexivity|reflexivity|vm_compute; reflexivity].
Qed.

(** The removal of a vulnerable player cancels nothing: the player object is
    gone from the room and its timer is still pending. *)
Lemma disconnect_leaves_timer_pending :
  ∃ w room,
    after (disconnect "s2" finale) = Some w ∧
    rooms w !! "ROOM01" = Some room ∧
    ids (Room.players room) = ["s1"] ∧
    timers w !! 0%nat = Some (Player.oid finaleS2).
Proof.
  eexists _, _. split; [vm_compute; reflexivity|]. split; [vm_compute; reflexivity|].
  split; vm_compute; reflexivity.
Qed.

(** From start-up: the second player forgets UNO at its sixth play and wins
    at its seventh; it ends the game with its own flag set and no timer. *)
Lemma reachable_flag_without_timer :
  ∃ w room p,
    run env0 (opening ++ [PlayCard "s1" "card106" (Some "red");
                          PlayCard "s2" "card101" (Some "red")]) initial = Some w ∧
    reachable w ∧
    rooms w !! "AAAAAA" = Some room ∧
    Room.players room !! 1%nat = Some p ∧
    Room.winner room = Some (Player.oid p) ∧
    Player.canBeCaught p = true ∧
    Player.catchTimeout p = None ∧
    timers w = ∅.
Proof.
  eexists _, _, _. split; [vm_compute; reflexivity|].
  split.
  { apply (run_reachable env0
             (opening ++ [PlayCard "s1" "card106" (Some "red");
                          PlayCard "s2" "card101" (Some "red")]) initial); [constructor|].
    vm_compute; reflexivity. }
  split; [vm_compute; reflexivity|]. split; [reflexivity|].
  split; [reflexivity|]. split; [reflexivity|]. split; [reflexivity|].
  vm_compute; reflexivity.
Qed.

(** So the invariant of C3 does not hold of the states the server reaches. *)
Lemma flag_iff_timer_not_invariant : ¬ (∀ w, reachable w → flag_iff_timer w).
Proof.
  intros Hinv.
  destruct reachable_flag_without_timer as (w&room&p&_&Hw&Hr&Hp&_&Hflag&_&Ht).
  by apply (flag_without_timer_breaks w _ _ _ _ Hr Hp Hflag Ht), Hinv.
Qed.

(** The other ways out of the vulnerable state do cancel the timer and clear
    the flag: a declaration here, a catch in [catchUno_caught]. *)
Lemma sayUno_resolves_vulnerability sid w code room i player h :
  roomCode w !! sid = Some code → rooms w !! code = Some room →
  Room.gameStarted room = true →
  list_find (λ p, Player.id p = sid) (Room.players room) = Some (i, player) →
  (length (Player.cards player) ≤ 2)%nat →
  Player.canBeCaught player = true → Player.catchTimeout player = Some h →
  ∃ w' room' player',
    sayUno sid w = Ok (w', [Emit (ToRoom code) "unoSaid" None]) ∧
    rooms w' !! code = Some room' ∧
    Room.players room' !! i = Some player' ∧
    Player.saidUno player' = true ∧
    Player.canBeCaught player' = false ∧
    Player.catchTimeout player' = None ∧
    timers w' = delete h (timers w).
Proof.
  intros Hs Hr Hst Hf Hlen Hflag Hh. unfold sayUno.
  rewrite Hs, Hr, Hst, Hf. cbn [negb].
  apply list_find_Some in Hf as (Hi & _ & _).
  destruct (Nat.leb_spec (length (Player.cards player)) 2); [|lia].
  rewrite Hflag, Hh. unfold Room.update_player. room_norm.
  rewrite (update_insert _ _ _ _ Hi). room_norm.
  rewrite (update_insert _ i (<[i := _]> _) (Player.set_saidUno true player))
    by (apply list_lookup_insert_eq; by eapply lookup_lt_Some).
  rewrite list_insert_insert_eq. room_norm.
  rewrite (update_insert _ i (<[i := _]> _)
             (Player.set_canBeCaught false (Player.set_saidUno true player)))
    by (apply list_lookup_insert_eq; by eapply lookup_lt_Some).
  rewrite list_insert_insert_eq.
  eexists _, _, _. split; [done|]. room_norm.
  split; [apply lookup_insert_eq|]. room_norm.
  split. { apply list_lookup_insert_eq. by eapply lookup_lt_Some. }
  done.
Qed.

(** The winner branch itself cancels every timer that a player of the room
    holds; what it misses is the flag. *)
Lemma win_cancels_timers env sid cardId chosen w code room player k card w' evs :
  accepted sid cardId w code room player k card →
  length (Player.cards player) = 1%nat →
  playCard env sid cardId chosen w = Ok (w', evs) →
  ∀ p h, p ∈ Room.players room → Player.catchTimeout p = Some h → timers w' !! h = None.
Proof.
  intros Hacc Hone Hplay p h Hin Hh.
  rewrite (playCard_accepted _ _ _ _ _ _ _ _ _ _ Hacc) in Hplay.
  destruct Hacc as [_ _ _ _ Hp Hc _].
  apply list_find_Some in Hc as (Hk & _ & _).
  assert (k = 0%nat) as -> by (apply lookup_lt_Some in Hk; lia).
  destruct (Player.cards player) as [|c [|? ?]] eqn:Hcards; try done.
  unfold playAccepted in Hplay. rewrite Hcards in Hplay.
  cbn [delete list_delete length Nat.eqb] in Hplay. simplify_eq. room_norm.
  apply list_elem_of_lookup in Hin as [j Hj].
  destruct (decide (Z.of_nat j = Room.currentPlayerIndex room)) as [Hcur|Hne].
  - apply (clearCatchTimeouts_cleared _ _ (Player.set_cards [] p)); [|done].
    apply list_elem_of_lookup. exists j.
    rewrite <- Hcur, (update_insert _ _ _ _ Hj).
    apply list_lookup_insert_eq. by eapply lookup_lt_Some.
  - apply (clearCatchTimeouts_cleared _ _ p); [|done].
    apply list_elem_of_lookup. exists j.
    assert (index (update (Room.currentPlayerIndex room) (Player.set_cards [])
                     (Room.players room)) (Z.of_nat j) = Some p) as Hidx.
    { rewrite index_update_ne by done. apply index_Some. rewrite Nat2Z.id. split; [lia|done]. }
    apply index_Some in Hidx as [_ Hidx]. by rewrite Nat2Z.id in Hidx.
Qed.

(** ** Room codes *)

Lemma length_append (s1 s2 : string) :
  String.length (s1 +:+ s2) = (String.length s1 + String.length s2)%nat.
Proof. induction s1 as [|c s1 IH]; simpl; [done|]. by rewrite IH. Qed.

Lemma charAt_chars_length i :
  (i < String.length chars)%nat → String.length (charAt chars i) = 1%nat.
Proof.
  intros Hi. unfold charAt.
  do 36 (destruct i as [|i]; [reflexivity|]). simpl in Hi. lia.
Qed.

Lemma roomCodeLoop_length env n : ∀ k code,
  String.length (roomCodeLoop env k n code) = (String.length code + n)%nat.
Proof.
  induction n as [|n IH]; intros k code; simpl; [lia|].
  rewrite IH, length_append, charAt_chars_length; [lia|].
  apply floor_mul_lt. simpl. lia.
Qed.

Lemma generateRoomCode_length env : String.length (generateRoomCode env) = 6%nat.
Proof. unfold generateRoomCode. by rewrite roomCodeLoop_length. Qed.

(** ** C8: what [createRoom] allocates *)

(** C8, counterexample.  A second [createRoom] that draws the code of an
    active room gets that code: the room of the first creator is gone from
    the registry, and both sockets are attached to the code. *)
Lemma createRoom_reuses_active_code :
  ∃ w1 room1 w2 room2,
    after (createRoom env0 "s1" "Ann" initial) = Some w1 ∧
    rooms w1 !! "AAAAAA" = Some room1 ∧
    ids (Room.players room1) = ["s1"] ∧
    generateRoomCode env0 = "AAAAAA" ∧
    after (createRoom env0 "s2" "Bob" w1) = Some w2 ∧
    rooms w2 !! "AAAAAA" = Some room2 ∧
    ids (Room.players room2) = ["s2"] ∧
    size (rooms w2) = 1%nat ∧
    roomCode w2 !! "s1" = Some "AAAAAA" ∧
    roomCode w2 !! "s2" = Some "AAAAAA".
Proof.
  eexists _, _, _, _. split; [vm_compute; reflexivity|]. split; [vm_compute; reflexivity|].
  split; [reflexivity|]. split; [vm_compute; reflexivity|].
  split; [vm_compute; reflexivity|]. split; [vm_compute; reflexivity|].
  split; [reflexivity|]. split; [vm_compute; reflexivity|].
  split; vm_compute; reflexivity.
Qed.

(** C8, amended.  [createRoom] draws a code of six characters at random and
    does not look it up in the registry.  Under that code it stores a new room
    in the lobby phase (not started, no winner) whose only player is the
    creator, as host, replacing whatever room the registry held under the
    code; the other rooms stay as they are. *)
Theorem createRoom_stores_lobby_room env sid playerName w :
  ∃ w' host,
    createRoom env sid playerName w =
      Ok (w', [Emit (ToSocket sid) "roomCreated" None;
               Emit (ToRoom (generateRoomCode env)) "playerList" None]) ∧
    String.length (generateRoomCode env) = 6%nat ∧
    rooms w' !! generateRoomCode env =
      Some (Room.mk (generateRoomCode env) [host] [] [] 0 1 None false None) ∧
    Player.id host = sid ∧ Player.name host = playerName ∧
    Player.isHost host = true ∧ Player.cards host = [] ∧
    Player.canBeCaught host = false ∧ Player.catchTimeout host = None ∧
    roomCode w' !! sid = Some (generateRoomCode env) ∧
    (∀ code, code ≠ generateRoomCode env → rooms w' !! code = rooms w !! code).
Proof.
  unfold createRoom. eexists _, _. split; [done|]. cbn.
  split; [apply generateRoomCode_length|].
  split; [apply lookup_insert_eq|].
  repeat split; try done.
  - apply lookup_insert_eq.
  - intros code Hne. by apply lookup_insert_ne.
Qed.

(** ** C5: the current index after a removal *)

(** C5, the code at the failing input.  Four players, the turn is with the
    third (index 2) when the first (index 0) leaves.  The index stays 2, which
    in the shortened list is the former fourth player: the turn of the third
    is lost.  (A decrement would give index 1.) *)
Theorem disconnect_before_current_keeps_index :
  ids (Room.players (table4Room 2)) !! 2%nat = Some "s3" ∧
  ∃ w room,
    after (disconnect "s1" (table4 2)) = Some w ∧
    rooms w !! "ROOM01" = Some room ∧
    Room.gameStarted room = true ∧
    ids (Room.players room) = ["s2"; "s3"; "s4"] ∧
    Room.currentPlayerIndex room = 2.
Proof.
  split; [reflexivity|].
  eexists _, _. split; [vm_compute; reflexivity|]. split; [vm_compute; reflexivity|].
  split; [reflexivity|]. split; vm_compute; reflexivity.
Qed.

(** What [disconnect] does to the current player index of a started room that
    keeps a player: the index is reset to 0 when it is past the end of the
    shortened list, and is left as it is in every other case, also when the
    removed player sat before the current one. *)
Lemma disconnect_index sid w code room i player :
  roomCode w !! sid = Some code → code ≠ "" →
  rooms w !! code = Some room →
  Room.gameStarted room = true →
  list_find (λ p, Player.id p = sid) (Room.players room) = Some (i, player) →
  (2 ≤ length (Room.players room))%nat →
  ∃ w' room' evs,
    disconnect sid w = Ok (w', evs) ∧
    rooms w' !! code = Some room' ∧
    length (Room.players room') = (length (Room.players room) - 1)%nat ∧
    Room.currentPlayerIndex room' =
      (if Z.leb (Z.of_nat (length (Room.players room)) - 1) (Room.currentPlayerIndex room)
       then 0 else Room.currentPlayerIndex room).
Proof.
  intros Hs Hne Hr Hst Hf Hn. unfold disconnect.
  rewrite Hs. destruct (String.eqb_spec code "") as [E|_]; [by destruct (Hne E)|].
  rewrite Hr, Hf. room_norm.
  apply list_find_Some in Hf as (Hi & _ & _).
  assert (Hlen : length (delete i (Room.players room)) = (length (Room.players room) - 1)%nat).
  { by rewrite length_delete by (by eexists). }
  rewrite Hlen.
  destruct (Nat.eqb_spec (length (Room.players room) - 1) 0); [lia|].
  set (room1 := if (Player.isHost player && _)%bool then _ else _).
  assert (H1 : Room.gameStarted room1 = true ∧
               length (Room.players room1) = (length (Room.players room) - 1)%nat ∧
               Room.currentPlayerIndex room1 = Room.currentPlayerIndex room).
  { subst room1. destruct (_ && _)%bool; room_norm; rewrite ?update_length; auto. }
  destruct H1 as (G1 & L1 & C1). clearbody room1. rewrite G1, L1. cbn [andb].
  replace (Z.of_nat (length (Room.players room) - 1)) with
    (Z.of_nat (length (Room.players room)) - 1) by lia.
  destruct (Z.leb _ (Room.currentPlayerIndex room1)) eqn:Hle; room_norm;
    rewrite ?G1, ?L1; cbn [andb];
    destruct (Nat.ltb _ 2); eexists _, _, _; (split; [done|]);
    (split; [room_norm; apply lookup_insert_eq|]); room_norm;
    rewrite <- ?C1, ?Hle; done.
Qed.

(** The same from start-up, with three players: the first plays and leaves
    while it is the turn of the second; the turn is then with the third. *)
Lemma reachable_disconnect_loses_turn :
  ∃ w0 room0 w room,
    run env0 [CreateRoom "s1" "Ann"; JoinRoom "s2" "aaaaaa" "Bob"; JoinRoom "s3" "aaaaaa" "Cy";
              StartGame "s1"; PlayCard "s1" "card102" (Some "red")] initial = Some w0 ∧
    rooms w0 !! "AAAAAA" = Some room0 ∧
    ids (Room.players room0) = ["s1"; "s2"; "s3"] ∧
    Room.currentPlayerIndex room0 = 1 ∧
    after (disconnect "s1" w0) = Some w ∧ reachable w ∧
    rooms w !! "AAAAAA" = Some room ∧
    ids (Room.players room) = ["s2"; "s3"] ∧
    Room.currentPlayerIndex room = 1.
Proof.
  eexists _, _, _, _. split; [vm_compute; reflexivity|]. split; [vm_compute; reflexivity|].
  split; [vm_compute; reflexivity|]. split; [reflexivity|].
  split; [vm_compute; reflexivity|].
  split.
  { apply (run_reachable env0
             [CreateRoom "s1" "Ann"; JoinRoom "s2" "aaaaaa" "Bob"; JoinRoom "s3" "aaaaaa" "Cy";
              StartGame "s1"; PlayCard "s1" "card102" (Some "red"); Disconnect "s1"] initial);
      [constructor|].
    vm_compute; reflexivity. }
  split; [vm_compute; reflexivity|]. split; vm_compute; reflexivity.
Qed.

(** ** Rooms the server can reach *)

Lemma world_ok_insert w w' code room' :
  world_ok w → room_ok room' → rooms w' = <[code := room']> (rooms w) → world_ok w'.
Proof.
  intros Hw Hr Hrooms c r. rewrite Hrooms.
  destruct (decide (code = c)) as [<-|Hne].
  - rewrite lookup_insert_eq. by intros [= <-].
  - rewrite lookup_insert_ne by done. apply Hw.
Qed.

Lemma drawCards_same_table env count : ∀ k room room' cs k',
  drawCards env k room count = Ok (room', cs, k') → same_table room room'.
Proof.
  induction count as [|count IH]; intros k room room' cs k' H; cbn [drawCards] in H.
  { simplify_eq. by repeat split. }
  unbind. repeat case_match; simplify_eq;
    match goal with
    | H : drawCards _ _ _ _ = Ok _ |- _ => apply IH in H
    end;
    (eapply same_table_trans; [|eassumption]); by repeat split.
Qed.

Lemma dealLoop_frame env n : ∀ k room i room' k',
  dealLoop env k room i n = Ok (room', k') →
  Room.direction room' = Room.direction room ∧
  Room.currentPlayerIndex room' = Room.currentPlayerIndex room ∧
  Room.gameStarted room' = Room.gameStarted room ∧
  length (Room.players room') = length (Room.players room).
Proof.
  induction n as [|n IH]; intros k room i room' k' H; cbn [dealLoop] in H.
  { by simplify_eq. }
  unbind. destruct (drawCards env k room 7) as [[[room1 cs] k1]|] eqn:Hd; [|done].
  apply drawCards_same_table in Hd as (_&Hp&Hc&Hdir&_&Hst&_).
  apply IH in H as (H1&H2&H3&H4). room_norm.
  rewrite update_length in H4. by rewrite H1, H2, H3, H4, Hp, Hc, Hdir, Hst.
Qed.

Lemma createRoom_ok env sid name w w' evs :
  world_ok w → createRoom env sid name w = Ok (w', evs) → world_ok w'.
Proof.
  unfold createRoom. intros Hw H. simplify_eq.
  eapply world_ok_insert; [done| |done]. split; [by left|done].
Qed.

Lemma joinRoom_ok sid code name w w' evs :
  world_ok w → joinRoom sid code name w = Ok (w', evs) → world_ok w'.
Proof.
  unfold joinRoom. intros Hw H.
  destruct (rooms w !! toUpperCase code) as [room|] eqn:Hr; [|by simplify_eq].
  destruct (Room.gameStarted room) eqn:Hst; [by simplify_eq|].
  destruct (Nat.leb 10 _); simplify_eq; [done|].
  eapply world_ok_insert; [done| |done].
  destruct (Hw _ _ Hr) as [Hd _]. split; [done|]. room_norm. by rewrite Hst.
Qed.

Lemma startGame_ok env sid w w' evs :
  world_ok w → startGame env sid w = Ok (w', evs) → world_ok w'.
Proof.
  unfold startGame. intros Hw H.
  destruct (roomCode w !! sid) as [code|]; [|by simplify_eq].
  destruct (rooms w !! code) as [room|] eqn:Hr; [|by simplify_eq].
  destruct (find _ _) as [player|]; [|by simplify_eq].
  destruct (negb (Player.isHost player)); [by simplify_eq|].
  destruct (Nat.ltb_spec (length (Room.players room)) 2) as [|Hn]; [by simplify_eq|].
  destruct (createDeck env) as [deck k].
  unbind. room_norm.
  destruct (dealLoop _ _ _ _ _) as [[room1 k1]|] eqn:Hdeal; [|done].
  apply dealLoop_frame in Hdeal as (D1&D2&D3&D4). room_norm.
  destruct (firstCardLoop _ _) as [[firstCard deck1]|]; [|done].
  set (room2 := Room.set_discardPile _ (Room.set_deck deck1 room1)) in H.
  assert (R2 : Room.direction room2 = 1 ∧ Room.currentPlayerIndex room2 = 0 ∧
               length (Room.players room2) = length (Room.players room) ∧
               Room.discardPile room2 ≠ []).
  { subst room2. room_norm. rewrite D1, D2, D4. repeat split; auto.
    by destruct (Room.discardPile room1). }
  destruct R2 as (E1&E2&E3&E4). clearbody room2.
  assert (Hrange : 0 ≤ getNextPlayer room2 < Z.of_nat (length (Room.players room2))).
  { rewrite getNextPlayer_next. apply next_range; [left; done|]. rewrite E2, E3. lia. }
  match type of H with
  | match ?special with _ => _ end = _ =>
    assert (∀ room3, special = Ok room3 → room_ok room3) as Hok
  end.
  { intros room3 H3.
    destruct (String.eqb (Card.value firstCard) "skip").
    { simplify_eq. split; [by left|]. intros _. room_norm. by split. }
    destruct (String.eqb (Card.value firstCard) "reverse").
    { simplify_eq. split; [right; room_norm; lia|]. intros _. room_norm.
      split; [done|]. rewrite E2, E3. lia. }
    destruct (String.eqb (Card.value firstCard) "draw2"); cycle 1.
    { simplify_eq. split; [by left|]. intros _. split; [done|]. rewrite E2, E3. lia. }
    destruct (drawCards_spec env 2 k1 room2 E4) as (room'&cs&k'&Hdraw&Hsame&_&_&Hne&_).
    rewrite Hdraw in H3. simplify_eq.
    destruct Hsame as (_&Hp&Hc&Hdir&_).
    split; [left; room_norm; congruence|]. intros _. room_norm.
    split; [done|]. rewrite update_length.
    unfold getNextPlayer. room_norm. rewrite update_length, Hp, Hc, Hdir.
    apply Hrange. }
  destruct (if String.eqb (Card.value firstCard) "skip" then _ else _) as [room3|]; [|done].
  destruct (emitToPlayers _ _); simplify_eq.
  eapply world_ok_insert; [done| |done]. by apply Hok.
Qed.

Lemma playCard_ok env sid cardId chosen w w' evs :
  world_ok w → playCard env sid cardId chosen w = Ok (w', evs) → world_ok w'.
Proof.
  intros Hw H.
  destruct (playCard_dichotomy _ _ _ _ _ _ _ H)
    as [(code&room&player&k&card&Hacc)|[-> _]]; [|done].
  rewrite (playCard_accepted _ _ _ _ _ _ _ _ _ _ Hacc) in H.
  destruct (Hw _ _ (acc_room _ _ _ _ _ _ _ _ Hacc)) as [Hd Hst].
  destruct (decide (length (delete k (Player.cards player)) = 0%nat)) as [Hz|Hnz].
  - unfold playAccepted in H. rewrite Hz in H. cbn [Nat.eqb] in H. simplify_eq.
    eapply world_ok_insert; [done| |done]. split; [done|]. by room_norm.
  - destruct (playAccepted_continues env code player k card chosen room w)
      as (w1&room'&evs1&Hplay&Hrooms&_&_&Hgs&_&Hids&Hdir&Hne&Hcur);
      [apply Hacc|done|done|].
    rewrite Hplay in H. simplify_eq.
    eapply world_ok_insert; [done| |done].
    pose proof (index_lt _ _ _ (acc_player _ _ _ _ _ _ _ _ Hacc)) as Hi.
    split.
    + unfold direction_ok. rewrite Hdir. by apply direction_ok_after.
    + intros _. split; [done|]. rewrite Hcur, (ids_length _ _ Hids).
      apply iter_next_range; [|done]. rewrite Hdir. by apply direction_ok_after.
Qed.

Lemma drawCard_ok env sid w w' evs :
  world_ok w → drawCard env sid w = Ok (w', evs) → world_ok w'.
Proof.
  unfold drawCard. intros Hw H.
  destruct (roomCode w !! sid) as [code|]; [|by simplify_eq].
  destruct (rooms w !! code) as [room|] eqn:Hr; [|by simplify_eq].
  destruct (Room.gameStarted room) eqn:Hst; cbn [negb] in H; [|by simplify_eq].
  destruct (negb _); [by simplify_eq|].
  destruct (Hw _ _ Hr) as [Hd Hin]. destruct (Hin Hst) as [Hne Hi].
  destruct (drawCards_spec env 1 0 room Hne) as (room1&cs&k'&Hdraw&Hsame&_&_&Hne1&_).
  rewrite Hdraw in H. unbind.
  destruct Hsame as (_&Hp&Hc&Hdir&_&Hgs&_).
  destruct (index _ _); [|done].
  set (room2 := Room.update_player _ _ room1) in H.
  assert (R2 : direction_ok room2 ∧ Room.discardPile room2 ≠ [] ∧
               Room.currentPlayerIndex room2 = Room.currentPlayerIndex room ∧
               length (Room.players room2) = length (Room.players room)).
  { subst room2. unfold direction_ok. room_norm.
    by rewrite update_length, Hp, Hc, Hdir. }
  destruct R2 as (E1&E2&E3&E4). clearbody room2.
  destruct (match cs with [] => _ | _ => _ end) as [[]|]; [| |done].
  - simplify_eq. eapply world_ok_insert; [done| |done].
    split; [done|]. intros _. split; [done|]. by rewrite E3, E4.
  - destruct (emitToPlayers _ _); simplify_eq.
    eapply world_ok_insert; [done| |done].
    split; [done|]. intros _. room_norm. split; [done|].
    rewrite getNextPlayer_next. apply next_range; [done|]. by rewrite E3, E4.
Qed.

Lemma sayUno_ok sid w w' evs : world_ok w → sayUno sid w = Ok (w', evs) → world_ok w'.
Proof.
  unfold sayUno. intros Hw H.
  destruct (roomCode w !! sid) as [code|]; [|by simplify_eq].
  destruct (rooms w !! code) as [room|] eqn:Hr; [|by simplify_eq].
  destruct (negb _); [by simplify_eq|].
  destruct (list_find _ _) as [[i player]|]; [|by simplify_eq].
  destruct (Nat.leb _ 2); [|by simplify_eq].
  destruct (Hw _ _ Hr) as [Hd Hin].
  destruct (Player.canBeCaught player); [destruct (Player.catchTimeout player)|];
    simplify_eq; (eapply world_ok_insert; [done| |done]);
    (split; [done|]); room_norm; by rewrite ?update_length.
Qed.

Lemma catchUno_ok env sid tid w w' evs :
  world_ok w → catchUno env sid tid w = Ok (w', evs) → world_ok w'.
Proof.
  intros Hw H.
  destruct (roomCode w !! sid) as [code|] eqn:Hs; [|unfold catchUno in H; rewrite Hs in H; by simplify_eq].
  destruct (rooms w !! code) as [room|] eqn:Hr;
    [|unfold catchUno in H; rewrite Hs, Hr in H; by simplify_eq].
  destruct (Room.gameStarted room) eqn:Hst;
    [|unfold catchUno in H; rewrite Hs, Hr, Hst in H; cbn [negb] in H; by simplify_eq].
  destruct (find (λ p, Player.id p = sid) (Room.players room)) as [catcher|] eqn:Hfc;
    [|unfold catchUno in H; rewrite Hs, Hr, Hst, Hfc in H; cbn [negb] in H;
      by simplify_eq].
  destruct (list_find (λ p, Player.id p = tid) (Room.players room)) as [[i target]|] eqn:Hft;
    [|unfold catchUno in H; rewrite Hs, Hr, Hst, Hfc, Hft in H; cbn [negb] in H;
      by simplify_eq].
  assert (Hatt : catch_attempt sid tid w code room catcher i target) by done.
  destruct (Hw _ _ Hr) as [Hd Hin]. destruct (Hin Hst) as [Hne Hi].
  destruct (catchUno_ways env _ _ _ _ _ _ _ _ Hatt Hne Hi)
    as [[evs' Hsame]|(w1&room'&evs'&Hrun&Hrooms&Hgs&Hcur&Hdir&Hlen&Hdp)].
  - rewrite Hsame in H. by simplify_eq.
  - rewrite Hrun in H. simplify_eq.
    eapply world_ok_insert; [done| |done].
    split; [unfold direction_ok; by rewrite Hdir|]. intros _. split; [done|].
    by rewrite Hcur, Hlen.
Qed.

Lemma disconnect_ok sid w w' evs :
  world_ok w → disconnect sid w = Ok (w', evs) → world_ok w'.
Proof.
  unfold disconnect. intros Hw H.
  destruct (roomCode w !! sid) as [code|]; [|by simplify_eq].
  destruct (String.eqb code ""); [by simplify_eq|].
  destruct (rooms w !! code) as [room|] eqn:Hr; [|by simplify_eq].
  destruct (list_find _ _) as [[i player]|]; [|by simplify_eq].
  room_norm.
  destruct (Nat.eqb _ 0).
  { simplify_eq. intros c r Hc. room_norm.
    apply lookup_delete_Some in Hc as [_ Hc]. by eapply Hw. }
  destruct (Hw _ _ Hr) as [Hd _].
  set (room1 := if (Player.isHost player && _)%bool then _ else _) in H.
  assert (R1 : Room.direction room1 = Room.direction room ∧
               Room.gameStarted room1 = Room.gameStarted room ∧
               Room.discardPile room1 = Room.discardPile room ∧
               Room.currentPlayerIndex room1 = Room.currentPlayerIndex room ∧
               length (Room.players room1) = length (delete i (Room.players room))).
  { subst room1. destruct (Player.isHost player && _)%bool; room_norm;
      by rewrite ?update_length. }
  destruct R1 as (E1&E2&E3&E4&E5). clearbody room1.
  destruct (Hw _ _ Hr) as [_ Hin].
  destruct (Room.gameStarted room1) eqn:G1; cbn [andb] in H.
  - symmetry in E2. destruct (Hin E2) as [Hne Hi].
    destruct (Z.leb_spec (Z.of_nat (length (Room.players room1)))
                (Room.currentPlayerIndex room1)); room_norm; rewrite ?G1 in H;
      cbn [andb] in H;
      destruct (Nat.ltb_spec (length (Room.players room1)) 2); simplify_eq;
      (eapply world_ok_insert; [done| |done]);
      (split; [unfold direction_ok; room_norm; by rewrite E1|]); room_norm;
      try done; intros _; rewrite ?E3; (split; [done|]); lia.
  - rewrite G1 in H. cbn [andb] in H. simplify_eq.
    eapply world_ok_insert; [done| |done].
    split; [unfold direction_ok; by rewrite E1|]. by rewrite G1.
Qed.

Lemma catchTimeoutFires_ok h w w' evs :
  world_ok w → catchTimeoutFires h w = Ok (w', evs) → world_ok w'.
Proof.
  unfold catchTimeoutFires. intros Hw H.
  destruct (timers w !! h) as [o|]; simplify_eq; [|done].
  intros c r Hc. room_norm. rewrite lookup_fmap in Hc.
  destruct (rooms w !! c) as [room|] eqn:Hr; [|done]. simpl in Hc. simplify_eq.
  destruct (Hw _ _ Hr) as [Hd Hin]. split; [done|]. room_norm.
  by rewrite length_fmap.
Qed.

Lemma step_ok env a w w' evs : world_ok w → step env a w = Ok (w', evs) → world_ok w'.
Proof.
  destruct a; simpl;
    eauto using createRoom_ok, joinRoom_ok, startGame_ok, playCard_ok, drawCard_ok,
      sayUno_ok, catchUno_ok, disconnect_ok, catchTimeoutFires_ok.
Qed.

(** In every state that the server can reach, every room has direction 1 or
    -1 and, while its game is on, a card on the discard pile and a current
    index that is the index of one of its players. *)
Theorem reachable_ok w : reachable w → world_ok w.
Proof.
  induction 1 as [|env a w w' evs _ IH Hstep].
  - intros c r Hc. unfold initial in Hc. room_norm. by rewrite lookup_empty in Hc.
  - by eapply step_ok.
Qed.

(** In a reachable state the current index of a started room is the index of
    one of its players. *)
Corollary reachable_index_live w code room :
  reachable w → rooms w !! code = Some room → Room.gameStarted room = true →
  is_Some (index (Room.players room) (Room.currentPlayerIndex room)).
Proof.
  intros Hw Hr Hst. destruct (reachable_ok w Hw code room Hr) as [_ Hin].
  apply index_is_Some. by apply Hin.
Qed.

(** In a reachable state every accepted play runs to its end. *)
Corollary reachable_play_goes_through env sid cardId chosen w code room player k card :
  reachable w → accepted sid cardId w code room player k card →
  ∃ w' evs, playCard env sid cardId chosen w = Ok (w', evs) ∧ reachable w'.
Proof.
  intros Hw Hacc.
  destruct (reachable_ok w Hw code room (acc_room _ _ _ _ _ _ _ _ Hacc)) as [Hd _].
  destruct (playCard_accepted_Ok env _ _ chosen _ _ _ _ _ _ Hacc Hd)
    as (w'&room'&evs&Hplay&_).
  exists w', evs. split; [done|].
  by apply (reachable_step env (PlayCard sid cardId chosen) w w' evs).
Qed.


(** * Further properties *)

(** ** Shuffling and the composition of the deck *)

Lemma swap_Permutation {A} (i j : nat) (a : list A) : swap i j a ≡ₚ a.
Proof.
  unfold swap.
  destruct (a !! i) as [x|] eqn:Hi; [|done].
  destruct (a !! j) as [y|] eqn:Hj; [|done].
  pose proof (lookup_lt_Some _ _ _ Hi) as Li. pose proof (lookup_lt_Some _ _ _ Hj) as Lj.
  apply Permutation_inj. split; [by rewrite !length_insert|].
  exists (λ k, if decide (k = i) then j else if decide (k = j) then i else k).
  split.
  - intros k1 k2. repeat case_decide; intros; subst; congruence.
  - intros k. destruct (decide (k = i)) as [->|Hki].
    + rewrite list_lookup_insert_eq by (by rewrite length_insert). done.
    + rewrite list_lookup_insert_ne by done.
      destruct (decide (k = j)) as [->|Hkj].
      * by rewrite list_lookup_insert_eq.
      * by rewrite list_lookup_insert_ne.
Qed.

Lemma shuffleLoop_spec env i : ∀ k a,
  (shuffleLoop env k i a).1 ≡ₚ a ∧ (shuffleLoop env k i a).2 = (k + i)%nat.
Proof.
  induction i as [|i IH]; intros k a; [by rewrite Nat.add_0_r|].
  cbn [shuffleLoop]. destruct (IH (S k) (swap (S i) (floor_mul (random env k) (S i + 1)) a))
    as [HP Hk].
  split; [by rewrite HP, swap_Permutation | lia].
Qed.

Lemma shuffleDeck_Permutation env k deck : (shuffleDeck env k deck).1 ≡ₚ deck.
Proof. apply shuffleLoop_spec. Qed.

(** X1.  [shuffleDeck] returns the cards it was given, each as often as it was
    given, whatever [Math.random()] returns; it leaves the deck it was given
    alone and calls [Math.random()] once for every card but one. *)
Theorem shuffleDeck_permutes env k deck :
  (shuffleDeck env k deck).1 ≡ₚ deck ∧
  (shuffleDeck env k deck).2 = (k + (length deck - 1))%nat.
Proof.
  unfold shuffleDeck. destruct (shuffleLoop_spec env (length deck - 1) k deck) as [HP Hk].
  split; [exact HP|exact Hk].
Qed.

Lemma copies_Permutation color value d1 d2 :
  d1 ≡ₚ d2 → copies color value d1 = copies color value d2.
Proof. unfold copies. by intros ->. Qed.

Lemma imap_faces_fmap (f : nat → string * string → Card.t) (faces : list (string * string)) :
  (∀ i x, (Card.color (f i x), Card.value (f i x)) = x) →
  (λ c, (Card.color c, Card.value c)) <$> imap f faces = faces.
Proof.
  revert f. induction faces as [|x faces IH]; intros f Hf; [done|].
  cbn [imap fmap list_fmap]. f_equal; [apply Hf|]. apply IH. intros i y. apply Hf.
Qed.

Lemma imap_faces_ids (f : nat → string * string → Card.t) (uuid : nat → string)
    (faces : list (string * string)) :
  (∀ i x, Card.id (f i x) = uuid i) →
  Card.id <$> imap f faces = uuid <$> seq 0 (length faces).
Proof.
  revert f uuid. induction faces as [|x faces IH]; intros f uuid Hf; [done|].
  cbn [imap fmap list_fmap length seq]. f_equal; [apply Hf|].
  rewrite (IH _ (uuid ∘ S)) by (intros i y; apply Hf).
  by rewrite <- seq_shift, <- list_fmap_compose.
Qed.

Lemma copies_faces color value deck :
  copies color value deck =
  length (filter (λ f, f = (color, value)) ((λ c, (Card.color c, Card.value c)) <$> deck)).
Proof.
  unfold copies. induction deck as [|c deck IH]; [done|].
  rewrite fmap_cons, !filter_cons.
  destruct (decide (Card.color c = color ∧ Card.value c = value)) as [[<- <-]|Hn].
  - rewrite decide_True by done. simpl. by rewrite IH.
  - rewrite decide_False; [done|]. intros [= ? ?]. by apply Hn.
Qed.

Lemma createDeck_faces env :
  (λ c, (Card.color c, Card.value c)) <$> (createDeck env).1 ≡ₚ deckFaces.
Proof.
  unfold createDeck.
  rewrite shuffleDeck_Permutation. rewrite imap_faces_fmap; [done|]. by intros i [c v].
Qed.

Lemma createDeck_length env : length (createDeck env).1 = 108%nat.
Proof.
  pose proof (createDeck_faces env) as HP.
  apply Permutation_length in HP. by rewrite length_fmap in HP.
Qed.

(** X2.  [createDeck] returns 108 cards whatever [Math.random()] returns: of
    every color one 0 and two of every other value, and four of each wild
    card. *)
Theorem createDeck_composition env :
  length (createDeck env).1 = 108%nat ∧
  (∀ color, color ∈ COLORS →
     copies color "0" (createDeck env).1 = 1%nat ∧
     ∀ value, value ∈ tail VALUES → copies color value (createDeck env).1 = 2%nat) ∧
  copies "wild" "wild" (createDeck env).1 = 4%nat ∧
  copies "wild" "wild_draw4" (createDeck env).1 = 4%nat.
Proof.
  pose proof (createDeck_faces env) as HP.
  assert (Hc : ∀ color value,
    copies color value (createDeck env).1
    = length (filter (λ f, f = (color, value)) deckFaces)).
  { intros. rewrite copies_faces. by rewrite HP. }
  split; [|split; [|split]].
  - apply createDeck_length.
  - intros color Hcol. split.
    + rewrite Hc. unfold COLORS in Hcol.
      repeat (apply elem_of_cons in Hcol as [->|Hcol]; [vm_compute; reflexivity|]).
      by apply elem_of_nil in Hcol.
    + intros value Hval. rewrite Hc. unfold COLORS in Hcol. unfold VALUES in Hval.
      cbn [tail] in Hval.
      repeat (apply elem_of_cons in Hcol as [->|Hcol];
        [repeat (apply elem_of_cons in Hval as [->|Hval]; [vm_compute; reflexivity|]);
         by apply elem_of_nil in Hval|]).
      by apply elem_of_nil in Hcol.
  - rewrite Hc. vm_compute. reflexivity.
  - rewrite Hc. vm_compute. reflexivity.
Qed.

(** X3.  The ids of the cards of a new deck are the values of the first 108
    calls of [uuidv4()]: when these differ from each other, no two cards of
    the deck have the same id. *)
Theorem createDeck_ids_distinct env :
  NoDup (uuidv4 env <$> seq 0 108) → NoDup (Card.id <$> (createDeck env).1).
Proof.
  intros Hnd. unfold createDeck.
  rewrite shuffleDeck_Permutation.
  rewrite (imap_faces_ids _ (uuidv4 env)) by (by intros i [c v]). exact Hnd.
Qed.

(** The witness of X3: the ids ["card0"], ["card1"], ... of [env0]. *)
Lemma createDeck_ids_distinct_witness :
  NoDup (uuidv4 env0 <$> seq 0 108) ∧ NoDup (Card.id <$> (createDeck env0).1).
Proof.
  assert (H : NoDup (uuidv4 env0 <$> seq 0 108)).
  { apply (bool_decide_unpack _). vm_compute. reflexivity. }
  split; [exact H | exact (createDeck_ids_distinct env0 H)].
Defined.

(** ** Drawing *)

Lemma pop_Some {A} (a : list A) x rest : pop a = (Some x, rest) → a = rest ++ [x].
Proof.
  unfold pop. intros [= Hl <-].
  destruct (exists_last (l := a)) as (r & y & ->).
  { intros ->. done. }
  rewrite last_snoc in Hl. rewrite removelast_last. congruence.
Qed.

Lemma drawCards_discard env count : ∀ k room room' cs k',
  drawCards env k room count = Ok (room', cs, k') →
  Room.discardPile room' = Room.discardPile room ∨
  ∃ top, last (Room.discardPile room) = Some top ∧ Room.discardPile room' = [top].
Proof.
  induction count as [|count IH]; intros k room room' cs k' H.
  { simplify_eq/=. by left. }
  cbn [drawCards] in H. unbind.
  destruct (Room.deck room) as [|c0 deck0] eqn:Hdeck.
  - destruct (pop (Room.discardPile room)) as [[topCard|] rest] eqn:Hpop; [|done].
    assert (Hlast : last (Room.discardPile room) = Some topCard) by (by injection Hpop).
    destruct (shuffleDeck env k rest) as [d k1].
    right. exists topCard. split; [done|].
    destruct (pop (Room.deck _)) as [[c|] d'].
    + destruct (drawCards env k1 _ count) as [[[room2 cs2] k2]|] eqn:Hrec; [|done].
      simplify_eq. apply IH in Hrec as [Hrec|(top & Hl & Hrec)]; room_norm; [done|].
      cbn in Hl. congruence.
    + apply IH in H as [Hrec|(top & Hl & Hrec)]; room_norm; [done|].
      cbn in Hl. congruence.
  - rewrite Hdeck in H. destruct (pop (c0 :: deck0)) as [[c|] d'].
    + destruct (drawCards env k _ count) as [[[room2 cs2] k2]|] eqn:Hrec; [|done].
      simplify_eq. by apply IH in Hrec.
    + by apply IH in H.
Qed.

Lemma Permutation_draw {A} (l1 l2 cs d r : list A) (c : A) :
  l1 ++ l2 ++ cs ≡ₚ d ++ r → l1 ++ l2 ++ c :: cs ≡ₚ (d ++ [c]) ++ r.
Proof.
  intros H. transitivity (c :: (l1 ++ l2 ++ cs)).
  { rewrite !app_assoc. symmetry. apply Permutation_middle. }
  rewrite H. rewrite <- app_assoc. simpl. apply Permutation_middle.
Qed.

Lemma drawCards_cards env count : ∀ k room room' cs k',
  drawCards env k room count = Ok (room', cs, k') →
  Room.deck room' ++ Room.discardPile room' ++ cs ≡ₚ Room.deck room ++ Room.discardPile room.
Proof.
  induction count as [|count IH]; intros k room room' cs k' H.
  { simplify_eq/=. by rewrite app_nil_r. }
  cbn [drawCards] in H. unbind.
  destruct (Room.deck room) as [|c0 deck0] eqn:Hdeck.
  - destruct (pop (Room.discardPile room)) as [[topCard|] rest] eqn:Hpop; [|done].
    apply pop_Some in Hpop. rewrite Hpop.
    destruct (shuffleDeck env k rest) as [d k1] eqn:Hsh.
    pose proof (shuffleDeck_Permutation env k rest) as HP. rewrite Hsh in HP. simpl in HP.
    destruct (pop (Room.deck _)) as [[c|] d'] eqn:Hpop1.
    + apply pop_Some in Hpop1. room_norm. subst d.
      destruct (drawCards env k1 _ count) as [[[room2 cs2] k2]|] eqn:Hrec; [|done].
      simplify_eq. apply IH in Hrec. room_norm.
      rewrite <- HP. simpl. by apply Permutation_draw.
    + apply IH in H. apply pop_None in Hpop1. room_norm. rewrite H. subst d.
      apply Permutation_nil_l in HP. by subst rest.
  - rewrite Hdeck in H. destruct (pop (c0 :: deck0)) as [[c|] d'] eqn:Hpop1.
    + apply pop_Some in Hpop1. rewrite Hpop1.
      destruct (drawCards env k _ count) as [[[room2 cs2] k2]|] eqn:Hrec; [|done].
      simplify_eq. apply IH in Hrec. room_norm. by apply Permutation_draw.
    + by apply pop_None in Hpop1.
Qed.

Lemma drawCards_reshuffled env count : ∀ k room room' cs k',
  drawCards env k room count = Ok (room', cs, k') →
  (length (Room.deck room) < count)%nat →
  ∃ top, last (Room.discardPile room) = Some top ∧ Room.discardPile room' = [top].
Proof.
  induction count as [|count IH]; intros k room room' cs k' H Hlt; [lia|].
  cbn [drawCards] in H. unbind.
  destruct (Room.deck room) as [|c0 deck0] eqn:Hdeck.
  - destruct (pop (Room.discardPile room)) as [[topCard|] rest] eqn:Hpop; [|done].
    assert (Hlast : last (Room.discardPile room) = Some topCard) by (by injection Hpop).
    destruct (shuffleDeck env k rest) as [d k1].
    exists topCard. split; [done|].
    destruct (pop (Room.deck _)) as [[c|] d'].
    + destruct (drawCards env k1 _ count) as [[[room2 cs2] k2]|] eqn:Hrec; [|done].
      simplify_eq. apply drawCards_discard in Hrec as [Hrec|(top & Hl & Hrec)]; room_norm; [done|].
      cbn in Hl. congruence.
    + apply drawCards_discard in H as [Hrec|(top & Hl & Hrec)]; room_norm; [done|].
      cbn in Hl. congruence.
  - rewrite Hdeck in H. destruct (pop (c0 :: deck0)) as [[c|] d'] eqn:Hpop1.
    2:{ by apply pop_None in Hpop1. }
    pose proof (pop_length _ _ _ Hpop1) as Hlen.
    destruct (drawCards env k _ count) as [[[room2 cs2] k2]|] eqn:Hrec; [|done].
    simplify_eq. apply IH in Hrec; [done|]. room_norm. simpl in *. lia.
Qed.

(** X4.  With a card on the discard pile [drawCards] ends and hands out
    [count] cards, or all the cards that the deck and the discard pile below
    its top card hold when these are fewer.  No card is made or lost: the
    deck, the discard pile and the cards handed out are together the deck and
    the discard pile of before.  The top card stays on top, and when the deck
    does not hold [count] cards the discard pile is left with its top card
    alone.  The players, the turn and the direction are as before. *)
Theorem drawCards_conserves env k room count :
  Room.discardPile room ≠ [] →
  ∃ room' cs k',
    drawCards env k room count = Ok (room', cs, k') ∧
    same_table room room' ∧
    length cs = Nat.min count (available room) ∧
    Room.deck room' ++ Room.discardPile room' ++ cs
      ≡ₚ Room.deck room ++ Room.discardPile room ∧
    last (Room.discardPile room') = last (Room.discardPile room) ∧
    ((length (Room.deck room) < count)%nat → length (Room.discardPile room') = 1%nat).
Proof.
  intros Hd.
  destruct (drawCards_spec env count k room Hd) as (room'&cs&k'&H&Hsame&Hlen&_&_&Hlast).
  exists room', cs, k'. split; [done|]. split; [done|]. split; [done|].
  split; [by eapply drawCards_cards|]. split; [done|].
  intros Hlt. destruct (drawCards_reshuffled _ _ _ _ _ _ _ H Hlt) as (top & _ & ->). done.
Qed.

(** The witness of X4: seven cards from the five of the deck of [duelRoom]. *)
Lemma drawCards_conserves_witness :
  Room.discardPile duelRoom ≠ [] ∧
  ∃ room' cs k',
    drawCards env0 0 duelRoom 7 = Ok (room', cs, k') ∧
    same_table duelRoom room' ∧
    length cs = Nat.min 7 (available duelRoom) ∧
    Room.deck room' ++ Room.discardPile room' ++ cs
      ≡ₚ Room.deck duelRoom ++ Room.discardPile duelRoom ∧
    last (Room.discardPile room') = last (Room.discardPile duelRoom) ∧
    ((length (Room.deck duelRoom) < 7)%nat → length (Room.discardPile room') = 1%nat).
Proof.
  assert (H : Room.discardPile duelRoom ≠ []) by (simpl; discriminate).
  split; [exact H|]. exact (drawCards_conserves env0 0 duelRoom 7 H).
Defined.

Lemma drawCards_from_deck_aux env count : ∀ k room,
  (count ≤ length (Room.deck room))%nat →
  ∃ room',
    drawCards env k room count =
      Ok (room', reverse (drop (length (Room.deck room) - count) (Room.deck room)), k) ∧
    Room.deck room' = take (length (Room.deck room) - count) (Room.deck room) ∧
    Room.discardPile room' = Room.discardPile room ∧
    same_table room room'.
Proof.
  induction count as [|count IH]; intros k room Hle.
  { exists room. rewrite Nat.sub_0_r, drop_all, take_ge by lia. by repeat split. }
  cbn [drawCards]. unbind.
  destruct (Room.deck room) as [|c0 deck0] eqn:Hdeck; [simpl in Hle; lia|].
  rewrite Hdeck. destruct (pop (c0 :: deck0)) as [[c|] d'] eqn:Hpop.
  2:{ by apply pop_None in Hpop. }
  apply pop_Some in Hpop. rewrite Hpop in *. rewrite length_app in *. simpl in Hle.
  destruct (IH k (Room.set_deck d' room)) as (room' & Hrec & Hdk & Hdp & Hsame).
  { room_norm. lia. }
  room_norm. rewrite Hrec. exists room'.
  replace (length d' + length [c] - S count)%nat with (length d' - count)%nat by (simpl; lia).
  rewrite drop_app_le, take_app_le, reverse_snoc by lia.
  split; [done|]. split; [done|]. split; [done|].
  eapply same_table_trans; [|exact Hsame]. by repeat split.
Qed.

(** X5.  When the deck holds [count] cards, [drawCards] hands out its last
    [count] cards, the last one first: the deck keeps the cards before them,
    the discard pile is not touched and [Math.random()] is not called. *)
Theorem drawCards_from_deck env count k room :
  (count ≤ length (Room.deck room))%nat →
  ∃ room',
    drawCards env k room count =
      Ok (room', reverse (drop (length (Room.deck room) - count) (Room.deck room)), k) ∧
    Room.deck room' = take (length (Room.deck room) - count) (Room.deck room) ∧
    Room.discardPile room' = Room.discardPile room ∧
    same_table room room'.
Proof.
  intros Hle. destruct (drawCards_from_deck_aux env count k room Hle) as (room' & H).
  by exists room'.
Qed.

(** The witness of X5: two cards from the deck of [duelRoom]. *)
Lemma drawCards_from_deck_witness :
  (2 ≤ length (Room.deck duelRoom))%nat ∧
  ∃ room',
    drawCards env0 0 duelRoom 2 =
      Ok (room', reverse (drop (length (Room.deck duelRoom) - 2) (Room.deck duelRoom)), 0%nat) ∧
    Room.deck room' = take (length (Room.deck duelRoom) - 2) (Room.deck duelRoom) ∧
    Room.discardPile room' = Room.discardPile duelRoom ∧
    same_table duelRoom room'.
Proof.
  assert (H : (2 ≤ length (Room.deck duelRoom))%nat) by (simpl; lia).
  split; [exact H|]. exact (drawCards_from_deck env0 2 0%nat duelRoom H).
Defined.

(** ** Rounds *)

Lemma iter_advance k room :
  Room.players (Nat.iter k advance room) = Room.players room ∧
  Room.direction (Nat.iter k advance room) = Room.direction room ∧
  Room.currentPlayerIndex (Nat.iter k advance room) =
    Nat.iter k (next (Z.of_nat (length (Room.players room))) (Room.direction room))
      (Room.currentPlayerIndex room).
Proof.
  induction k as [|k (Hp & Hd & Hi)]; [done|].
  rewrite !Nat.iter_succ.
  set (r := Nat.iter k advance room) in *. unfold advance. room_norm.
  rewrite Hp, Hd. split; [done|]. split; [done|].
  by rewrite getNextPlayer_next, Hp, Hd, Hi.
Qed.

Lemma iter_next_mod k n d i :
  (d = 1 ∨ d = -1) → 0 ≤ i < n →
  Nat.iter k (next n d) i = (i + Z.of_nat k * d) mod n.
Proof.
  intros Hd Hi. induction k as [|k IH].
  { simpl. rewrite Z.add_0_r, Z.mod_small; lia. }
  rewrite Nat.iter_succ, next_mod.
  2: done. 2: by apply iter_next_range.
  rewrite IH, Z.add_mod_idemp_l by lia. f_equal. lia.
Qed.

(** X6.  Among the players of a room the turn goes round: with the direction
    1 or -1 and the current index that of a player, [getNextPlayer] gives the
    index of a player again; as many moves as there are players bring the
    turn back to where it was and fewer do not; and one move in the opposite
    direction undoes a move. *)
Theorem getNextPlayer_round room :
  direction_ok room →
  0 ≤ Room.currentPlayerIndex room < Z.of_nat (length (Room.players room)) →
  (∀ k, 0 ≤ Room.currentPlayerIndex (Nat.iter k advance room)
          < Z.of_nat (length (Room.players room))) ∧
  Room.currentPlayerIndex (Nat.iter (length (Room.players room)) advance room)
    = Room.currentPlayerIndex room ∧
  (∀ k, (0 < k < length (Room.players room))%nat →
     Room.currentPlayerIndex (Nat.iter k advance room) ≠ Room.currentPlayerIndex room) ∧
  getNextPlayer (Room.set_direction (Room.direction room * -1) (advance room))
    = Room.currentPlayerIndex room.
Proof.
  intros Hd Hi.
  assert (Hk : ∀ k, Room.currentPlayerIndex (Nat.iter k advance room) =
    (Room.currentPlayerIndex room + Z.of_nat k * Room.direction room)
      mod Z.of_nat (length (Room.players room))).
  { intros k. rewrite <- iter_next_mod by done. apply iter_advance. }
  split; [|split; [|split]].
  - intros k. rewrite Hk. apply Z.mod_pos_bound. lia.
  - rewrite Hk, Z.mul_comm, Z_mod_plus_full. apply Z.mod_small. lia.
  - intros k Hklt. rewrite Hk. destruct Hd as [-> | ->].
    + destruct (decide (Room.currentPlayerIndex room + Z.of_nat k
                        < Z.of_nat (length (Room.players room)))).
      * rewrite Z.mod_small; lia.
      * replace (Room.currentPlayerIndex room + Z.of_nat k * 1)
          with ((Room.currentPlayerIndex room + Z.of_nat k
                 - Z.of_nat (length (Room.players room)))
                + 1 * Z.of_nat (length (Room.players room))) by lia.
        rewrite Z_mod_plus_full, Z.mod_small; lia.
    + destruct (decide (0 ≤ Room.currentPlayerIndex room - Z.of_nat k)).
      * rewrite Z.mod_small; lia.
      * replace (Room.currentPlayerIndex room + Z.of_nat k * -1)
          with ((Room.currentPlayerIndex room - Z.of_nat k
                 + Z.of_nat (length (Room.players room)))
                + (-1) * Z.of_nat (length (Room.players room))) by lia.
        rewrite Z_mod_plus_full, Z.mod_small; lia.
  - unfold advance. rewrite !getNextPlayer_next. room_norm.
    rewrite (next_mod _ (Room.direction room)) by done.
    rewrite next_mod.
    2: destruct Hd as [-> | ->]; lia.
    2: apply Z.mod_pos_bound; lia.
    rewrite Z.add_mod_idemp_l by lia.
    replace (Room.currentPlayerIndex room + Room.direction room + Room.direction room * -1)
      with (Room.currentPlayerIndex room) by lia.
    apply Z.mod_small. lia.
Qed.

(** The witness of X6: the two players of [duelRoom]. *)
Lemma getNextPlayer_round_witness :
  direction_ok duelRoom ∧
  0 ≤ Room.currentPlayerIndex duelRoom < Z.of_nat (length (Room.players duelRoom)) ∧
  Room.currentPlayerIndex (Nat.iter (length (Room.players duelRoom)) advance duelRoom)
    = Room.currentPlayerIndex duelRoom.
Proof.
  assert (Hd : direction_ok duelRoom) by (by left).
  assert (Hi : 0 ≤ Room.currentPlayerIndex duelRoom
               < Z.of_nat (length (Room.players duelRoom))) by (simpl; lia).
  split; [exact Hd|]. split; [exact Hi|].
  exact (proj1 (proj2 (getNextPlayer_round duelRoom Hd Hi))).
Defined.

(** ** The alphabet of the room codes *)

Lemma toUpperCase_append s1 s2 :
  toUpperCase (s1 +:+ s2) = toUpperCase s1 +:+ toUpperCase s2.
Proof. induction s1 as [|c s1 IH]; simpl; [done|]. by rewrite IH. Qed.

Lemma list_ascii_of_string_append s1 s2 :
  list_ascii_of_string (s1 +:+ s2) = list_ascii_of_string s1 ++ list_ascii_of_string s2.
Proof. induction s1 as [|c s1 IH]; simpl; [done|]. by rewrite IH. Qed.

Lemma charAt_chars i :
  (i < String.length chars)%nat →
  ∃ c, charAt chars i = String c EmptyString ∧
       c ∈ list_ascii_of_string chars ∧ upper c = c.
Proof.
  intros Hi. unfold charAt.
  do 36 (destruct i as [|i];
    [eexists; split; [reflexivity|]; split; [|reflexivity];
     apply (bool_decide_unpack _); vm_compute; reflexivity|]).
  simpl in Hi. lia.
Qed.

Lemma roomCodeLoop_alphabet env n : ∀ k code,
  Forall (λ c, c ∈ list_ascii_of_string chars) (list_ascii_of_string code) →
  toUpperCase code = code →
  Forall (λ c, c ∈ list_ascii_of_string chars)
    (list_ascii_of_string (roomCodeLoop env k n code)) ∧
  toUpperCase (roomCodeLoop env k n code) = roomCodeLoop env k n code.
Proof.
  induction n as [|n IH]; intros k code Hall Hup; [done|].
  cbn [roomCodeLoop].
  destruct (charAt_chars (floor_mul (random env k) (String.length chars)))
    as (c & -> & Hc & Hu).
  { apply floor_mul_lt. simpl. lia. }
  apply IH.
  - rewrite list_ascii_of_string_append. apply Forall_app. split; [done|].
    simpl. constructor; [done|constructor].
  - rewrite toUpperCase_append, Hup. simpl. by rewrite Hu.
Qed.

(** X7.  A room code has six characters, each a capital letter or a digit of
    [chars], whatever [Math.random()] returns; [toUpperCase] leaves it as it
    is. *)
Theorem generateRoomCode_alphabet env :
  String.length (generateRoomCode env) = 6%nat ∧
  Forall (λ c, c ∈ list_ascii_of_string chars)
    (list_ascii_of_string (generateRoomCode env)) ∧
  toUpperCase (generateRoomCode env) = generateRoomCode env.
Proof.
  split; [apply generateRoomCode_length|].
  by apply roomCodeLoop_alphabet.
Qed.

(** X8.  The room that [createRoom] has made can be joined under its code,
    written in capital or in small letters: [joinRoom] of another socket with
    a code whose capitals are the code of the room seats that socket second,
    after the host, in the lobby of the room, and answers ['roomJoined']. *)
Theorem created_room_can_be_joined env sid1 name1 sid2 name2 code w :
  toUpperCase code = generateRoomCode env →
  ∃ w1 evs1 w2 room,
    createRoom env sid1 name1 w = Ok (w1, evs1) ∧
    joinRoom sid2 code name2 w1 =
      Ok (w2, [Emit (ToSocket sid2) "roomJoined" None;
               Emit (ToRoom (generateRoomCode env)) "playerList" None]) ∧
    rooms w2 !! generateRoomCode env = Some room ∧
    Room.players room =
      [newPlayer (nextOid w) sid1 name1 true; newPlayer (S (nextOid w)) sid2 name2 false] ∧
    Room.gameStarted room = false ∧
    roomCode w2 !! sid2 = Some (generateRoomCode env).
Proof.
  intros Hup. unfold createRoom, joinRoom. eexists _, _, _, _. split; [done|].
  room_norm. rewrite Hup, lookup_insert_eq. room_norm. cbn [Nat.leb length].
  split; [done|]. room_norm. rewrite !lookup_insert_eq. done.
Qed.

(** The witness of X8: the code of the room in small letters. *)
Lemma created_room_can_be_joined_witness :
  toUpperCase "aaaaaa" = generateRoomCode env0 ∧
  ∃ w1 evs1 w2 room,
    createRoom env0 "s1" "Ann" initial = Ok (w1, evs1) ∧
    joinRoom "s2" "aaaaaa" "Bob" w1 =
      Ok (w2, [Emit (ToSocket "s2") "roomJoined" None;
               Emit (ToRoom (generateRoomCode env0)) "playerList" None]) ∧
    rooms w2 !! generateRoomCode env0 = Some room ∧
    Room.players room =
      [newPlayer (nextOid initial) "s1" "Ann" true;
       newPlayer (S (nextOid initial)) "s2" "Bob" false] ∧
    Room.gameStarted room = false ∧
    roomCode w2 !! "s2" = Some (generateRoomCode env0).
Proof.
  assert (H : toUpperCase "aaaaaa" = generateRoomCode env0) by (vm_compute; reflexivity).
  split; [exact H|].
  exact (created_room_can_be_joined env0 "s1" "Ann" "s2" "Bob" "aaaaaa" initial H).
Defined.

(** ** The first card *)

Lemma pop_app_snoc {A} (a : list A) x : pop (a ++ [x]) = (Some x, a).
Proof. apply pop_snoc. Qed.

Lemma firstCardLoop_rotates first wilds : ∀ pre fuel,
  Card.color first ≠ "wild" →
  Forall (λ c, Card.color c = "wild") wilds →
  (length wilds < fuel)%nat →
  firstCardLoop fuel (pre ++ [first] ++ wilds) = Ok (first, wilds ++ pre).
Proof.
  induction wilds as [|w wilds IH] using rev_ind; intros pre fuel Hf Hw Hfuel.
  - destruct fuel as [|fuel]; [simpl in Hfuel; lia|].
    cbn [firstCardLoop]. rewrite app_nil_r, pop_snoc.
    destruct (String.eqb_spec (Card.color first) "wild"); done.
  - destruct fuel as [|fuel]; [simpl in Hfuel; lia|].
    apply Forall_app in Hw as [Hw Hw1]. rewrite Forall_singleton in Hw1.
    rewrite length_app in Hfuel. simpl in Hfuel.
    cbn [firstCardLoop]. rewrite !app_assoc, pop_snoc, Hw1, String.eqb_refl.
    unfold unshift.
    rewrite <- app_assoc.
    change (w :: pre ++ [first] ++ wilds) with ((w :: pre) ++ [first] ++ wilds).
    rewrite (IH (w :: pre) fuel) by (done || lia).
    by rewrite <- app_assoc.
Qed.

Lemma last_not_wild deck :
  Exists (λ c, Card.color c ≠ "wild") deck →
  ∃ pre first wilds,
    deck = pre ++ [first] ++ wilds ∧ Card.color first ≠ "wild" ∧
    Forall (λ c, Card.color c = "wild") wilds.
Proof.
  induction deck as [|c deck IH] using rev_ind; intros Hex.
  { by apply Exists_nil in Hex. }
  destruct (decide (Card.color c = "wild")) as [Hc|Hc].
  - apply Exists_app in Hex as [Hex|Hex].
    + destruct (IH Hex) as (pre & first & wilds & -> & Hf & Hw).
      exists pre, first, (wilds ++ [c]). rewrite <- !app_assoc. split; [done|].
      split; [done|]. apply Forall_app. split; [done|]. by rewrite Forall_singleton.
    + apply Exists_cons in Hex as [Hex|Hex]; [done|]. by apply Exists_nil in Hex.
  - exists deck, c, []. by repeat split.
Qed.

(** X9.  The loop that places the first card ends when the deck holds a card
    that is not wild.  It takes the last such card of the deck, and the wild
    cards that lay after it are moved, in their order, to the front of the
    deck. *)
Theorem firstCardLoop_finds deck :
  Exists (λ c, Card.color c ≠ "wild") deck →
  ∃ pre first wilds,
    deck = pre ++ [first] ++ wilds ∧ Card.color first ≠ "wild" ∧
    Forall (λ c, Card.color c = "wild") wilds ∧
    ∀ fuel, (length wilds < fuel)%nat →
      firstCardLoop fuel deck = Ok (first, wilds ++ pre).
Proof.
  intros Hex. destruct (last_not_wild deck Hex) as (pre & first & wilds & -> & Hf & Hw).
  exists pre, first, wilds. split; [done|]. split; [done|]. split; [done|].
  intros fuel Hfuel. by apply firstCardLoop_rotates.
Qed.

(** The witness of X9: a wild card after a blue 2. *)
Lemma firstCardLoop_finds_witness :
  Exists (λ c, Card.color c ≠ "wild")
    [Card.mk "red" "1" "a"; Card.mk "blue" "2" "b"; Card.mk "wild" "wild" "c"] ∧
  ∃ pre first wilds,
    [Card.mk "red" "1" "a"; Card.mk "blue" "2" "b"; Card.mk "wild" "wild" "c"]
      = pre ++ [first] ++ wilds ∧ Card.color first ≠ "wild" ∧
    Forall (λ c, Card.color c = "wild") wilds ∧
    ∀ fuel, (length wilds < fuel)%nat →
      firstCardLoop fuel
        [Card.mk "red" "1" "a"; Card.mk "blue" "2" "b"; Card.mk "wild" "wild" "c"]
      = Ok (first, wilds ++ pre).
Proof.
  assert (H : Exists (λ c, Card.color c ≠ "wild")
    [Card.mk "red" "1" "a"; Card.mk "blue" "2" "b"; Card.mk "wild" "wild" "c"]).
  { apply Exists_cons_hd. simpl. discriminate. }
  split; [exact H|]. exact (firstCardLoop_finds _ H).
Defined.

(** X10.  On a deck of wild cards only the loop that places the first card
    does not end: it puts every card it takes back at the front of the
    deck. *)
Theorem firstCardLoop_wild_only deck :
  Forall (λ c, Card.color c = "wild") deck → deck ≠ [] →
  ∀ fuel, firstCardLoop fuel deck = Fault Diverges.
Proof.
  intros Hall Hne fuel. revert deck Hall Hne.
  induction fuel as [|fuel IH]; intros deck Hall Hne; [done|].
  destruct (exists_last Hne) as (rest & w & ->).
  apply Forall_app in Hall as [Hall Hw]. rewrite Forall_singleton in Hw.
  cbn [firstCardLoop]. rewrite pop_snoc, Hw, String.eqb_refl.
  apply IH; [|done]. by constructor.
Qed.

(** The witness of X10: two wild cards. *)
Lemma firstCardLoop_wild_only_witness :
  Forall (λ c, Card.color c = "wild")
    [Card.mk "wild" "wild" "a"; Card.mk "wild" "wild_draw4" "b"] ∧
  [Card.mk "wild" "wild" "a"; Card.mk "wild" "wild_draw4" "b"] ≠ [] ∧
  ∀ fuel,
    firstCardLoop fuel [Card.mk "wild" "wild" "a"; Card.mk "wild" "wild_draw4" "b"]
    = Fault Diverges.
Proof.
  assert (H : Forall (λ c, Card.color c = "wild")
    [Card.mk "wild" "wild" "a"; Card.mk "wild" "wild_draw4" "b"]).
  { repeat constructor. }
  split; [exact H|]. split; [discriminate|].
  exact (firstCardLoop_wild_only _ H ltac:(discriminate)).
Defined.

(** ** The start of a game *)

Lemma createDeck_wild_count env :
  length (filter (λ c, Card.color c = "wild") (createDeck env).1) = 8%nat.
Proof.
  assert (H : ∀ deck,
    length (filter (λ c, Card.color c = "wild") deck) =
    length (filter (λ f, f.1 = "wild") ((λ c, (Card.color c, Card.value c)) <$> deck))).
  { induction deck as [|c deck IH]; [done|].
    rewrite fmap_cons, !filter_cons. simpl.
    destruct (decide (Card.color c = "wild")); simpl; [f_equal|]; exact IH. }
  rewrite H, createDeck_faces. vm_compute. reflexivity.
Qed.

Lemma alter_middle {A} (f : A → A) (l1 l2 : list A) x :
  alter f (length l1) (l1 ++ x :: l2) = l1 ++ f x :: l2.
Proof. induction l1 as [|y l1 IH]; simpl; [done|]. by rewrite <- IH. Qed.

(** The deal: every player still to be dealt to gets the last seven cards of
    the deck. *)
Lemma dealLoop_spec env : ∀ todo dealt room k,
  Room.players room = dealt ++ todo →
  (7 * length todo ≤ length (Room.deck room))%nat →
  ∃ room' todo',
    dealLoop env k room (length dealt) (length todo) = Ok (room', k) ∧
    Room.players room' = dealt ++ todo' ∧
    Forall2 (λ p p', p' = Player.set_cards (Player.cards p') p ∧
                     length (Player.cards p') = 7%nat) todo todo' ∧
    Room.deck room' ++ concat (Player.cards <$> todo') ≡ₚ Room.deck room ∧
    Room.code room' = Room.code room ∧
    Room.discardPile room' = Room.discardPile room ∧
    Room.currentPlayerIndex room' = Room.currentPlayerIndex room ∧
    Room.direction room' = Room.direction room ∧
    Room.chosenColor room' = Room.chosenColor room ∧
    Room.gameStarted room' = Room.gameStarted room ∧
    Room.winner room' = Room.winner room.
Proof.
  induction todo as [|p todo IH]; intros dealt room k Hps Hlen.
  { exists room, []. simpl. rewrite !app_nil_r in *.
    split; [done|]. split; [done|]. split; [constructor|]. by repeat split. }
  cbn [dealLoop length]. cbn [length] in Hlen.
  destruct (drawCards_from_deck_aux env 7 k room) as (room1 & Hdraw & Hdk & Hdp & Hsame); [lia|].
  rewrite Hdraw. unbind.
  destruct Hsame as (Hc & Hp & Hi & Hd & Hcol & Hst & Hw).
  set (cs := reverse (drop (length (Room.deck room) - 7) (Room.deck room))) in *.
  set (room2 := Room.update_player _ _ room1).
  assert (Hps2 : Room.players room2 = (dealt ++ [Player.set_cards cs p]) ++ todo).
  { subst room2. room_norm. rewrite Hp, Hps. unfold update.
    rewrite Nat2Z.id. destruct (Z.ltb_spec (Z.of_nat (length dealt)) 0); [lia|].
    by rewrite alter_middle, <- app_assoc. }
  destruct (IH (dealt ++ [Player.set_cards cs p]) room2 k Hps2) as (room' & todo' & Hrec & H').
  { subst room2. room_norm. rewrite Hdk, length_take. lia. }
  rewrite length_app, Nat.add_1_r in Hrec. rewrite Hrec.
  destruct H' as (Hps' & HF & HP & Hc' & Hdp' & Hi' & Hd' & Hcol' & Hst' & Hw').
  exists room', (Player.set_cards cs p :: todo'). split; [done|].
  split; [by rewrite Hps', <- app_assoc|].
  split.
  { constructor; [|done]. split; [done|]. simpl. subst cs.
    rewrite length_reverse, length_drop. lia. }
  split.
  { rewrite fmap_cons. cbn [concat Player.cards Player.set_cards].
    rewrite (Permutation_app_comm cs), app_assoc, HP. subst room2 cs. room_norm.
    rewrite Hdk, reverse_Permutation. by rewrite take_drop. }
  subst room2. room_norm. by rewrite Hc', Hdp', Hi', Hd', Hcol', Hst', Hw'.
Qed.

Lemma dealt_hands todo todo' :
  Forall2 (λ p p', p' = Player.set_cards (Player.cards p') p ∧
                   length (Player.cards p') = 7%nat) todo todo' →
  ids todo' = ids todo ∧
  (length ∘ Player.cards) <$> todo' = replicate (length todo) 7%nat ∧
  length (concat (Player.cards <$> todo')) = (7 * length todo)%nat.
Proof.
  induction 1 as [|p p' todo todo' [Hp H7] _ (IH1 & IH2 & IH3)]; [done|].
  unfold ids in *. rewrite !fmap_cons, IH1, IH2. cbn [concat length replicate].
  rewrite length_app, IH3, Hp. simpl in *. rewrite H7. repeat split. lia.
Qed.

Lemma filter_all {A} (P : A → Prop) `{∀ x, Decision (P x)} (l : list A) :
  Forall P l → filter P l = l.
Proof.
  induction 1 as [|x l Hx _ IH]; [done|].
  by rewrite filter_cons, decide_True, IH.
Qed.

Lemma rem_one_more n : 2 ≤ n → Z.rem (0 + 1 + n) n = 1.
Proof.
  intros Hn. rewrite Z.rem_mod_nonneg by lia.
  replace (0 + 1 + n) with (1 + 1 * n) by lia.
  rewrite Z_mod_plus_full. apply Z.mod_small. lia.
Qed.

Lemma emitToPlayers_eq name room :
  0 ≤ Room.currentPlayerIndex room < Z.of_nat (length (Room.players room)) →
  emitToPlayers name room
  = Ok ((λ p, Emit (ToSocket (Player.id p)) name None) <$> Room.players room).
Proof.
  intros Hi. unfold emitToPlayers.
  destruct (Room.players room) as [|p ps] eqn:Hps; [simpl in Hi; lia|].
  by destruct (index_is_Some (p :: ps) (Room.currentPlayerIndex room)) as [q ->].
Qed.

Lemma startGame_spec env sid w code room player :
  roomCode w !! sid = Some code →
  rooms w !! code = Some room →
  find (λ p, Player.id p = sid) (Room.players room) = Some player →
  Player.isHost player = true →
  (2 ≤ length (Room.players room) ≤ 10)%nat →
  ∃ w' room' first,
    startGame env sid w =
      Ok (w', (λ p, Emit (ToSocket (Player.id p)) "gameStarted" None) <$> Room.players room') ∧
    rooms w' = <[code := room']> (rooms w) ∧
    roomCode w' = roomCode w ∧ timers w' = timers w ∧
    Room.gameStarted room' = true ∧
    ids (Room.players room') = ids (Room.players room) ∧
    Room.discardPile room' = Room.discardPile room ++ [first] ∧
    Card.color first ≠ "wild" ∧
    hands room' =
      (if String.eqb (Card.value first) "draw2"
       then 9%nat :: replicate (length (Room.players room) - 1) 7%nat
       else replicate (length (Room.players room)) 7%nat) ∧
    Room.deck room' ++ [first] ++ concat (Player.cards <$> Room.players room')
      ≡ₚ (createDeck env).1 ∧
    Room.direction room' = (if String.eqb (Card.value first) "reverse" then -1 else 1) ∧
    Room.currentPlayerIndex room' =
      (if (String.eqb (Card.value first) "skip" || String.eqb (Card.value first) "draw2")%bool
       then 1 else 0).
Proof.
  intros Hs Hr Hfind Hhost Hn. unfold startGame.
  rewrite Hs, Hr, Hfind, Hhost. cbn [negb].
  destruct (Nat.ltb_spec (length (Room.players room)) 2) as [|_]; [lia|].
  pose proof (createDeck_length env) as H108.
  pose proof (createDeck_wild_count env) as Hwild.
  destruct (createDeck env) as [deck0 k0]. cbn [fst] in *.
  set (room0 := Room.set_direction 1 _).
  destruct (dealLoop_spec env (Room.players room) [] room0 k0)
    as (room1 & todo' & Hdeal & Hps1 & HF & HP & Hc1 & Hdp1 & Hi1 & Hd1 & Hcol1 & Hst1 & Hw1).
  { done. }
  { subst room0. room_norm. lia. }
  cbn [length app] in Hdeal, Hps1. subst room0. room_norm. rewrite Hdeal. unbind.
  destruct (dealt_hands _ _ HF) as (Hids & Hhands & Hcount).
  pose proof (Permutation_length HP) as HL. rewrite length_app, Hcount, H108 in HL.
  (* the first card *)
  assert (Hex : Exists (λ c, Card.color c ≠ "wild") (Room.deck room1)).
  { destruct (decide (Exists (λ c, Card.color c ≠ "wild") (Room.deck room1))) as [|Hno]; [done|].
    apply not_Exists_Forall in Hno; [|apply _].
    assert (Hall : Forall (λ c, Card.color c = "wild") (Room.deck room1)).
    { eapply Forall_impl; [exact Hno|]. intros c Hc. simpl in Hc.
      by destruct (decide (Card.color c = "wild")). }
    rewrite <- HP, filter_app, length_app, (filter_all _ _ Hall) in Hwild. lia. }
  destruct (last_not_wild _ Hex) as (pre & first & wilds & Hdeck1 & Hnw & Hws).
  rewrite Hdeck1. rewrite (firstCardLoop_rotates first wilds pre) by
    (done || (rewrite !length_app; simpl; lia)).
  rewrite Hdeck1, !length_app in HL. cbn [length] in HL.
  rewrite Hdeck1 in HP.
  set (room2 := Room.set_discardPile _ _).
  assert (Hne : todo' ≠ []).
  { intros ->. apply Forall2_nil_inv_r in HF. rewrite HF in Hn. simpl in Hn. lia. }
  pose proof (Forall2_length _ _ _ HF) as Hlen'.
  (* the special first cards *)
  destruct (String.eqb_spec (Card.value first) "skip") as [Hv|Hv1].
  { (* skip *)
    assert (String.eqb (Card.value first) "draw2" = false) as E1 by (by rewrite Hv).
    assert (String.eqb (Card.value first) "reverse" = false) as E2 by (by rewrite Hv).
    assert (String.eqb (Card.value first) "skip" = true) as E3 by (by rewrite Hv).
    unfold getNextPlayer. subst room2. room_norm. rewrite Hps1, Hi1, Hd1, <- Hlen'.
    rewrite rem_one_more by lia.
    rewrite emitToPlayers_eq by (room_norm; rewrite Hps1, <- Hlen'; lia).
    eexists _, (Room.set_currentPlayerIndex 1 _), first. split; [reflexivity|].
    unfold hands. room_norm. rewrite Hps1, Hdp1, Hids, Hhands, Hd1, E1, E2, E3.
    repeat split; try done. rewrite <- HP. solve_Permutation. }
  destruct (String.eqb_spec (Card.value first) "reverse") as [Hv|Hv2].
  { (* reverse *)
    assert (String.eqb (Card.value first) "draw2" = false) as E1 by (by rewrite Hv).
    assert (String.eqb (Card.value first) "skip" = false) as E3 by (by rewrite Hv).
    assert (String.eqb (Card.value first) "reverse" = true) as E2 by (by rewrite Hv).
    subst room2. room_norm.
    rewrite emitToPlayers_eq by (room_norm; rewrite Hps1, Hi1, <- Hlen'; lia).
    eexists _, (Room.set_direction _ _), first. split; [reflexivity|].
    unfold hands. room_norm. rewrite Hps1, Hdp1, Hids, Hhands, Hd1, Hi1, E1, E2, E3.
    repeat split; try done. rewrite <- HP. solve_Permutation. }
  destruct (String.eqb_spec (Card.value first) "draw2") as [Hv|Hv3].
  2:{ (* any other card *)
    assert (String.eqb (Card.value first) "skip" = false) as E3 by (by apply String.eqb_neq).
    assert (String.eqb (Card.value first) "reverse" = false) as E2
      by (by apply String.eqb_neq).
    assert (String.eqb (Card.value first) "draw2" = false) as E1 by (by apply String.eqb_neq).
    subst room2. room_norm.
    rewrite emitToPlayers_eq by (room_norm; rewrite Hps1, Hi1, <- Hlen'; lia).
    eexists _, (Room.set_discardPile _ _), first. split; [reflexivity|].
    unfold hands. room_norm. rewrite Hps1, Hdp1, Hids, Hhands, Hd1, Hi1, E1, E2, E3.
    repeat split; try done. rewrite <- HP. solve_Permutation. }
  (* draw2 *)
  assert (String.eqb (Card.value first) "skip" = false) as E3 by (by rewrite Hv).
  assert (String.eqb (Card.value first) "reverse" = false) as E2 by (by rewrite Hv).
  assert (String.eqb (Card.value first) "draw2" = true) as E1 by (by rewrite Hv).
  destruct (drawCards_from_deck_aux env 2 k0 room2) as (room3 & Hdraw & Hdk3 & Hdp3 & Hsame).
  { subst room2. room_norm. rewrite length_app. lia. }
  rewrite Hdraw. unbind.
  destruct Hsame as (Hc3 & Hp3 & Hi3 & Hd3 & Hcol3 & Hst3 & Hw3).
  subst room2. room_norm.
  set (m := (length (wilds ++ pre) - 2)%nat) in *.
  unfold getNextPlayer. room_norm. rewrite Hi3, Hd3, update_length, Hp3, Hps1, Hi1, Hd1, <- Hlen'.
  rewrite rem_one_more by lia.
  rewrite emitToPlayers_eq by (room_norm; rewrite update_length, Hp3, Hps1, <- Hlen'; lia).
  eexists _, (Room.set_currentPlayerIndex 1 _), first. split; [reflexivity|].
  unfold hands. room_norm. rewrite Hp3, Hps1, Hdp3, Hdp1, Hd3, Hd1, Hst3, Hst1, E1, E2, E3.
  destruct todo' as [|p0 rest]; [done|].
  rewrite fmap_cons in Hhands. cbn [length] in Hlen'. rewrite Hlen' in Hhands |- *.
  cbn [replicate] in Hhands. injection Hhands as H7 Hrest.
  unfold update. change (0 <? 0) with false. change (Z.to_nat 0) with 0%nat.
  cbn [alter list_alter fmap list_fmap].
  cbn [Nat.sub]. rewrite Nat.sub_0_r.
  split; [done|]. split; [done|]. split; [done|]. split; [done|].
  split; [by rewrite <- Hids|]. split; [done|]. split; [done|].
  split.
  { f_equal; [|done]. simpl in *. rewrite length_app, H7, length_reverse, length_drop.
    subst m. rewrite length_app in *. lia. }
  split; [|done].
  rewrite Hdk3. cbn [concat Player.cards Player.push_cards Player.set_cards].
  rewrite reverse_Permutation, <- HP.
  transitivity ((take m (wilds ++ pre) ++ drop m (wilds ++ pre)) ++ [first]
                ++ Player.cards p0 ++ concat (Player.cards <$> rest)).
  { solve_Permutation. }
  rewrite take_drop. rewrite fmap_cons. cbn [concat]. solve_Permutation.
Qed.

(** X11.  The host of a room of two to ten players can always start the
    game: [startGame] ends, whatever [Math.random()] and [uuidv4()] return.
    Every player is dealt seven cards of a new deck of 108, and the first
    card, put on the discard pile, is not wild.  The first card decides the
    rest: after a skip or a draw-two the turn is with the second player, and
    after a draw-two the first player holds two cards more; after a reverse
    the direction is -1.  The deck, the first card and the hands are the new
    deck, and every player is sent ['gameStarted']. *)
Theorem startGame_deals env sid w code room player :
  roomCode w !! sid = Some code →
  rooms w !! code = Some room →
  find (λ p, Player.id p = sid) (Room.players room) = Some player →
  Player.isHost player = true →
  (2 ≤ length (Room.players room) ≤ 10)%nat →
  ∃ w' room' first,
    startGame env sid w =
      Ok (w', (λ p, Emit (ToSocket (Player.id p)) "gameStarted" None) <$> Room.players room') ∧
    rooms w' = <[code := room']> (rooms w) ∧
    roomCode w' = roomCode w ∧ timers w' = timers w ∧
    Room.gameStarted room' = true ∧
    ids (Room.players room') = ids (Room.players room) ∧
    Room.discardPile room' = Room.discardPile room ++ [first] ∧
    Card.color first ≠ "wild" ∧
    hands room' =
      (if String.eqb (Card.value first) "draw2"
       then 9%nat :: replicate (length (Room.players room) - 1) 7%nat
       else replicate (length (Room.players room)) 7%nat) ∧
    Room.deck room' ++ [first] ++ concat (Player.cards <$> Room.players room')
      ≡ₚ (createDeck env).1 ∧
    Room.direction room' = (if String.eqb (Card.value first) "reverse" then -1 else 1) ∧
    Room.currentPlayerIndex room' =
      (if (String.eqb (Card.value first) "skip" || String.eqb (Card.value first) "draw2")%bool
       then 1 else 0).
Proof.
  intros Hs Hr Hfind Hhost Hn.
  destruct (startGame_spec env sid w code room player Hs Hr Hfind Hhost Hn)
    as (w' & room' & first & H).
  by exists w', room', first.
Qed.

(** The witness of X11: the host of [pairLobby] starts the game. *)
Lemma startGame_deals_witness :
  roomCode pairLobby !! "s1" = Some "AAAAAA" ∧
  rooms pairLobby !! "AAAAAA" = Some pairLobbyRoom ∧
  find (λ p, Player.id p = "s1") (Room.players pairLobbyRoom)
    = Some (newPlayer 0 "s1" "Ann" true) ∧
  (2 ≤ length (Room.players pairLobbyRoom) ≤ 10)%nat ∧
  ∃ w' room' first,
    startGame env0 "s1" pairLobby =
      Ok (w', (λ p, Emit (ToSocket (Player.id p)) "gameStarted" None)
                <$> Room.players room') ∧
    Room.gameStarted room' = true ∧
    Room.discardPile room' = [first] ∧
    Card.color first ≠ "wild".
Proof.
  assert (H1 : roomCode pairLobby !! "s1" = Some "AAAAAA") by (vm_compute; reflexivity).
  assert (H2 : rooms pairLobby !! "AAAAAA" = Some pairLobbyRoom)
    by (vm_compute; reflexivity).
  assert (H3 : find (λ p, Player.id p = "s1") (Room.players pairLobbyRoom)
               = Some (newPlayer 0 "s1" "Ann" true)) by (vm_compute; reflexivity).
  assert (H4 : (2 ≤ length (Room.players pairLobbyRoom) ≤ 10)%nat) by (simpl; lia).
  split; [exact H1|]. split; [exact H2|]. split; [exact H3|]. split; [exact H4|].
  destruct (startGame_deals env0 "s1" pairLobby "AAAAAA" pairLobbyRoom
              (newPlayer 0 "s1" "Ann" true) H1 H2 H3 eq_refl H4)
    as (w' & room' & first & Hrun & _ & _ & _ & Hst & _ & Hdp & Hnw & _).
  exists w', room', first. split; [exact Hrun|]. split; [exact Hst|].
  split; [exact Hdp|exact Hnw].
Defined.

(** ** What the actions of a game keep *)

Lemma keeps_refl room : keeps room room.
Proof. by repeat split. Qed.

Lemma keeps_trans r1 r2 r3 : keeps r1 r2 → keeps r2 r3 → keeps r1 r3.
Proof.
  intros (C1 & S1 & P1 & G1) (C2 & S2 & P2 & G2).
  split; [congruence|]. split; [congruence|]. split; [by rewrite P2|auto].
Qed.

Lemma seating_update i f ps :
  (∀ p, who (f p) = who p) → seating (update i f ps) = seating ps.
Proof.
  intros Hf. unfold seating, update. destruct (Z.ltb i 0); [done|].
  rewrite (list_fmap_alter who f (λ x, x)) by (by apply Forall_forall).
  by apply list_alter_id.
Qed.

Lemma cards_update i f ps :
  (∀ p, Player.cards (f p) = Player.cards p) →
  Player.cards <$> update i f ps = Player.cards <$> ps.
Proof.
  intros Hf. unfold update. destruct (Z.ltb i 0); [done|].
  rewrite (list_fmap_alter Player.cards f (λ x, x)) by (by apply Forall_forall).
  by apply list_alter_id.
Qed.

Lemma keeps_flags i f room :
  (∀ p, who (f p) = who p) → (∀ p, Player.cards (f p) = Player.cards p) →
  keeps room (Room.update_player i f room).
Proof.
  intros Hw Hc. split; [done|]. split; [by apply seating_update|]. split; [|done].
  unfold allCards. room_norm. by rewrite cards_update.
Qed.

Lemma hands_alter (f : Player.t → Player.t) (i : nat) ps p :
  ps !! i = Some p →
  concat (Player.cards <$> alter f i ps) ++ Player.cards p
  ≡ₚ concat (Player.cards <$> ps) ++ Player.cards (f p).
Proof.
  revert i. induction ps as [|q ps IH]; intros [|i] Hi; simplify_eq/=.
  - solve_Permutation.
  - rewrite <- !app_assoc, (IH i Hi). solve_Permutation.
Qed.

Lemma hands_update f i ps p :
  index ps i = Some p →
  concat (Player.cards <$> update i f ps) ++ Player.cards p
  ≡ₚ concat (Player.cards <$> ps) ++ Player.cards (f p).
Proof.
  intros [Hi Hp]%index_Some. unfold update.
  destruct (Z.ltb_spec i 0); [lia|]. by apply hands_alter.
Qed.

Lemma hands_push i cs ps :
  is_Some (index ps i) →
  concat (Player.cards <$> update i (Player.push_cards cs) ps)
  ≡ₚ concat (Player.cards <$> ps) ++ cs.
Proof.
  intros [p Hp]. pose proof (hands_update (Player.push_cards cs) _ _ _ Hp) as H.
  cbn [Player.push_cards Player.cards Player.set_cards] in H.
  apply (Permutation_app_inv_r (Player.cards p)). rewrite H. solve_Permutation.
Qed.

Lemma keeps_draw env k room count room1 cs k1 i :
  drawCards env k room count = Ok (room1, cs, k1) →
  is_Some (index (Room.players room) i) →
  keeps room (Room.update_player i (Player.push_cards cs) room1).
Proof.
  intros Hdraw Hi.
  pose proof (drawCards_same_table _ _ _ _ _ _ _ Hdraw) as (Hc & Hp & _ & _ & _ & Hst & _).
  pose proof (drawCards_cards _ _ _ _ _ _ _ Hdraw) as HP.
  split; [done|]. split; [|split].
  - room_norm. rewrite seating_update, Hp; done.
  - unfold allCards. room_norm. rewrite hands_push by (by rewrite Hp). rewrite Hp.
    rewrite !app_assoc, <- (app_assoc (Room.deck room1 ++ _)).
    rewrite (Permutation_app_comm _ cs), !app_assoc, <- (app_assoc (Room.deck room1)).
    by rewrite HP, <- app_assoc.
  - room_norm. by rewrite Hst.
Qed.

Lemma keeps_forcedDraw env n room room' b evs :
  forcedDraw env n room = Ok (room', b, evs) → keeps room room'.
Proof.
  unfold forcedDraw. room_norm. intros H.
  destruct (index _ _) as [nextPlayer|] eqn:Hi; [|done]. unbind.
  destruct (drawCards env 0 _ n) as [[[room1 cs] k1]|] eqn:Hdraw; [|done].
  simplify_eq.
  pose proof (drawCards_same_table _ _ _ _ _ _ _ Hdraw) as (_ & _ & Hcur & _).
  room_norm. rewrite Hcur.
  eapply keeps_trans; [|eapply keeps_draw; [exact Hdraw|by room_norm]].
  by repeat split.
Qed.

Lemma keeps_handleSpecialCards env card room room' b evs :
  handleSpecialCards env card room = Ok (room', b, evs) → keeps room room'.
Proof.
  unfold handleSpecialCards. intros H.
  repeat case_match; simplify_eq; eauto using keeps_forcedDraw, keeps_refl.
  by repeat split.
Qed.

Lemma keeps_moveToNextPlayer b room : keeps room (moveToNextPlayer b room).
Proof. destruct b; by repeat split. Qed.

Lemma keeps_unoLogic code i player hand room w room' w' evs :
  unoLogic code i player hand room w = (room', w', evs) → keeps room room'.
Proof.
  unfold unoLogic, setTimeout. intros H.
  repeat case_match; simplify_eq; auto using keeps_refl. by apply keeps_flags.
Qed.

Lemma keeps_play i player k card room :
  index (Room.players room) i = Some player →
  Player.cards player !! k = Some card →
  keeps room
    (Room.set_discardPile (Room.discardPile room ++ [card])
       (Room.update_player i (Player.set_cards (delete k (Player.cards player))) room)).
Proof.
  intros Hi Hk. split; [done|]. split; [by apply seating_update|]. split; [|done].
  unfold allCards. room_norm.
  pose proof (hands_update (Player.set_cards (delete k (Player.cards player))) _ _ _ Hi) as H.
  cbn [Player.cards Player.set_cards] in H.
  apply (Permutation_app_inv_r (Player.cards player)).
  rewrite <- !app_assoc, H. rewrite (delete_Permutation _ _ _ Hk) at 2. solve_Permutation.
Qed.

Lemma keeps_playAccepted env code i player k card chosen room w w' evs :
  index (Room.players room) i = Some player →
  Player.cards player !! k = Some card →
  playAccepted env code i player k card chosen room w = Ok (w', evs) →
  ∃ room', rooms w' = <[code := room']> (rooms w) ∧ roomCode w' = roomCode w ∧
           keeps room room'.
Proof.
  intros Hi Hk. unfold playAccepted.
  pose proof (keeps_play i player k card room Hi Hk) as K0.
  set (room0 := Room.set_discardPile _ _) in *.
  assert (K1 : keeps room (Room.set_chosenColor (or_null chosen) room0)).
  { eapply keeps_trans; [exact K0|]. by repeat split. }
  set (room1 := Room.set_chosenColor _ _) in *.
  destruct (Nat.eqb _ 0).
  - intros [= <- <-]. eexists. split; [done|]. split; [done|].
    eapply keeps_trans; [exact K1|]. split; [done|]. split; [|split; [|done]].
    + room_norm. unfold seating. by rewrite <- list_fmap_compose.
    + unfold allCards. room_norm. by rewrite <- list_fmap_compose.
  - destruct (unoLogic _ _ _ _ room1 w) as [[room2 w2] evs1] eqn:Huno.
    pose proof (keeps_unoLogic _ _ _ _ _ _ _ _ _ Huno) as K2.
    apply unoLogic_frame in Huno as (_ & Hrooms & Hcodes).
    unbind. intros H.
    destruct (handleSpecialCards _ _ _) as [[[room3 b] evs2]|] eqn:Hsp; [|done].
    pose proof (keeps_handleSpecialCards _ _ _ _ _ _ Hsp) as K3.
    destruct (emitToPlayers _ _) as [evs3|]; [|done]. simplify_eq.
    eexists. room_norm. rewrite Hrooms, Hcodes. split; [done|]. split; [done|].
    eapply keeps_trans; [exact K1|]. eapply keeps_trans; [exact K2|].
    eapply keeps_trans; [|eapply keeps_trans; [exact K3|apply keeps_moveToNextPlayer]].
    by apply keeps_flags.
Qed.

Lemma frame_same w : ∀ c, option_Forall2 keeps (rooms w !! c) (rooms w !! c).
Proof.
  intros c. destruct (rooms w !! c); constructor. apply keeps_refl.
Qed.

Lemma frame_insert w (rs : gmap string Room.t) code room room' :
  rooms w !! code = Some room → rs = <[code := room']> (rooms w) → keeps room room' →
  ∀ c, option_Forall2 keeps (rooms w !! c) (rs !! c).
Proof.
  intros Hr -> K c. destruct (decide (c = code)) as [->|Hc].
  - rewrite lookup_insert_eq, Hr. by constructor.
  - rewrite lookup_insert_ne by done. apply frame_same.
Qed.

Lemma playCard_keeps env sid cardId chosen w w' evs :
  playCard env sid cardId chosen w = Ok (w', evs) →
  roomCode w' = roomCode w ∧ ∀ c, option_Forall2 keeps (rooms w !! c) (rooms w' !! c).
Proof.
  intros H.
  destruct (playCard_dichotomy _ _ _ _ _ _ _ H) as [(code&room&player&k&card&Hacc)|[-> _]].
  2:{ split; [done|]. apply frame_same. }
  rewrite (playCard_accepted _ _ _ _ _ _ _ _ _ _ Hacc) in H.
  destruct Hacc as [Hs Hr Hst Ht Hp Hc Hl].
  apply list_find_Some in Hc as (Hk & _).
  destruct (keeps_playAccepted _ _ _ _ _ _ _ _ _ _ _ Hp Hk H) as (room' & Hrooms & Hcodes & K).
  split; [done|]. by eapply frame_insert.
Qed.

Lemma drawCard_keeps env sid w w' evs :
  drawCard env sid w = Ok (w', evs) →
  roomCode w' = roomCode w ∧ ∀ c, option_Forall2 keeps (rooms w !! c) (rooms w' !! c).
Proof.
  unfold drawCard. intros H.
  destruct (roomCode w !! sid) as [code|]; [|simplify_eq; split; [done|apply frame_same]].
  destruct (rooms w !! code) as [room|] eqn:Hr;
    [|simplify_eq; split; [done|apply frame_same]].
  destruct (negb _); [simplify_eq; split; [done|apply frame_same]|].
  destruct (negb _); [simplify_eq; split; [done|apply frame_same]|].
  unbind. destruct (drawCards env 0 room 1) as [[[room1 cs] k1]|] eqn:Hdraw; [|done].
  pose proof (drawCards_same_table _ _ _ _ _ _ _ Hdraw) as (_ & Hp & _).
  destruct (index _ _) as [p|] eqn:Hi; [|done]. rewrite Hp in Hi.
  pose proof (keeps_draw _ _ _ _ _ _ _ _ Hdraw (mk_is_Some _ _ Hi)) as K.
  set (room2 := Room.update_player _ _ room1) in *.
  destruct (match cs with [] => _ | _ => _ end) as [[]|]; [| |done].
  - simplify_eq. split; [done|]. by eapply frame_insert.
  - destruct (emitToPlayers _ _); [|done]. simplify_eq. split; [done|].
    eapply frame_insert; [done|done|]. eapply keeps_trans; [exact K|]. by repeat split.
Qed.

Lemma sayUno_keeps sid w w' evs :
  sayUno sid w = Ok (w', evs) →
  roomCode w' = roomCode w ∧ ∀ c, option_Forall2 keeps (rooms w !! c) (rooms w' !! c).
Proof.
  unfold sayUno, clearTimeout. intros H.
  destruct (roomCode w !! sid) as [code|]; [|simplify_eq; split; [done|apply frame_same]].
  destruct (rooms w !! code) as [room|] eqn:Hr;
    [|simplify_eq; split; [done|apply frame_same]].
  destruct (negb _); [simplify_eq; split; [done|apply frame_same]|].
  destruct (list_find _ _) as [[i player]|]; [|simplify_eq; split; [done|apply frame_same]].
  destruct (Nat.leb _ 2); [|simplify_eq; split; [done|apply frame_same]].
  assert (K1 : keeps room (Room.update_player (Z.of_nat i) (Player.set_saidUno true) room))
    by (by apply keeps_flags).
  destruct (Player.canBeCaught player); [destruct (Player.catchTimeout player)|];
    simplify_eq; (split; [done|]); (eapply frame_insert; [done|done|]); try done.
  - eapply keeps_trans; [exact K1|]. eapply keeps_trans; by apply keeps_flags.
  - eapply keeps_trans; [exact K1|]. by apply keeps_flags.
Qed.

Lemma catchUno_keeps env sid tid w w' evs :
  catchUno env sid tid w = Ok (w', evs) →
  roomCode w' = roomCode w ∧ ∀ c, option_Forall2 keeps (rooms w !! c) (rooms w' !! c).
Proof.
  unfold catchUno, clearTimeout. intros H.
  destruct (roomCode w !! sid) as [code|]; [|simplify_eq; split; [done|apply frame_same]].
  destruct (rooms w !! code) as [room|] eqn:Hr;
    [|simplify_eq; split; [done|apply frame_same]].
  destruct (negb _); [simplify_eq; split; [done|apply frame_same]|].
  destruct (find _ _) as [catcher|]; [|simplify_eq; split; [done|apply frame_same]].
  destruct (list_find _ _) as [[i target]|] eqn:Hf;
    [|simplify_eq; split; [done|apply frame_same]].
  destruct (decide _); [simplify_eq; split; [done|apply frame_same]|].
  destruct (_ && _)%bool; [|simplify_eq; split; [done|apply frame_same]].
  apply list_find_Some in Hf as (Hi & _).
  set (room1 := Room.update_player (Z.of_nat i) (Player.set_canBeCaught false) room) in *.
  assert (K1 : keeps room room1) by (by apply keeps_flags).
  assert (Htail : ∀ room2 (w2 : World),
    keeps room room2 → rooms w2 = rooms w → roomCode w2 = roomCode w →
    length (Room.players room2) = length (Room.players room) →
    ('(room, penaltyCards, _) ← drawCards env 0 room2 2;
     let room := Room.update_player (Z.of_nat i) (Player.push_cards penaltyCards) room in
     evs ← emitToPlayers "gameState" room;
     Ok (set_rooms (<[code := room]> (rooms w2)) w2,
         [Emit (ToRoom code) "unoCaught" None;
          Emit (ToSocket (Player.id target)) "cardsDrawn" None] ++ evs)) = Ok (w', evs) →
    roomCode w' = roomCode w ∧ ∀ c, option_Forall2 keeps (rooms w !! c) (rooms w' !! c)).
  { intros room2 w2 K2 Hrooms Hcodes Hlen Ht. unbind.
    destruct (drawCards env 0 room2 2) as [[[room3 cs] k3]|] eqn:Hdraw; [|done].
    destruct (emitToPlayers _ _); [|done]. simplify_eq. room_norm.
    rewrite Hrooms, Hcodes. split; [done|]. eapply frame_insert; [done|done|].
    eapply keeps_trans; [exact K2|]. eapply keeps_draw; [exact Hdraw|].
    apply index_is_Some. rewrite Hlen. apply lookup_lt_Some in Hi. lia. }
  destruct (Player.catchTimeout target) as [h0|].
  - eapply Htail; [| | | |exact H]; try done.
    + eapply keeps_trans; [exact K1|]. by apply keeps_flags.
    + subst room1. room_norm. by rewrite !update_length.
  - eapply Htail; [| | | |exact H]; try done.
    subst room1. room_norm. by rewrite !update_length.
Qed.

Lemma catchTimeoutFires_keeps h w w' evs :
  catchTimeoutFires h w = Ok (w', evs) →
  roomCode w' = roomCode w ∧ ∀ c, option_Forall2 keeps (rooms w !! c) (rooms w' !! c).
Proof.
  unfold catchTimeoutFires. intros H.
  destruct (timers w !! h) as [o|]; simplify_eq; (split; [done|]); [|apply frame_same].
  intros c. room_norm. rewrite lookup_fmap.
  destruct (rooms w !! c) as [room|]; constructor.
  split; [done|]. split; [|split; [|done]].
  - room_norm. unfold seating. rewrite <- list_fmap_compose. apply list_fmap_ext.
    intros _ p _. simpl. by destruct (decide _).
  - unfold allCards. room_norm. rewrite <- list_fmap_compose.
    erewrite (list_fmap_ext _ Player.cards); [done|].
    intros _ p _. simpl. by destruct (decide _).
Qed.

(** X12.  The actions of a game in progress ([playCard], [drawCard],
    [sayUno], [catchUno] and the timer of a forgotten UNO) make and lose no
    card and no player: in every room the same player objects are seated in
    the same order, with the same names and the same host, and the cards of
    the deck, the discard pile and the hands are together the same cards as
    before.  No room is added, removed or started, and no socket changes its
    room. *)
Theorem game_actions_keep_cards_and_seats env a w w' evs :
  inGame a = true →
  step env a w = Ok (w', evs) →
  roomCode w' = roomCode w ∧
  ∀ code, option_Forall2 keeps (rooms w !! code) (rooms w' !! code).
Proof.
  intros Ha Hstep. destruct a; try discriminate Ha; cbn [step] in Hstep.
  - by eapply playCard_keeps.
  - by eapply drawCard_keeps.
  - by eapply sayUno_keeps.
  - by eapply catchUno_keeps.
  - by eapply catchTimeoutFires_keeps.
Qed.

(** The witness of X12: the draw-two of the first player of [table4]. *)
Lemma game_actions_keep_cards_and_seats_witness :
  inGame (PlayCard "s1" "a1" None) = true ∧
  ∃ w' evs,
    step env0 (PlayCard "s1" "a1" None) (table4 0) = Ok (w', evs) ∧
    ∀ code, option_Forall2 keeps (rooms (table4 0) !! code) (rooms w' !! code).
Proof.
  split; [reflexivity|].
  destruct (step env0 (PlayCard "s1" "a1" None) (table4 0)) as [[w' evs]|f] eqn:Hstep.
  - exists w', evs. split; [reflexivity|].
    exact (proj2 (game_actions_keep_cards_and_seats env0 (PlayCard "s1" "a1" None)
                    (table4 0) w' evs eq_refl Hstep)).
  - exfalso. vm_compute in Hstep. discriminate Hstep.
Defined.

(** ** The players of a room *)

Lemma seating_length ps ps' : seating ps' = seating ps → length ps' = length ps.
Proof.
  unfold seating. intros H. apply (f_equal length) in H. by rewrite !length_fmap in H.
Qed.

Lemma hosts_seating ps : hosts ps = length (filter (λ s, s.2 = true) (seating ps)).
Proof.
  unfold hosts, seating. induction ps as [|p ps IH]; [done|].
  rewrite fmap_cons, !filter_cons. simpl.
  destruct (decide (Player.isHost p = true)); simpl; [f_equal|]; exact IH.
Qed.

Lemma roster_ok_keeps room room' : keeps room room' → roster_ok room → roster_ok room'.
Proof.
  intros (_ & Hs & _ & Hst) (Hn & Hh & Hg).
  pose proof (seating_length _ _ Hs) as Hlen.
  split; [by rewrite Hlen|]. split; [by rewrite hosts_seating, Hs, <- hosts_seating|].
  intros H. rewrite Hlen. auto.
Qed.

Lemma hosts_delete ps (i : nat) p :
  ps !! i = Some p →
  hosts ps = ((if Player.isHost p then 1 else 0) + hosts (delete i ps))%nat.
Proof.
  intros Hi. unfold hosts. rewrite (delete_Permutation _ _ _ Hi) at 1.
  rewrite filter_cons. destruct (Player.isHost p) eqn:E.
  - by rewrite decide_True.
  - rewrite decide_False; [done|]. simpl. congruence.
Qed.

Lemma hosts_promote p ps :
  hosts (p :: ps) = 0%nat → hosts (update 0 (Player.set_isHost true) (p :: ps)) = 1%nat.
Proof.
  unfold hosts, update. change (0 <? 0) with false. change (Z.to_nat 0) with 0%nat.
  cbn [alter list_alter]. intros H0. rewrite filter_cons in H0 |- *.
  rewrite decide_True by reflexivity.
  destruct (decide (Player.isHost p = true)); [done|]. simpl. by rewrite H0.
Qed.

Lemma dealLoop_seating env n : ∀ k room i room' k',
  dealLoop env k room i n = Ok (room', k') →
  seating (Room.players room') = seating (Room.players room).
Proof.
  induction n as [|n IH]; intros k room i room' k' H; cbn [dealLoop] in H.
  { by simplify_eq. }
  unbind. destruct (drawCards env k room 7) as [[[room1 cs] k1]|] eqn:Hd; [|done].
  apply drawCards_same_table in Hd as (_&Hp&_).
  apply IH in H. room_norm. by rewrite H, seating_update, Hp.
Qed.

Lemma createRoom_roster env sid name w w' evs :
  (∀ c r, rooms w !! c = Some r → roster_ok r) →
  createRoom env sid name w = Ok (w', evs) →
  ∀ c r, rooms w' !! c = Some r → roster_ok r.
Proof.
  unfold createRoom. intros Hw H c r. simplify_eq. room_norm.
  destruct (decide (c = generateRoomCode env)) as [->|Hc].
  - rewrite lookup_insert_eq. intros [= <-]. split; [simpl; lia|]. by split.
  - rewrite lookup_insert_ne by done. apply Hw.
Qed.

Lemma joinRoom_roster sid code name w w' evs :
  (∀ c r, rooms w !! c = Some r → roster_ok r) →
  joinRoom sid code name w = Ok (w', evs) →
  ∀ c r, rooms w' !! c = Some r → roster_ok r.
Proof.
  unfold joinRoom. intros Hw H.
  destruct (rooms w !! toUpperCase code) as [room|] eqn:Hr; [|by simplify_eq].
  destruct (Room.gameStarted room) eqn:Hst; [by simplify_eq|].
  destruct (Nat.leb_spec 10 (length (Room.players room))); simplify_eq; [done|].
  intros c r. room_norm.
  destruct (decide (c = toUpperCase code)) as [->|Hc].
  - rewrite lookup_insert_eq. intros [= <-].
    destruct (Hw _ _ Hr) as (Hn & Hh & _).
    split; [room_norm; rewrite length_app; simpl; lia|]. split.
    + room_norm. unfold hosts in *. rewrite filter_app, length_app, Hh. done.
    + room_norm. by rewrite Hst.
  - rewrite lookup_insert_ne by done. apply Hw.
Qed.

Lemma startGame_roster env sid w w' evs :
  (∀ c r, rooms w !! c = Some r → roster_ok r) →
  startGame env sid w = Ok (w', evs) →
  ∀ c r, rooms w' !! c = Some r → roster_ok r.
Proof.
  unfold startGame. intros Hw H.
  destruct (roomCode w !! sid) as [code|]; [|by simplify_eq].
  destruct (rooms w !! code) as [room|] eqn:Hr; [|by simplify_eq].
  destruct (find _ _) as [player|]; [|by simplify_eq].
  destruct (negb (Player.isHost player)); [by simplify_eq|].
  destruct (Nat.ltb_spec (length (Room.players room)) 2) as [|Hn]; [by simplify_eq|].
  destruct (createDeck env) as [deck k].
  unbind. room_norm.
  destruct (dealLoop _ _ _ _ _) as [[room1 k1]|] eqn:Hdeal; [|done].
  apply dealLoop_seating in Hdeal. room_norm.
  destruct (firstCardLoop _ _) as [[firstCard deck1]|]; [|done].
  set (room2 := Room.set_discardPile _ (Room.set_deck deck1 room1)) in H.
  match type of H with
  | match ?special with _ => _ end = _ =>
    assert (∀ room3, special = Ok room3 →
              seating (Room.players room3) = seating (Room.players room)) as Hok
  end.
  { intros room3 H3. repeat case_match; simplify_eq; try done.
    match goal with
    | H : drawCards _ _ _ _ = Ok _ |- _ =>
      apply drawCards_same_table in H as (_&Hp&_)
    end.
    room_norm. by rewrite seating_update, Hp. }
  destruct (if String.eqb (Card.value firstCard) "skip" then _ else _) as [room3|]; [|done].
  specialize (Hok room3 eq_refl).
  destruct (emitToPlayers _ _); simplify_eq.
  intros c r. room_norm. destruct (decide (c = code)) as [->|Hc].
  - rewrite lookup_insert_eq. intros [= <-].
    destruct (Hw _ _ Hr) as (Hn' & Hh & _). pose proof (seating_length _ _ Hok) as Hlen.
    split; [by rewrite Hlen|]. split; [by rewrite hosts_seating, Hok, <- hosts_seating|].
    intros _. by rewrite Hlen.
  - rewrite lookup_insert_ne by done. apply Hw.
Qed.

Lemma disconnect_roster sid w w' evs :
  (∀ c r, rooms w !! c = Some r → roster_ok r) →
  disconnect sid w = Ok (w', evs) →
  ∀ c r, rooms w' !! c = Some r → roster_ok r.
Proof.
  unfold disconnect. intros Hw H.
  destruct (roomCode w !! sid) as [code|]; [|by simplify_eq].
  destruct (String.eqb code ""); [by simplify_eq|].
  destruct (rooms w !! code) as [room|] eqn:Hr; [|by simplify_eq].
  destruct (list_find _ _) as [[i player]|] eqn:Hf; [|by simplify_eq].
  apply list_find_Some in Hf as (Hi & _).
  destruct (Hw _ _ Hr) as (Hn & Hh & Hg).
  pose proof (hosts_delete _ _ _ Hi) as Hd. rewrite Hh in Hd.
  pose proof (length_delete (Room.players room) i (mk_is_Some _ _ Hi)) as Hlen.
  room_norm.
  destruct (Nat.eqb_spec (length (delete i (Room.players room))) 0) as [Hz|Hnz].
  { simplify_eq. intros c r. room_norm. intros Hc.
    apply lookup_delete_Some in Hc as [_ Hc]. by eapply Hw. }
  set (room1 := if (Player.isHost player && _)%bool then _ else _) in H.
  assert (R1 : length (Room.players room1) = length (delete i (Room.players room)) ∧
               hosts (Room.players room1) = 1%nat ∧
               Room.gameStarted room1 = Room.gameStarted room).
  { subst room1. destruct (Player.isHost player).
    - destruct (Nat.ltb_spec 0 (length (delete i (Room.players room)))); [|lia].
      cbn [andb]. room_norm. rewrite update_length. split; [done|]. split; [|done].
      destruct (delete i (Room.players room)) as [|q qs]; [done|].
      apply hosts_promote. lia.
    - cbn [andb]. room_norm. split; [done|]. split; [lia|done]. }
  destruct R1 as (L1 & H1 & G1). clearbody room1.
  set (room2 := if (Room.gameStarted room1 && _)%bool then _ else _) in H.
  assert (R2 : Room.players room2 = Room.players room1 ∧
               Room.gameStarted room2 = Room.gameStarted room1).
  { subst room2. by destruct (Room.gameStarted room1 && _)%bool. }
  destruct R2 as (P2 & G2). clearbody room2.
  assert (Hfin : ∀ room3,
    Room.players room3 = Room.players room2 →
    (Room.gameStarted room3 = true → (2 ≤ length (Room.players room2))%nat) →
    roster_ok room3).
  { intros room3 P3 G3. rewrite P2 in *. split; [rewrite P3, L1; lia|].
    split; [by rewrite P3|]. by rewrite P3. }
  destruct (Room.gameStarted room2) eqn:G2'; cbn [andb] in H.
  - destruct (Nat.ltb_spec (length (Room.players room2)) 2); simplify_eq;
      intros c r; room_norm; (destruct (decide (c = code)) as [->|Hc];
        [rewrite lookup_insert_eq; intros [= <-]; apply Hfin; [done|room_norm; done]
        |rewrite lookup_insert_ne by done; apply Hw]).
  - simplify_eq. intros c r; room_norm. destruct (decide (c = code)) as [->|Hc].
    + rewrite lookup_insert_eq. intros [= <-]. apply Hfin; [done|]. by rewrite G2'.
    + rewrite lookup_insert_ne by done. apply Hw.
Qed.

Lemma step_roster env a w w' evs :
  (∀ c r, rooms w !! c = Some r → roster_ok r) →
  step env a w = Ok (w', evs) →
  ∀ c r, rooms w' !! c = Some r → roster_ok r.
Proof.
  intros Hw Hstep.
  assert (Hgame : inGame a = true → ∀ c r, rooms w' !! c = Some r → roster_ok r).
  { intros Ha c r Hc.
    assert (roomCode w' = roomCode w ∧
            ∀ code, option_Forall2 keeps (rooms w !! code) (rooms w' !! code)) as [_ K].
    { destruct a; try discriminate Ha; cbn [step] in Hstep;
        eauto using playCard_keeps, drawCard_keeps, sayUno_keeps, catchUno_keeps,
          catchTimeoutFires_keeps. }
    specialize (K c). rewrite Hc in K. inversion K as [r0 ? K0 Hr0|]; subst.
    eapply roster_ok_keeps; [exact K0|]. by eapply Hw. }
  destruct a; cbn [step] in Hstep; try (by apply Hgame).
  - by eapply createRoom_roster.
  - by eapply joinRoom_roster.
  - by eapply startGame_roster.
  - by eapply disconnect_roster.
Qed.

Lemma reachable_roster w : reachable w → ∀ c r, rooms w !! c = Some r → roster_ok r.
Proof.
  induction 1 as [|env a w w' evs _ IH Hstep]; [done|]. by eapply step_roster.
Qed.

(** X13.  In every state that the server reaches, every room of the registry
    has at least one player and at most ten, exactly one of them is the host,
    and a room whose game is on has at least two players. *)
Theorem reachable_rooms_have_host w code room :
  reachable w → rooms w !! code = Some room →
  (1 ≤ length (Room.players room) ≤ 10)%nat ∧
  hosts (Room.players room) = 1%nat ∧
  (Room.gameStarted room = true → (2 ≤ length (Room.players room))%nat).
Proof.
  intros Hw Hr. destruct (reachable_roster w Hw code room Hr) as (Hn & Hh & Hg).
  split; [exact Hn|]. split; [exact Hh|exact Hg].
Qed.

(** The witness of X13: the room of [soloLobby]. *)
Lemma reachable_rooms_have_host_witness :
  reachable soloLobby ∧
  rooms soloLobby !! "AAAAAA" =
    Some (Room.mk "AAAAAA" [newPlayer 0 "s1" "p1" true] [] [] 0 1 None false None) ∧
  hosts [newPlayer 0 "s1" "p1" true] = 1%nat.
Proof.
  assert (Hw : reachable soloLobby).
  { apply (run_reachable env0 [CreateRoom "s1" "p1"] initial); [constructor|].
    vm_compute. reflexivity. }
  assert (Hr : rooms soloLobby !! "AAAAAA" =
    Some (Room.mk "AAAAAA" [newPlayer 0 "s1" "p1" true] [] [] 0 1 None false None)).
  { vm_compute. reflexivity. }
  split; [exact Hw|]. split; [exact Hr|].
  exact (proj1 (proj2 (reachable_rooms_have_host soloLobby "AAAAAA" _ Hw Hr))).
Defined.

(** ** Forgotten and said UNO *)

Lemma status_update i f ps :
  (∀ p, status (f p) = status p) → status <$> update i f ps = status <$> ps.
Proof.
  intros Hf. unfold update. destruct (Z.ltb i 0); [done|].
  rewrite (list_fmap_alter status f (λ x, x)) by (by apply Forall_forall).
  by apply list_alter_id.
Qed.

Lemma status_index ps ps' i p :
  status <$> ps' = status <$> ps → index ps i = Some p →
  ∃ p', index ps' i = Some p' ∧ status p' = status p.
Proof.
  intros Hst Hp. assert (index (status <$> ps') i = Some (status p)) as H.
  { rewrite Hst, index_fmap, Hp. reflexivity. }
  rewrite index_fmap in H. destruct (index ps' i) as [p'|]; [|done].
  exists p'. split; [done|]. simpl in H. congruence.
Qed.

Lemma forcedDraw_status env n room room' b evs :
  forcedDraw env n room = Ok (room', b, evs) →
  status <$> Room.players room' = status <$> Room.players room.
Proof.
  unfold forcedDraw. room_norm. intros H.
  destruct (index _ _) as [nextPlayer|]; [|done]. unbind.
  destruct (drawCards env 0 _ n) as [[[room1 cs] k1]|] eqn:Hdraw; [|done].
  simplify_eq. apply drawCards_same_table in Hdraw as (_ & Hp & _).
  room_norm. by rewrite status_update, Hp.
Qed.

Lemma handleSpecialCards_status env card room room' b evs :
  handleSpecialCards env card room = Ok (room', b, evs) →
  status <$> Room.players room' = status <$> Room.players room.
Proof.
  unfold handleSpecialCards. intros H.
  repeat case_match; simplify_eq; eauto using forcedDraw_status.
Qed.

Lemma moveToNextPlayer_players b room :
  Room.players (moveToNextPlayer b room) = Room.players room.
Proof. by destruct b. Qed.

(** The UNO state in which a play that leaves one card in the hand leaves the
    player who played. *)
Lemma playAccepted_status env code i player k card chosen room w w' evs :
  playAccepted env code i player k card chosen room w = Ok (w', evs) →
  index (Room.players room) i = Some player →
  length (delete k (Player.cards player)) = 1%nat →
  ∃ room' p' evs',
    rooms w' = <[code := room']> (rooms w) ∧
    index (Room.players room') i = Some p' ∧
    if Player.saidUno player then
      status p' = status (Player.set_saidUno false player) ∧
      timers w' = timers w ∧ evs = Emit (ToRoom code) "unoSafe" None :: evs'
    else
      status p' =
        status (Player.set_saidUno false
                  (Player.set_catchTimeout (Some (nextTimer w))
                     (Player.set_canBeCaught true player))) ∧
      timers w' = <[nextTimer w := Player.oid player]> (timers w) ∧
      evs = Emit (ToRoom code) "unoForgotten" None :: evs'.
Proof.
  unfold playAccepted, unoLogic, setTimeout. intros H Hi H1. rewrite H1 in H.
  cbn [Nat.eqb] in H.
  destruct (Player.saidUno player) eqn:Hsaid; cbn [negb] in H; unbind.
  - destruct (handleSpecialCards _ _ _) as [[[room3 b] evs2]|] eqn:Hsp; [|done].
    destruct (emitToPlayers _ _) as [evs3|]; [|done]. simplify_eq.
    apply handleSpecialCards_status in Hsp. room_norm.
    assert (∃ p', index (Room.players (moveToNextPlayer b room3)) i = Some p' ∧
              status p' = status (Player.set_saidUno false
                (Player.set_cards (delete k (Player.cards player)) player)))
      as (p' & Hp' & Hst).
    { eapply status_index; [rewrite moveToNextPlayer_players; exact Hsp|].
      rewrite !index_update_eq, Hi. reflexivity. }
    eexists _, p', _. split; [done|]. split; [done|]. split; [|done]. by rewrite Hst.
  - destruct (handleSpecialCards _ _ _) as [[[room3 b] evs2]|] eqn:Hsp; [|done].
    destruct (emitToPlayers _ _) as [evs3|]; [|done]. simplify_eq.
    apply handleSpecialCards_status in Hsp. room_norm.
    assert (∃ p', index (Room.players (moveToNextPlayer b room3)) i = Some p' ∧
              status p' = status (Player.set_saidUno false
                (Player.set_catchTimeout (Some (nextTimer w))
                   (Player.set_canBeCaught true
                      (Player.set_cards (delete k (Player.cards player)) player)))))
      as (p' & Hp' & Hst).
    { eapply status_index; [rewrite moveToNextPlayer_players; exact Hsp|].
      rewrite !index_update_eq, Hi. reflexivity. }
    eexists _, p', _. split; [done|]. split; [done|]. split; [|done]. by rewrite Hst.
Qed.

Lemma accepted_find sid cardId w code room player k card :
  accepted sid cardId w code room player k card →
  ∃ i, Room.currentPlayerIndex room = Z.of_nat i ∧
       list_find (λ p, Player.id p = sid) (Room.players room) = Some (i, player).
Proof.
  intros [_ _ _ Ht Hp _ _]. unfold findIndex in Ht.
  destruct (list_find _ _) as [[i p]|] eqn:Hf.
  - exists i. split; [done|]. rewrite <- Ht in Hp. apply index_Some in Hp as [_ Hp].
    rewrite Nat2Z.id in Hp. apply list_find_Some in Hf as (Hi & _). congruence.
  - rewrite <- Ht in Hp. done.
Qed.

(** X14.  A player who plays the last but one card without having said UNO
    becomes vulnerable: the play goes through, ['unoForgotten'] is sent to
    the room, the player's [canBeCaught] flag is set, and a timer for that
    player is started whose handle is kept in the player's [catchTimeout]. *)
Theorem forgotten_uno_makes_vulnerable env sid cardId chosen w code room player k card :
  accepted sid cardId w code room player k card →
  direction_ok room →
  length (Player.cards player) = 2%nat →
  Player.saidUno player = false →
  ∃ w' room' p' evs',
    playCard env sid cardId chosen w =
      Ok (w', Emit (ToRoom code) "unoForgotten" None :: evs') ∧
    rooms w' = <[code := room']> (rooms w) ∧
    index (Room.players room') (Room.currentPlayerIndex room) = Some p' ∧
    who p' = who player ∧
    Player.canBeCaught p' = true ∧
    Player.catchTimeout p' = Some (nextTimer w) ∧
    timers w' = <[nextTimer w := Player.oid p']> (timers w) ∧
    Player.saidUno p' = false.
Proof.
  intros Hacc Hd H2 Hsaid.
  pose proof (acc_player _ _ _ _ _ _ _ _ Hacc) as Hp.
  pose proof (acc_card _ _ _ _ _ _ _ _ Hacc) as Hc.
  apply list_find_Some in Hc as (Hk & _).
  assert (H1 : length (delete k (Player.cards player)) = 1%nat).
  { rewrite length_delete by (by eexists). lia. }
  rewrite (playCard_accepted _ _ _ _ _ _ _ _ _ _ Hacc).
  destruct (playAccepted_continues env code player k card chosen room w Hp Hd)
    as (w' & room0 & evs & Hplay & _); [lia|].
  destruct (playAccepted_status _ _ _ _ _ _ _ _ _ _ _ Hplay Hp H1)
    as (room' & p' & evs' & Hrooms & Hp' & Hst).
  rewrite Hsaid in Hst. destruct Hst as (Hst & Htm & ->).
  exists w', room', p', evs'. split; [done|]. split; [done|]. split; [done|].
  unfold status, who in Hst. cbn in Hst. injection Hst; intros.
  unfold who. repeat split; congruence.
Qed.

Lemma endgame_accepts :
  accepted "s1" "a1" endgame "ROOM01" endgameRoom endgameS1 0 (Card.mk "red" "5" "a1").
Proof. split; vm_compute; reflexivity. Qed.

(** The witness of X14: the first player of [endgame] plays the red 5. *)
Lemma forgotten_uno_makes_vulnerable_witness :
  accepted "s1" "a1" endgame "ROOM01" endgameRoom endgameS1 0 (Card.mk "red" "5" "a1") ∧
  direction_ok endgameRoom ∧
  length (Player.cards endgameS1) = 2%nat ∧
  Player.saidUno endgameS1 = false ∧
  ∃ w' p' evs',
    playCard env0 "s1" "a1" None endgame =
      Ok (w', Emit (ToRoom "ROOM01") "unoForgotten" None :: evs') ∧
    Player.canBeCaught p' = true ∧
    Player.catchTimeout p' = Some 0%nat.
Proof.
  assert (Hd : direction_ok endgameRoom) by (by left).
  split; [exact endgame_accepts|]. split; [exact Hd|]. split; [reflexivity|].
  split; [reflexivity|].
  destruct (forgotten_uno_makes_vulnerable env0 "s1" "a1" None endgame "ROOM01" endgameRoom
              endgameS1 0 (Card.mk "red" "5" "a1") endgame_accepts Hd eq_refl eq_refl)
    as (w' & room' & p' & evs' & Hrun & _ & _ & _ & Hflag & Hh & _).
  exists w', p', evs'. split; [exact Hrun|]. split; [exact Hflag|exact Hh].
Defined.

Lemma update_twice {A} (f g : A → A) i (a : list A) :
  update i g (update i f a) = update i (g ∘ f) a.
Proof.
  unfold update. destruct (Z.ltb i 0); [done|]. apply list_alter_alter_eq.
Qed.

(** What [sayUno] does for a player with at most two cards. *)
Lemma sayUno_effect sid w code room i player :
  roomCode w !! sid = Some code →
  rooms w !! code = Some room →
  Room.gameStarted room = true →
  list_find (λ p, Player.id p = sid) (Room.players room) = Some (i, player) →
  (length (Player.cards player) ≤ 2)%nat →
  ∃ w1 p1,
    sayUno sid w = Ok (w1, [Emit (ToRoom code) "unoSaid" None]) ∧
    rooms w1 = <[code := Room.set_players (<[i := p1]> (Room.players room)) room]> (rooms w) ∧
    roomCode w1 = roomCode w ∧
    who p1 = who player ∧ Player.cards p1 = Player.cards player ∧
    Player.saidUno p1 = true ∧ Player.canBeCaught p1 = false ∧
    nextTimer w1 = nextTimer w ∧
    (∀ h o, timers w1 !! h = Some o → timers w !! h = Some o).
Proof.
  intros Hs Hr Hst Hf Hlen. unfold sayUno, clearTimeout. rewrite Hs, Hr, Hst, Hf.
  cbn [negb]. destruct (Nat.leb_spec (length (Player.cards player)) 2) as [_|]; [|lia].
  apply list_find_Some in Hf as (Hi & _).
  assert (Hup : ∀ f, Room.update_player (Z.of_nat i) f room
                     = Room.set_players (<[i := f player]> (Room.players room)) room).
  { intros f. unfold Room.update_player. by rewrite (update_insert _ _ _ _ Hi). }
  destruct (Player.canBeCaught player) eqn:Hflag;
    [destruct (Player.catchTimeout player) as [h|] eqn:Hh|].
  - eexists _, _. split; [reflexivity|]. unfold Room.update_player. room_norm.
    rewrite !update_twice, (update_insert _ _ _ _ Hi). split; [reflexivity|].
    repeat split. intros h' o Hl. apply lookup_delete_Some in Hl. tauto.
  - eexists _, _. split; [reflexivity|]. unfold Room.update_player. room_norm.
    rewrite !update_twice, (update_insert _ _ _ _ Hi). split; [reflexivity|].
    by repeat split.
  - eexists _, _. split; [reflexivity|]. rewrite Hup. split; [reflexivity|].
    by repeat split.
Qed.

(** X15.  A player who holds two cards, says UNO and then plays one of them
    is safe: [sayUno] answers ['unoSaid'], the play goes through and
    ['unoSafe'] is sent to the room, the player's [canBeCaught] flag is not
    set and no timer is started.  The play resets [saidUno]. *)
Theorem said_uno_then_play_is_safe env sid cardId chosen w code room player k card :
  accepted sid cardId w code room player k card →
  direction_ok room →
  length (Player.cards player) = 2%nat →
  ∃ w1 w2 room2 p2 evs',
    sayUno sid w = Ok (w1, [Emit (ToRoom code) "unoSaid" None]) ∧
    playCard env sid cardId chosen w1 =
      Ok (w2, Emit (ToRoom code) "unoSafe" None :: evs') ∧
    rooms w2 !! code = Some room2 ∧
    index (Room.players room2) (Room.currentPlayerIndex room) = Some p2 ∧
    who p2 = who player ∧
    Player.canBeCaught p2 = false ∧
    Player.saidUno p2 = false ∧
    timers w2 = timers w1.
Proof.
  intros Hacc Hd H2.
  destruct (accepted_find _ _ _ _ _ _ _ _ Hacc) as (i & Hcur & Hf).
  destruct Hacc as [Hs Hr Hst Ht Hp Hc Hl].
  destruct (sayUno_effect sid w code room i player Hs Hr Hst Hf)
    as (w1 & p1 & Hsay & Hrooms1 & Hcodes1 & Hwho & Hcards & Hsaid & Hflag & _ & _); [lia|].
  pose proof Hf as Hf'. apply list_find_Some in Hf' as (Hi & Hid & _).
  set (room1 := Room.set_players (<[i := p1]> (Room.players room)) room) in *.
  assert (Hids : ids (Room.players room1) = ids (Room.players room)).
  { subst room1. room_norm. apply (ids_insert _ _ _ _ Hi).
    unfold who in Hwho. congruence. }
  assert (Hp1 : index (Room.players room1) (Room.currentPlayerIndex room1) = Some p1).
  { subst room1. room_norm. rewrite Hcur. apply index_Some. split; [lia|].
    rewrite Nat2Z.id. apply list_lookup_insert_eq. by eapply lookup_lt_Some. }
  assert (Hacc1 : accepted sid cardId w1 code room1 p1 k card).
  { split.
    - by rewrite Hcodes1.
    - by rewrite Hrooms1, lookup_insert_eq.
    - done.
    - unfold findIndex.
      destruct (list_find_ids sid _ _ _ _ Hids Hf) as (p' & -> & _).
      subst room1. room_norm. done.
    - done.
    - by rewrite Hcards.
    - done. }
  assert (H1 : length (delete k (Player.cards p1)) = 1%nat).
  { apply list_find_Some in Hc as (Hk & _).
    rewrite Hcards, length_delete by (by eexists). lia. }
  pose proof (playCard_accepted env _ _ chosen _ _ _ _ _ _ Hacc1) as Hpc.
  destruct (playAccepted_continues env code p1 k card chosen room1 w1 Hp1 Hd)
    as (w2 & room0 & evs & Hplay & _); [lia|].
  destruct (playAccepted_status _ _ _ _ _ _ _ _ _ _ _ Hplay Hp1 H1)
    as (room2 & p2 & evs' & Hrooms2 & Hp2 & Hstat).
  rewrite Hsaid in Hstat. destruct Hstat as (Hstat & Htm & ->).
  exists w1, w2, room2, p2, evs'. split; [done|]. split; [by rewrite Hpc|].
  split; [by rewrite Hrooms2, lookup_insert_eq|]. split; [done|].
  unfold status, who in Hstat, Hwho |- *. cbn in Hstat. injection Hstat; intros.
  repeat split; congruence.
Qed.

(** The witness of X15: the first player of [endgame] says UNO and plays the red 5. *)
Lemma said_uno_then_play_is_safe_witness :
  accepted "s1" "a1" endgame "ROOM01" endgameRoom endgameS1 0 (Card.mk "red" "5" "a1") ∧
  direction_ok endgameRoom ∧
  length (Player.cards endgameS1) = 2%nat ∧
  ∃ w1 w2 p2 evs',
    sayUno "s1" endgame = Ok (w1, [Emit (ToRoom "ROOM01") "unoSaid" None]) ∧
    playCard env0 "s1" "a1" None w1 =
      Ok (w2, Emit (ToRoom "ROOM01") "unoSafe" None :: evs') ∧
    Player.canBeCaught p2 = false ∧
    timers w2 = timers w1.
Proof.
  assert (Hd : direction_ok endgameRoom) by (by left).
  split; [exact endgame_accepts|]. split; [exact Hd|]. split; [reflexivity|].
  destruct (said_uno_then_play_is_safe env0 "s1" "a1" None endgame "ROOM01" endgameRoom
              endgameS1 0 (Card.mk "red" "5" "a1") endgame_accepts Hd eq_refl)
    as (w1 & w2 & room2 & p2 & evs' & Hsay & Hplay & _ & _ & _ & Hflag & _ & Htm).
  exists w1, w2, p2, evs'. split; [exact Hsay|]. split; [exact Hplay|].
  split; [exact Hflag|exact Htm].
Defined.

(** ** Drawing a card *)

Lemma canPlayCard_top card top chosen :
  ∃ b, canPlayCard card (Some top) chosen = Some b.
Proof.
  unfold canPlayCard. destruct (String.eqb _ "wild"); [by eexists|].
  destruct (truthy chosen) eqn:Ht.
  - destruct chosen as [c|]; [|done]. simpl.
    destruct (String.eqb _ c); [by eexists|]. destruct (String.eqb _ _); by eexists.
  - simpl. destruct (String.eqb _ (Card.color top)); [by eexists|].
    destruct (String.eqb _ _); by eexists.
Qed.

Lemma drawCard_spec env sid w code room :
  roomCode w !! sid = Some code →
  rooms w !! code = Some room →
  Room.gameStarted room = true →
  findIndex (λ p, Player.id p = sid) (Room.players room) = Room.currentPlayerIndex room →
  room_ok room →
  ∃ w' room' drawn canPlay evs,
    drawCard env sid w = Ok (w', Emit (ToSocket sid) "cardDrawn" None :: evs) ∧
    rooms w' = <[code := room']> (rooms w) ∧
    length drawn = Nat.min 1 (available room) ∧
    Room.players room' =
      update (Room.currentPlayerIndex room) (Player.push_cards drawn) (Room.players room) ∧
    last (Room.discardPile room') = last (Room.discardPile room) ∧
    Room.direction room' = Room.direction room ∧
    match drawn with
    | [] => canPlay = false
    | c :: _ =>
      canPlayCard c (last (Room.discardPile room)) (Room.chosenColor room) = Some canPlay
    end ∧
    if canPlay then
      evs = [] ∧
      Room.currentPlayerIndex room' = Room.currentPlayerIndex room ∧
      Room.chosenColor room' = Room.chosenColor room
    else
      evs = (λ p, Emit (ToSocket (Player.id p)) "gameState" None) <$> Room.players room' ∧
      Room.currentPlayerIndex room' = getNextPlayer room ∧
      Room.chosenColor room' = None.
Proof.
  intros Hs Hr Hst Ht (Hd & Hok). destruct (Hok Hst) as (Hdisc & Hi).
  unfold drawCard. rewrite Hs, Hr, Hst, Ht, Z.eqb_refl. cbn [negb].
  destruct (drawCards_spec env 1 0 room Hdisc)
    as (room1 & cs & k1 & Hdraw & Hsame & Hlen & _ & Hne & Hlast).
  rewrite Hdraw. unbind.
  destruct Hsame as (Hc1 & Hp1 & Hi1 & Hd1 & Hcol1 & Hst1 & Hw1).
  destruct (index_is_Some (Room.players room1) (Room.currentPlayerIndex room))
    as [p Hp]; [by rewrite Hp1|]. rewrite Hp. room_norm.
  destruct (last (Room.discardPile room)) as [top|] eqn:Htop.
  2:{ by destruct (Room.discardPile room) using rev_ind; [|rewrite last_snoc in Htop]. }
  destruct cs as [|c cs].
  - set (roomF := Room.set_chosenColor None _).
    assert (HF : Room.players roomF
                 = update (Room.currentPlayerIndex room) (Player.push_cards [])
                     (Room.players room) ∧
                 Room.currentPlayerIndex roomF = getNextPlayer room ∧
                 last (Room.discardPile roomF) = Some top ∧
                 Room.direction roomF = Room.direction room ∧
                 Room.chosenColor roomF = None).
    { subst roomF. unfold getNextPlayer. room_norm.
      by rewrite update_length, Hp1, Hi1, Hd1, Hlast. }
    destruct HF as (F1 & F2 & F3 & F4 & F5). clearbody roomF.
    rewrite emitToPlayers_eq.
    2:{ rewrite F1, F2, update_length. rewrite getNextPlayer_next. by apply next_range. }
    exists (set_rooms (<[code := roomF]> (rooms w)) w), roomF, [], false.
    eexists. split; [reflexivity|]. by repeat split.
  - rewrite Hlast, Hcol1.
    destruct (canPlayCard_top c top (Room.chosenColor room)) as [[] Hcan]; rewrite Hcan.
    + set (roomF := Room.update_player _ _ _).
      exists (set_rooms (<[code := roomF]> (rooms w)) w), roomF, (c :: cs), true.
      eexists. split; [reflexivity|]. subst roomF. room_norm.
      rewrite Hp1, Hi1, Hd1, Hlast, Hcol1. by repeat split.
    + set (roomF := Room.set_chosenColor None _).
      assert (HF : Room.players roomF
                   = update (Room.currentPlayerIndex room) (Player.push_cards (c :: cs))
                       (Room.players room) ∧
                   Room.currentPlayerIndex roomF = getNextPlayer room ∧
                   last (Room.discardPile roomF) = Some top ∧
                   Room.direction roomF = Room.direction room ∧
                   Room.chosenColor roomF = None).
      { subst roomF. unfold getNextPlayer. room_norm.
        by rewrite update_length, Hp1, Hi1, Hd1, Hlast. }
      destruct HF as (F1 & F2 & F3 & F4 & F5). clearbody roomF.
      rewrite emitToPlayers_eq.
      2:{ rewrite F1, F2, update_length. rewrite getNextPlayer_next. by apply next_range. }
      exists (set_rooms (<[code := roomF]> (rooms w)) w), roomF, (c :: cs), false.
      eexists. split; [reflexivity|]. by repeat split.
Qed.

(** X16.  The player whose turn it is draws one card, or none when the deck
    and the discard pile below its top card are empty, and is sent
    ['cardDrawn'].  When the card drawn can be played on the top card the
    turn stays with the player and nothing else changes.  Otherwise, and when
    no card was drawn, the turn moves on by one player, the declared color
    is reset to [null], and every player is sent ['gameState']. *)
Theorem drawCard_outcome env sid w code room :
  roomCode w !! sid = Some code →
  rooms w !! code = Some room →
  Room.gameStarted room = true →
  findIndex (λ p, Player.id p = sid) (Room.players room) = Room.currentPlayerIndex room →
  room_ok room →
  ∃ w' room' drawn canPlay evs,
    drawCard env sid w = Ok (w', Emit (ToSocket sid) "cardDrawn" None :: evs) ∧
    rooms w' = <[code := room']> (rooms w) ∧
    length drawn = Nat.min 1 (available room) ∧
    Room.players room' =
      update (Room.currentPlayerIndex room) (Player.push_cards drawn) (Room.players room) ∧
    last (Room.discardPile room') = last (Room.discardPile room) ∧
    Room.direction room' = Room.direction room ∧
    match drawn with
    | [] => canPlay = false
    | c :: _ =>
      canPlayCard c (last (Room.discardPile room)) (Room.chosenColor room) = Some canPlay
    end ∧
    if canPlay then
      evs = [] ∧
      Room.currentPlayerIndex room' = Room.currentPlayerIndex room ∧
      Room.chosenColor room' = Room.chosenColor room
    else
      evs = (λ p, Emit (ToSocket (Player.id p)) "gameState" None) <$> Room.players room' ∧
      Room.currentPlayerIndex room' = getNextPlayer room ∧
      Room.chosenColor room' = None.
Proof.
  intros Hs Hr Hst Ht Hok.
  destruct (drawCard_spec env sid w code room Hs Hr Hst Ht Hok)
    as (w' & room' & drawn & canPlay & evs & H).
  by exists w', room', drawn, canPlay, evs.
Qed.

Lemma duelRoom_ok : room_ok duelRoom.
Proof. split; [by left|]. intros _. split; [done|]. simpl. lia. Qed.

(** The witness of X16: the first player of [duel] draws. *)
Lemma drawCard_outcome_witness :
  roomCode duel !! "s1" = Some "ROOM01" ∧
  rooms duel !! "ROOM01" = Some duelRoom ∧
  Room.gameStarted duelRoom = true ∧
  findIndex (λ p, Player.id p = "s1") (Room.players duelRoom)
    = Room.currentPlayerIndex duelRoom ∧
  room_ok duelRoom ∧
  ∃ w' room' (drawn : list Card.t) evs,
    drawCard env0 "s1" duel = Ok (w', Emit (ToSocket "s1") "cardDrawn" None :: evs) ∧
    rooms w' = <["ROOM01" := room']> (rooms duel) ∧
    length drawn = Nat.min 1 (available duelRoom).
Proof.
  assert (H1 : roomCode duel !! "s1" = Some "ROOM01") by (vm_compute; reflexivity).
  assert (H2 : rooms duel !! "ROOM01" = Some duelRoom) by (vm_compute; reflexivity).
  assert (H4 : findIndex (λ p, Player.id p = "s1") (Room.players duelRoom)
               = Room.currentPlayerIndex duelRoom) by (vm_compute; reflexivity).
  split; [exact H1|]. split; [exact H2|]. split; [reflexivity|]. split; [exact H4|].
  split; [exact duelRoom_ok|].
  destruct (drawCard_outcome env0 "s1" duel "ROOM01" duelRoom H1 H2 eq_refl H4 duelRoom_ok)
    as (w' & room' & drawn & canPlay & evs & Hrun & Hrooms & Hlen & _).
  exists w', room', drawn, evs. split; [exact Hrun|]. split; [exact Hrooms|exact Hlen].
Defined.


(** ** The end of the five seconds *)

(** X17.  When the timer of a player has fired, a catch of that player comes
    too late: the callback clears the player's [canBeCaught] flag, the timer
    is no longer pending, and [catchUno] is answered ['Too late! Player is
    safe now.'] and changes nothing. *)
Theorem catch_after_timer_is_too_late env sid tid w code room catcher i target h :
  catch_attempt sid tid w code room catcher i target →
  Player.id catcher ≠ Player.id target →
  timers w !! h = Some (Player.oid target) →
  ∃ w1,
    catchTimeoutFires h w = Ok (w1, []) ∧
    timers w1 = delete h (timers w) ∧
    catchUno env sid tid w1 = Ok (w1, [tooLate sid]).
Proof.
  intros [Hs Hr Hst Hc Ht] Hne Hh. unfold catchTimeoutFires. rewrite Hh.
  eexists. split; [reflexivity|]. split; [reflexivity|].
  set (expire := λ p : Player.t, if decide (Player.oid p = Player.oid target)
         then Player.set_catchTimeout None (Player.set_canBeCaught false p) else p).
  assert (Hid : ∀ p, Player.id (expire p) = Player.id p).
  { intros p. unfold expire. by destruct (decide _). }
  assert (Hfind : ∀ x, list_find (λ p, Player.id p = x) (expire <$> Room.players room)
                       = prod_map id expire <$>
                           list_find (λ p, Player.id p = x) (Room.players room)).
  { intros x. rewrite list_find_fmap. f_equal. apply list_find_ext.
    intros p. simpl. by rewrite Hid. }
  unfold catchUno. room_norm. rewrite Hs, lookup_fmap, Hr. cbn [fmap option_fmap option_map].
  room_norm. rewrite Hst. cbn [negb]. unfold find in *. rewrite !Hfind, Ht.
  destruct (list_find (λ p, Player.id p = sid) (Room.players room)) as [[j c]|]; [|done].
  cbn in Hc. injection Hc as ->. cbn [fmap option_fmap option_map prod_map fst snd id].
  rewrite !Hid. destruct (decide (Player.id catcher = Player.id target)); [done|].
  unfold expire at 1. rewrite decide_True by done. done.
Qed.

Lemma endgame1_attempt :
  catch_attempt "s2" "s1" endgame1 "ROOM01" endgame1Room endgameS2 0 vulnerableS1.
Proof. split; vm_compute; reflexivity. Qed.

(** The witness of X17: the timer of the first player of [endgame1]. *)
Lemma catch_after_timer_is_too_late_witness :
  catch_attempt "s2" "s1" endgame1 "ROOM01" endgame1Room endgameS2 0 vulnerableS1 ∧
  Player.id endgameS2 ≠ Player.id vulnerableS1 ∧
  timers endgame1 !! 0%nat = Some (Player.oid vulnerableS1) ∧
  ∃ w1,
    catchTimeoutFires 0 endgame1 = Ok (w1, []) ∧
    timers w1 = delete 0%nat (timers endgame1) ∧
    catchUno env0 "s2" "s1" w1 = Ok (w1, [tooLate "s2"]).
Proof.
  assert (Hne : Player.id endgameS2 ≠ Player.id vulnerableS1) by discriminate.
  assert (Hh : timers endgame1 !! 0%nat = Some (Player.oid vulnerableS1))
    by (vm_compute; reflexivity).
  split; [exact endgame1_attempt|]. split; [exact Hne|]. split; [exact Hh|].
  exact (catch_after_timer_is_too_late env0 "s2" "s1" endgame1 "ROOM01" endgame1Room
           endgameS2 0 vulnerableS1 0 endgame1_attempt Hne Hh).
Defined.

(** ** Leaving a room *)

(** X18.  When the only player of a room disconnects, the room is deleted
    from the registry and nothing is sent.  When one of several players
    disconnects, the others stay seated in their order with their cards and
    are sent ['playerLeft']; the cards of the player who left are in no hand
    and in no pile any more.  If the host left, the first of those who stay
    is the host.  A game in progress is cancelled, with ['gameCancelled'],
    exactly when one player is left. *)
Theorem disconnect_outcome sid w code room i player :
  roomCode w !! sid = Some code → code ≠ "" →
  rooms w !! code = Some room →
  list_find (λ p, Player.id p = sid) (Room.players room) = Some (i, player) →
  (length (Room.players room) = 1%nat →
   disconnect sid w = Ok (set_rooms (delete code (rooms w)) w, [])) ∧
  ((1 < length (Room.players room))%nat →
   ∃ w' room',
     disconnect sid w =
       Ok (w', Emit (ToRoom code) "playerLeft" None ::
               (if (Room.gameStarted room && Nat.ltb (length (Room.players room)) 3)%bool
                then [Emit (ToRoom code) "gameCancelled"
                        (Some "Not enough players to continue!")]
                else [])) ∧
     rooms w' = <[code := room']> (rooms w) ∧
     ids (Room.players room') = delete i (ids (Room.players room)) ∧
     Player.cards <$> Room.players room' = delete i (Player.cards <$> Room.players room) ∧
     Room.deck room' = Room.deck room ∧
     Room.discardPile room' = Room.discardPile room ∧
     (Player.isHost player = true →
      ∃ p0, Room.players room' !! 0%nat = Some p0 ∧ Player.isHost p0 = true) ∧
     Room.gameStarted room' =
       (Room.gameStarted room && Nat.leb 3 (length (Room.players room)))%bool).
Proof.
  intros Hs Hcode Hr Hf. unfold disconnect. rewrite Hs, Hr, Hf.
  destruct (String.eqb_spec code ""); [done|].
  apply list_find_Some in Hf as (Hi & _).
  pose proof (length_delete (Room.players room) i (mk_is_Some _ _ Hi)) as Hlen.
  room_norm. split.
  - intros H1. rewrite Hlen, H1. done.
  - intros Hn.
    destruct (Nat.eqb_spec (length (delete i (Room.players room))) 0) as [|_]; [lia|].
    set (room1 := if (Player.isHost player && _)%bool then _ else _).
    assert (R1 : ids (Room.players room1) = delete i (ids (Room.players room)) ∧
                 Player.cards <$> Room.players room1
                 = delete i (Player.cards <$> Room.players room) ∧
                 Room.deck room1 = Room.deck room ∧
                 Room.discardPile room1 = Room.discardPile room ∧
                 Room.gameStarted room1 = Room.gameStarted room ∧
                 (Player.isHost player = true →
                  ∃ p0, Room.players room1 !! 0%nat = Some p0 ∧ Player.isHost p0 = true)).
    { subst room1. unfold ids. rewrite <- !list_fmap_delete.
      destruct (Player.isHost player).
      - destruct (Nat.ltb_spec 0 (length (delete i (Room.players room)))); [|lia].
        cbn [andb]. room_norm. fold (ids (update 0 (Player.set_isHost true)
                                            (delete i (Room.players room)))).
        rewrite ids_update by done. rewrite cards_update by done.
        repeat split; try done. intros _.
        destruct (delete i (Room.players room)) as [|q qs]; [simpl in *; lia|].
        by eexists.
      - cbn [andb]. by repeat split. }
    destruct R1 as (I1 & C1 & D1 & P1 & G1 & H1).
    assert (L1 : length (Room.players room1) = (length (Room.players room) - 1)%nat).
    { apply (f_equal length) in I1. unfold ids in I1.
      rewrite length_delete, !length_fmap in I1; [done|].
      rewrite list_lookup_fmap, Hi. by eexists. }
    clearbody room1.
    set (room2 := if (Room.gameStarted room1 && _)%bool then _ else _).
    assert (R2 : Room.players room2 = Room.players room1 ∧
                 Room.deck room2 = Room.deck room1 ∧
                 Room.discardPile room2 = Room.discardPile room1 ∧
                 Room.gameStarted room2 = Room.gameStarted room1).
    { subst room2. by destruct (Room.gameStarted room1 && _)%bool. }
    destruct R2 as (P2 & D2 & DP2 & G2). clearbody room2.
    rewrite G2, G1, P2, L1.
    destruct (Room.gameStarted room) eqn:Hst; cbn [andb].
    + destruct (Nat.ltb_spec (length (Room.players room) - 1) 2).
      * destruct (Nat.ltb_spec (length (Room.players room)) 3); [|lia].
        destruct (Nat.leb_spec 3 (length (Room.players room))); [lia|].
        eexists _, (Room.set_gameStarted false room2). split; [reflexivity|].
        room_norm. rewrite P2, D2, DP2. by repeat split.
      * destruct (Nat.ltb_spec (length (Room.players room)) 3); [lia|].
        destruct (Nat.leb_spec 3 (length (Room.players room))); [|lia].
        eexists _, room2. split; [reflexivity|].
        room_norm. rewrite P2, D2, DP2, G2, G1. by repeat split.
    + eexists _, room2. split; [reflexivity|].
      room_norm. rewrite P2, D2, DP2, G2, G1. by repeat split.
Qed.

(** The witness of X18: the first player of [duel] leaves. *)
Lemma disconnect_outcome_witness :
  roomCode duel !! "s1" = Some "ROOM01" ∧ "ROOM01" ≠ "" ∧
  rooms duel !! "ROOM01" = Some duelRoom ∧
  list_find (λ p, Player.id p = "s1") (Room.players duelRoom) = Some (0%nat, duelS1) ∧
  ∃ w' room',
    disconnect "s1" duel =
      Ok (w', [Emit (ToRoom "ROOM01") "playerLeft" None;
               Emit (ToRoom "ROOM01") "gameCancelled"
                 (Some "Not enough players to continue!")]) ∧
    ids (Room.players room') = ["s2"] ∧
    Room.gameStarted room' = false.
Proof.
  assert (H1 : roomCode duel !! "s1" = Some "ROOM01") by (vm_compute; reflexivity).
  assert (H2 : "ROOM01" ≠ "") by discriminate.
  assert (H3 : rooms duel !! "ROOM01" = Some duelRoom) by (vm_compute; reflexivity).
  assert (H4 : list_find (λ p, Player.id p = "s1") (Room.players duelRoom)
               = Some (0%nat, duelS1)) by (vm_compute; reflexivity).
  split; [exact H1|]. split; [exact H2|]. split; [exact H3|]. split; [exact H4|].
  destruct (proj2 (disconnect_outcome "s1" duel "ROOM01" duelRoom 0 duelS1 H1 H2 H3 H4))
    as (w' & room' & Hrun & _ & Hids & _ & _ & _ & _ & Hst).
  { simpl. lia. }
  exists w', room'. split; [exact Hrun|]. split; [exact Hids|exact Hst].
Defined.

(** ** Chat *)

(** X19.  Whoever has made or joined a room can chat in it: a chat message of
    the socket that has just made a room, or has just joined one in which it
    was not seated before, is sent to that room under the name the socket
    gave. *)
Theorem chat_after_entering env sid name message w :
  (∃ w' evs, createRoom env sid name w = Ok (w', evs) ∧
     chatMessage sid message w' = Some (Chat (generateRoomCode env) name message)) ∧
  (∀ code room,
     rooms w !! toUpperCase code = Some room →
     Room.gameStarted room = false →
     (length (Room.players room) < 10)%nat →
     sid ∉ ids (Room.players room) →
     ∃ w' evs, joinRoom sid code name w = Ok (w', evs) ∧
       chatMessage sid message w' = Some (Chat (toUpperCase code) name message)).
Proof.
  assert (Hfind : ∀ o host (ps : list Player.t),
    sid ∉ ids ps →
    find (λ p, Player.id p = sid) (ps ++ [newPlayer o sid name host])
    = Some (newPlayer o sid name host)).
  { intros o host ps Hnot. unfold find.
    assert (list_find (λ p, Player.id p = sid) (ps ++ [newPlayer o sid name host])
            = Some (length ps, newPlayer o sid name host)) as ->; [|done].
    apply list_find_Some. split; [by rewrite lookup_app_r, Nat.sub_diag by lia|].
    split; [done|]. intros j y Hj Hlt Hid. apply Hnot.
    rewrite lookup_app_l in Hj by done.
    unfold ids. rewrite <- Hid. apply list_elem_of_fmap_2. by eapply list_elem_of_lookup_2. }
  split.
  - unfold createRoom. eexists _, _. split; [reflexivity|].
    unfold chatMessage. room_norm. rewrite lookup_insert_eq.
    cbn [mbind option_bind]. rewrite lookup_insert_eq. cbn [mbind option_bind]. room_norm.
    pose proof (Hfind (nextOid w) true [] (not_elem_of_nil _)) as H0.
    cbn [app] in H0. by rewrite H0.
  - intros code room Hr Hst Hn Hnot. unfold joinRoom. rewrite Hr, Hst.
    destruct (Nat.leb_spec 10 (length (Room.players room))); [lia|].
    eexists _, _. split; [reflexivity|].
    unfold chatMessage. room_norm. rewrite lookup_insert_eq.
    cbn [mbind option_bind]. rewrite lookup_insert_eq. cbn [mbind option_bind]. room_norm.
    by rewrite Hfind.
Qed.

(** ** The page and the server *)

Lemma canPlayCard_page_server (c : Client.t) (card : Card.t) top :
  Client.isMyTurn c = true → Client.topCard c = Some top →
  canPlayCard card (Some top) (Client.chosenColor c) = Some (Client.canPlayCard c card).
Proof.
  intros Hturn Htop. unfold Client.canPlayCard, canPlayCard.
  rewrite Htop, Hturn. cbn [negb].
  destruct (String.eqb (Card.color card) "wild"); [done|].
  destruct (Client.chosenColor c) as [color|]; cbn [truthy].
  - destruct (negb (String.eqb color "")); cbn [mbind option_bind fmap option_fmap option_map].
    + destruct (String.eqb (Card.color card) color); [done|].
      by destruct (String.eqb (Card.value card) (Card.value top)).
    + destruct (String.eqb (Card.color card) (Card.color top)); [done|].
      by destruct (String.eqb (Card.value card) (Card.value top)).
  - cbn [mbind option_bind fmap option_fmap option_map].
    destruct (String.eqb (Card.color card) (Card.color top)); [done|].
    by destruct (String.eqb (Card.value card) (Card.value top)).
Qed.

Lemma canPlayCard_page_needs_turn (c : Client.t) (card : Card.t) :
  Client.canPlayCard c card = true →
  Client.isMyTurn c = true ∧ ∃ top, Client.topCard c = Some top.
Proof.
  unfold Client.canPlayCard. destruct (Client.topCard c) as [top|]; [|done].
  destruct (Client.isMyTurn c); [|done]. intros _. split; [done|]. by exists top.
Qed.

(** X20.  The page and the server agree on the cards that can be played: on
    the player's turn and with a top card, [canPlayCard] of the page accepts a
    card exactly when [canPlayCard] of the server accepts it on that top card
    and declared color, and off the turn or with no top card the page accepts
    no card. *)
Theorem client_canPlayCard_agrees (c : Client.t) (card : Card.t) :
  (∀ top, Client.isMyTurn c = true → Client.topCard c = Some top →
     canPlayCard card (Some top) (Client.chosenColor c)
     = Some (Client.canPlayCard c card)) ∧
  (Client.isMyTurn c = false ∨ Client.topCard c = None →
   Client.canPlayCard c card = false).
Proof.
  split.
  - intros top Hturn Htop. by apply canPlayCard_page_server.
  - intros Hno. destruct (Client.canPlayCard c card) eqn:Hcan; [|done].
    apply canPlayCard_page_needs_turn in Hcan as (Hturn & top & Htop).
    destruct Hno; congruence.
Qed.

Lemma pending_is_wild c :
  Client.reachable c →
  ∀ card, Client.pendingWildCard c = Some card → Card.color card = "wild".
Proof.
  induction 1 as [|e c c' rs _ IH Hstep]; [done|].
  destruct e; cbn [Client.step] in Hstep; simplify_eq; try exact IH.
  - unfold Client.handleCardClick in Hstep.
    destruct (negb (Client.isMyTurn c)); [by simplify_eq|].
    destruct (negb (Client.canPlayCard c card)); [by simplify_eq|].
    destruct (String.eqb_spec (Card.color card) "wild"); simplify_eq; [|done].
    intros card' [= <-]. done.
  - unfold Client.drawPileClick in Hstep. by destruct (negb _); simplify_eq.
  - unfold Client.colorClick in Hstep.
    destruct (Client.pendingWildCard c) eqn:E; simplify_eq; [done|].
    intros card0 Hc0. congruence.
  - unfold Client.unoClick in Hstep. by simplify_eq.
  - unfold Client.catchClick in Hstep. by destruct (decide _); simplify_eq.
  - unfold Client.onCards. by destruct (Nat.ltb _ _).
  - unfold Client.onUnoCaught. by destruct (decide _).
Qed.

(** X21.  The page sends a declared color with wild cards only.  Whatever has
    happened to the page since its load, a ['playCard'] that it sends comes
    either from the click on a card that is not wild and that [canPlayCard]
    of the page accepts, and then carries the color [null], or from the click
    on a color of the color picker, and then is for a wild card that the
    player clicked before and carries that color. *)
Theorem client_declares_color_with_wild_only c e c' rs cardId color :
  Client.reachable c →
  Client.step e c = (c', rs) →
  EmitPlayCard cardId color ∈ rs →
  (∃ card, e = Client.CardClick card ∧ cardId = Card.id card ∧ color = None ∧
           Card.color card ≠ "wild" ∧ Client.canPlayCard c card = true) ∨
  (∃ card, e = Client.ColorClick color ∧ cardId = Card.id card ∧
           Client.pendingWildCard c = Some card ∧ Card.color card = "wild").
Proof.
  intros Hc Hstep Hin.
  destruct e; cbn [Client.step] in Hstep; simplify_eq;
    try (by apply elem_of_nil in Hin).
  - left. unfold Client.handleCardClick in Hstep.
    destruct (negb (Client.isMyTurn c)); [simplify_eq; by apply elem_of_nil in Hin|].
    destruct (Client.canPlayCard c card) eqn:Hcan; cbn [negb] in Hstep;
      [|simplify_eq; by apply elem_of_nil in Hin].
    destruct (String.eqb_spec (Card.color card) "wild");
      simplify_eq; [by apply elem_of_nil in Hin|].
    apply list_elem_of_singleton in Hin. simplify_eq. by exists card.
  - unfold Client.drawPileClick in Hstep. destruct (negb _); simplify_eq.
    + by apply elem_of_nil in Hin.
    + apply list_elem_of_singleton in Hin. done.
  - right. unfold Client.colorClick in Hstep.
    destruct (Client.pendingWildCard c) as [card|] eqn:Hp; simplify_eq.
    + apply list_elem_of_singleton in Hin. simplify_eq. exists card.
      split; [done|]. split; [done|]. split; [done|]. by eapply pending_is_wild.
    + by apply elem_of_nil in Hin.
  - unfold Client.unoClick in Hstep. simplify_eq.
    apply list_elem_of_singleton in Hin. done.
  - unfold Client.catchClick in Hstep. destruct (decide _); simplify_eq.
    + apply list_elem_of_singleton in Hin. done.
    + by apply elem_of_nil in Hin.
Qed.

Lemma duelPage_reachable : Client.reachable duelPage.
Proof.
  eapply (Client.reachable_step (Client.GameState duelData)); [|reflexivity].
  eapply (Client.reachable_step (Client.Room "s1")); [|reflexivity].
  constructor.
Qed.

(** The witness of X21: the click on the red 5 of [duelPage]. *)
Lemma client_declares_color_with_wild_only_witness :
  Client.reachable duelPage ∧
  Client.step (Client.CardClick (Card.mk "red" "5" "a2")) duelPage
    = (duelPage, [EmitPlayCard "a2" None]) ∧
  EmitPlayCard "a2" None ∈ [EmitPlayCard "a2" None] ∧
  ∃ card, "a2" = Card.id card ∧ Card.color card ≠ "wild" ∧
          Client.canPlayCard duelPage card = true.
Proof.
  assert (Hstep : Client.step (Client.CardClick (Card.mk "red" "5" "a2")) duelPage
                  = (duelPage, [EmitPlayCard "a2" None])) by (vm_compute; reflexivity).
  assert (Hin : EmitPlayCard "a2" None ∈ [EmitPlayCard "a2" None]) by constructor.
  split; [exact duelPage_reachable|]. split; [exact Hstep|]. split; [exact Hin|].
  destruct (client_declares_color_with_wild_only duelPage _ _ _ _ _
              duelPage_reachable Hstep Hin)
    as [(card & _ & Hid & _ & Hc & Hcan)|(card & He & _)]; [|discriminate He].
  exists card. split; [exact Hid|]. split; [exact Hc|exact Hcan].
Defined.

(** ** A page that shows the state of the server *)

Lemma list_find_NoDup {A B} `{EqDecision B} (f : A → B) (l : list A) (k : nat) x :
  NoDup (f <$> l) → l !! k = Some x →
  list_find (λ y, f y = f x) l = Some (k, x).
Proof.
  intros Hnd Hk. apply list_find_Some. split; [done|]. split; [done|].
  intros j y Hj Hlt Hy.
  assert (j = k); [|lia].
  eapply (NoDup_lookup (f <$> l)); [done| |].
  - rewrite list_lookup_fmap, Hj. simpl. by rewrite Hy.
  - by rewrite list_lookup_fmap, Hk.
Qed.

(** X22.  A play that the page sends when it shows the state of the server is
    accepted by the server.  The page of the player whose turn it is has
    received the ['gameState'] of the room as it is now; the ids of the cards
    in the hand differ.  Then the ['playCard'] sent by the click on a card of
    the hand passes every check of [playCard], and the play goes through
    with no ['error']. *)
Theorem client_play_is_accepted env sid w code room player c0 data card c' cardId color :
  roomCode w !! sid = Some code →
  rooms w !! code = Some room →
  Room.gameStarted room = true →
  findIndex (λ p, Player.id p = sid) (Room.players room) = Room.currentPlayerIndex room →
  index (Room.players room) (Room.currentPlayerIndex room) = Some player →
  direction_ok room →
  gameState room player = Some data →
  card ∈ Player.cards player →
  NoDup (Card.id <$> Player.cards player) →
  Client.handleCardClick card (Client.onGameState data c0)
    = (c', [EmitPlayCard cardId color]) →
  ∃ k w' evs,
    accepted sid cardId w code room player k card ∧
    step env (received sid (EmitPlayCard cardId color)) w = Ok (w', evs) ∧
    quiet evs.
Proof.
  intros Hs Hr Hst Ht Hp Hd Hdata Hin Hnd Hclick.
  unfold gameState in Hdata. rewrite Hp in Hdata. cbn in Hdata. simplify_eq.
  unfold Client.handleCardClick in Hclick.
  set (c := Client.onGameState _ c0) in *.
  assert (Ctop : Client.topCard c = last (Room.discardPile room)) by done.
  assert (Ccol : Client.chosenColor c = Room.chosenColor room) by done.
  clearbody c.
  destruct (Client.isMyTurn c) eqn:Hturn; cbn [negb] in Hclick; [|by simplify_eq].
  destruct (Client.canPlayCard c card) eqn:Hcan; cbn [negb] in Hclick; [|by simplify_eq].
  destruct (String.eqb (Card.color card) "wild"); simplify_eq.
  apply canPlayCard_page_needs_turn in Hcan as Hneeds. destruct Hneeds as (_ & top & Htop).
  pose proof (canPlayCard_page_server c' card top Hturn Htop) as Hserver.
  rewrite Hcan, Ccol in Hserver. rewrite Ctop in Htop.
  apply list_elem_of_lookup_1 in Hin as [k Hk].
  assert (Hacc : accepted sid (Card.id card) w code room player k card).
  { split; try done.
    - by apply (list_find_NoDup Card.id).
    - by rewrite Htop. }
  destruct (playCard_accepted_Ok env _ _ None _ _ _ _ _ _ Hacc Hd) as (w' & room' & evs & Hplay & _).
  exists k, w', evs. split; [done|]. split; [done|].
  rewrite (playCard_accepted _ _ _ _ _ _ _ _ _ _ Hacc) in Hplay.
  by eapply playAccepted_quiet.
Qed.

(** The witness of X22: the red 5 of the first player of [duel]. *)
Lemma client_play_is_accepted_witness :
  roomCode duel !! "s1" = Some "ROOM01" ∧
  rooms duel !! "ROOM01" = Some duelRoom ∧
  gameState duelRoom duelS1 = Some duelData ∧
  Card.mk "red" "5" "a2" ∈ Player.cards duelS1 ∧
  NoDup (Card.id <$> Player.cards duelS1) ∧
  Client.handleCardClick (Card.mk "red" "5" "a2") duelPage
    = (duelPage, [EmitPlayCard "a2" None]) ∧
  ∃ k w' evs,
    accepted "s1" "a2" duel "ROOM01" duelRoom duelS1 k (Card.mk "red" "5" "a2") ∧
    step env0 (received "s1" (EmitPlayCard "a2" None)) duel = Ok (w', evs) ∧
    quiet evs.
Proof.
  assert (H1 : roomCode duel !! "s1" = Some "ROOM01") by (vm_compute; reflexivity).
  assert (H2 : rooms duel !! "ROOM01" = Some duelRoom) by (vm_compute; reflexivity).
  assert (H4 : findIndex (λ p, Player.id p = "s1") (Room.players duelRoom)
               = Room.currentPlayerIndex duelRoom) by (vm_compute; reflexivity).
  assert (H5 : index (Room.players duelRoom) (Room.currentPlayerIndex duelRoom)
               = Some duelS1) by reflexivity.
  assert (H6 : direction_ok duelRoom) by (by left).
  assert (H7 : gameState duelRoom duelS1 = Some duelData) by reflexivity.
  assert (H8 : Card.mk "red" "5" "a2" ∈ Player.cards duelS1).
  { unfold duelS1, seat. cbn [Player.cards]. constructor 2. constructor 1. }
  assert (H9 : NoDup (Card.id <$> Player.cards duelS1)).
  { apply (bool_decide_unpack _). vm_compute. reflexivity. }
  assert (H10 : Client.handleCardClick (Card.mk "red" "5" "a2") duelPage
                = (duelPage, [EmitPlayCard "a2" None])) by (vm_compute; reflexivity).
  split; [exact H1|]. split; [exact H2|]. split; [exact H7|]. split; [exact H8|].
  split; [exact H9|]. split; [exact H10|].
  exact (client_play_is_accepted env0 "s1" duel "ROOM01" duelRoom duelS1
           (Client.onRoom "s1" Client.start) duelData (Card.mk "red" "5" "a2")
           duelPage "a2" None H1 H2 eq_refl H4 H5 H6 H7 H8 H9 H10).
Defined.

(** X23.  A catch button that the page shows for the state of the server
    leads to a catch.  The page of a player has received the ['gameState'] of
    the room as it is now, and the socket ids of the players of the room
    differ.  Then the ['catchUno'] sent by the click on a catch button is
    not answered with an ['error']: the player caught is flagged, holds one
    card, and ['unoCaught'] is sent to the room. *)
Theorem client_catch_is_accepted env sid w code room catcher c0 data pid c' :
  roomCode w !! sid = Some code →
  rooms w !! code = Some room →
  Room.gameStarted room = true →
  room_ok room →
  find (λ p, Player.id p = sid) (Room.players room) = Some catcher →
  NoDup (ids (Room.players room)) →
  gameState room catcher = Some data →
  Client.myId c0 = Some sid →
  Client.catchClick pid (Client.onGameState data c0) = (c', [EmitCatchUno pid]) →
  ∃ i target w' evs,
    Room.players room !! i = Some target ∧ Player.id target = pid ∧
    Player.canBeCaught target = true ∧ length (Player.cards target) = 1%nat ∧
    step env (received sid (EmitCatchUno pid)) w =
      Ok (w', [Emit (ToRoom code) "unoCaught" None;
               Emit (ToSocket pid) "cardsDrawn" None] ++ evs) ∧
    w' ≠ w.
Proof.
  intros Hs Hr Hst (Hd & Hok) Hc Hnd Hdata Hme Hclick. destruct (Hok Hst) as (Hdisc & Hcur).
  unfold gameState in Hdata.
  destruct (index _ _) as [current|]; [|done]. cbn in Hdata. simplify_eq.
  unfold Client.catchClick in Hclick.
  destruct (decide _) as [Hin|]; [|by simplify_eq]. clear Hclick.
  cbn in Hin. rewrite Hme in Hin. unfold publicPlayers in Hin.
  apply list_elem_of_fmap in Hin as (v & -> & Hin).
  apply list_elem_of_filter in Hin as ((Hnot & Hflag & Hone) & Hin).
  apply list_elem_of_fmap in Hin as (target & -> & Hin). cbn in Hnot, Hflag, Hone.
  apply list_elem_of_lookup_1 in Hin as [i Hi]. cbn.
  assert (Hatt : catch_attempt sid (Player.id target) w code room catcher i target).
  { split; try done. by apply (list_find_NoDup Player.id). }
  destruct (catchUno_caught env _ _ _ _ _ _ _ _ Hatt) as
    (w' & room' & target' & cs & evs & Hrun & Hrooms & _ & _ & Hps & Ht' & _); try done.
  { congruence. }
  { by injection Hflag. }
  exists i, target, w', evs. split; [done|]. split; [done|].
  split; [by injection Hflag|]. split; [done|]. split; [done|].
  intros ->. assert (rooms w !! code = Some room') as Hr'.
  { rewrite Hrooms at 1. apply lookup_insert_eq. }
  rewrite Hr in Hr'. simplify_eq.
  assert (Room.players room' !! i = Some target) as Hi' by done.
  rewrite Hps, list_lookup_insert_eq in Hi' by (by eapply lookup_lt_Some).
  injection Hi' as Hi'. apply (f_equal Player.canBeCaught) in Hi'.
  cbn in Hi'. congruence.
Qed.

Lemma endgame1Room_ok : room_ok endgame1Room.
Proof. split; [by left|]. intros _. split; [done|]. simpl. lia. Qed.

(** The witness of X23: the catch button for the first player of [endgame1]. *)
Lemma client_catch_is_accepted_witness :
  roomCode endgame1 !! "s2" = Some "ROOM01" ∧
  rooms endgame1 !! "ROOM01" = Some endgame1Room ∧
  room_ok endgame1Room ∧
  NoDup (ids (Room.players endgame1Room)) ∧
  gameState endgame1Room endgameS2 = Some endgame1Data ∧
  Client.catchClick "s1" endgame1Page = (endgame1Page, [EmitCatchUno "s1"]) ∧
  ∃ i target w' evs,
    Room.players endgame1Room !! i = Some target ∧ Player.id target = "s1" ∧
    step env0 (received "s2" (EmitCatchUno "s1")) endgame1 =
      Ok (w', [Emit (ToRoom "ROOM01") "unoCaught" None;
               Emit (ToSocket "s1") "cardsDrawn" None] ++ evs).
Proof.
  assert (H1 : roomCode endgame1 !! "s2" = Some "ROOM01") by (vm_compute; reflexivity).
  assert (H2 : rooms endgame1 !! "ROOM01" = Some endgame1Room) by (vm_compute; reflexivity).
  assert (H5 : find (λ p, Player.id p = "s2") (Room.players endgame1Room) = Some endgameS2)
    by (vm_compute; reflexivity).
  assert (H6 : NoDup (ids (Room.players endgame1Room))).
  { apply (bool_decide_unpack _). vm_compute. reflexivity. }
  assert (H7 : gameState endgame1Room endgameS2 = Some endgame1Data) by reflexivity.
  assert (H9 : Client.catchClick "s1" endgame1Page = (endgame1Page, [EmitCatchUno "s1"]))
    by (vm_compute; reflexivity).
  split; [exact H1|]. split; [exact H2|]. split; [exact endgame1Room_ok|].
  split; [exact H6|]. split; [exact H7|]. split; [exact H9|].
  destruct (client_catch_is_accepted env0 "s2" endgame1 "ROOM01" endgame1Room endgameS2
              (Client.onRoom "s2" Client.start) endgame1Data "s1" endgame1Page
              H1 H2 eq_refl endgame1Room_ok H5 H6 H7 eq_refl H9)
    as (i & target & w' & evs & Hi & Hid & _ & _ & Hrun & _).
  exists i, target, w', evs. split; [exact Hi|]. split; [exact Hid|exact Hrun].
Defined.

(** ** Every handler runs to its end *)

Lemma last_is_top (l : list Card.t) : l ≠ [] → ∃ top, last l = Some top.
Proof.
  destruct l as [|x l _] using rev_ind; [done|]. intros _. exists x. apply last_snoc.
Qed.

Lemma playCard_total env sid cardId chosen w :
  world_ok w → ∃ w' evs, playCard env sid cardId chosen w = Ok (w', evs).
Proof.
  intros Hw. unfold playCard.
  destruct (roomCode w !! sid) as [code|]; [|by eexists _, _].
  destruct (rooms w !! code) as [room|] eqn:Hr; [|by eexists _, _].
  destruct (Room.gameStarted room) eqn:Hst; cbn [negb]; [|by eexists _, _].
  destruct (Hw _ _ Hr) as [Hd Hok]. destruct (Hok Hst) as [Hdisc Hcur].
  destruct (Z.eqb_spec (findIndex (λ p, Player.id p = sid) (Room.players room))
              (Room.currentPlayerIndex room)) as [Ht|]; cbn [negb]; [|by eexists _, _].
  rewrite Ht.
  destruct (index_is_Some _ _ Hcur) as [player Hp]. rewrite Hp.
  destruct (list_find _ _) as [[k card]|]; [|by eexists _, _].
  destruct (last_is_top _ Hdisc) as [top ->].
  destruct (canPlayCard_top card top (Room.chosenColor room)) as [[] ->];
    [|by eexists _, _].
  destruct (decide (length (delete k (Player.cards player)) = 0%nat)) as [Hz|Hnz].
  - unfold playAccepted. rewrite Hz. cbn [Nat.eqb]. by eexists _, _.
  - destruct (playAccepted_continues env code player k card chosen room w Hp Hd Hnz)
      as (w' & room' & evs & -> & _). by eexists _, _.
Qed.

Lemma drawCard_total env sid w :
  world_ok w → ∃ w' evs, drawCard env sid w = Ok (w', evs).
Proof.
  intros Hw.
  destruct (roomCode w !! sid) as [code|] eqn:Hs.
  2:{ unfold drawCard. rewrite Hs. by eexists _, _. }
  destruct (rooms w !! code) as [room|] eqn:Hr.
  2:{ unfold drawCard. rewrite Hs, Hr. by eexists _, _. }
  destruct (Room.gameStarted room) eqn:Hst.
  2:{ unfold drawCard. rewrite Hs, Hr, Hst. by eexists _, _. }
  destruct (Z.eqb_spec (findIndex (λ p, Player.id p = sid) (Room.players room))
              (Room.currentPlayerIndex room)) as [Ht|Hne].
  - destruct (drawCard_spec env sid w code room Hs Hr Hst Ht (Hw _ _ Hr))
      as (w' & room' & drawn & canPlay & evs & -> & _). by eexists _, _.
  - unfold drawCard. rewrite Hs, Hr, Hst. cbn [negb].
    destruct (Z.eqb_spec (findIndex (λ p, Player.id p = sid) (Room.players room))
                (Room.currentPlayerIndex room)); [done|]. by eexists _, _.
Qed.

Lemma catchUno_total env sid tid w :
  world_ok w → ∃ w' evs, catchUno env sid tid w = Ok (w', evs).
Proof.
  intros Hw.
  destruct (roomCode w !! sid) as [code|] eqn:Hs.
  2:{ unfold catchUno. rewrite Hs. by eexists _, _. }
  destruct (rooms w !! code) as [room|] eqn:Hr.
  2:{ unfold catchUno. rewrite Hs, Hr. by eexists _, _. }
  destruct (Room.gameStarted room) eqn:Hst.
  2:{ unfold catchUno. rewrite Hs, Hr, Hst. by eexists _, _. }
  destruct (find (λ p, Player.id p = sid) (Room.players room)) as [catcher|] eqn:Hc.
  2:{ unfold catchUno. rewrite Hs, Hr, Hst, Hc. by eexists _, _. }
  destruct (list_find (λ p, Player.id p = tid) (Room.players room)) as [[i target]|] eqn:Ht.
  2:{ unfold catchUno. rewrite Hs, Hr, Hst, Hc, Ht. by eexists _, _. }
  destruct (Hw _ _ Hr) as [Hd Hok]. destruct (Hok Hst) as [Hdisc Hcur].
  destruct (catchUno_ways env sid tid w code room catcher i target) as
    [(evs & ->)|(w' & room' & evs & -> & _)]; try done; by eexists _, _.
Qed.

Lemma startGame_total env sid w :
  (∀ c r, rooms w !! c = Some r → roster_ok r) →
  ∃ w' evs, startGame env sid w = Ok (w', evs).
Proof.
  intros Hw.
  destruct (roomCode w !! sid) as [code|] eqn:Hs.
  2:{ unfold startGame. rewrite Hs. by eexists _, _. }
  destruct (rooms w !! code) as [room|] eqn:Hr.
  2:{ unfold startGame. rewrite Hs, Hr. by eexists _, _. }
  destruct (find (λ p, Player.id p = sid) (Room.players room)) as [player|] eqn:Hf.
  2:{ unfold startGame. rewrite Hs, Hr, Hf. by eexists _, _. }
  destruct (Player.isHost player) eqn:Hh.
  2:{ unfold startGame. rewrite Hs, Hr, Hf, Hh. by eexists _, _. }
  destruct (Nat.ltb_spec (length (Room.players room)) 2) as [Hlt|Hge].
  { unfold startGame. rewrite Hs, Hr, Hf, Hh. cbn [negb].
    destruct (Nat.ltb_spec (length (Room.players room)) 2); [|lia]. by eexists _, _. }
  destruct (Hw _ _ Hr) as ([_ H10] & _).
  destruct (startGame_spec env sid w code room player Hs Hr Hf Hh)
    as (w' & room' & first & -> & _); [lia|]. by eexists _, _.
Qed.

Lemma step_total env a w :
  world_ok w → (∀ c r, rooms w !! c = Some r → roster_ok r) →
  ∃ w' evs, step env a w = Ok (w', evs).
Proof.
  intros Hw Hros. destruct a; cbn [step].
  - unfold createRoom. by eexists _, _.
  - unfold joinRoom. repeat case_match; by eexists _, _.
  - by apply startGame_total.
  - by apply playCard_total.
  - by apply drawCard_total.
  - unfold sayUno. repeat case_match; by eexists _, _.
  - by apply catchUno_total.
  - unfold disconnect. repeat case_match; by eexists _, _.
  - unfold catchTimeoutFires. repeat case_match; by eexists _, _.
Qed.

(** X24.  No handler fails or hangs: in every state that the server reaches,
    the run of every handler, for every socket and every argument and
    whatever [Math.random()] and [uuidv4()] return, ends without reading a
    property of [undefined], without drawing from an empty discard pile and
    without the first-card loop of [startGame] going on for ever. *)
Theorem reachable_step_ends env a w :
  reachable w → ∃ w' evs, step env a w = Ok (w', evs) ∧ reachable w'.
Proof.
  intros Hw.
  destruct (step_total env a w (reachable_ok w Hw) (reachable_roster w Hw))
    as (w' & evs & Hstep).
  exists w', evs. split; [exact Hstep|]. by eapply reachable_step.
Qed.

Lemma pairLobby_reachable : reachable pairLobby.
Proof.
  apply (run_reachable env0 [CreateRoom "s1" "Ann"; JoinRoom "s2" "aaaaaa" "Bob"] initial);
    [constructor|].
  vm_compute. reflexivity.
Qed.

(** The witness of X24: the start of the game of [pairLobby]. *)
Lemma reachable_step_ends_witness :
  reachable pairLobby ∧
  ∃ w' evs, step env0 (StartGame "s1") pairLobby = Ok (w', evs) ∧ reachable w'.
Proof.
  split; [exact pairLobby_reachable|].
  exact (reachable_step_ends env0 (StartGame "s1") pairLobby pairLobby_reachable).
Defined.

(** ** Where the card played goes *)

Lemma drawCards_top env count k room room' cs k' :
  drawCards env k room count = Ok (room', cs, k') →
  last (Room.discardPile room') = last (Room.discardPile room).
Proof.
  intros H. destruct (drawCards_discard _ _ _ _ _ _ _ H) as [->|(top & Hl & ->)]; [done|].
  by rewrite Hl.
Qed.

Lemma forcedDraw_moves env n room room' b evs :
  forcedDraw env n room = Ok (room', b, evs) →
  last (Room.discardPile room') = last (Room.discardPile room) ∧
  ∃ drawn, Room.players room'
           = update (getNextPlayer room) (Player.push_cards drawn) (Room.players room).
Proof.
  unfold forcedDraw. room_norm. intros H.
  destruct (index _ _) as [nextPlayer|]; [|done]. unbind.
  destruct (drawCards env 0 _ n) as [[[room1 cs] k1]|] eqn:Hdraw; [|done].
  simplify_eq. pose proof (drawCards_top _ _ _ _ _ _ _ Hdraw) as Htop.
  apply drawCards_same_table in Hdraw as (_ & Hp & Hi & _).
  room_norm. split; [done|]. exists cs. by rewrite Hp, Hi.
Qed.

Lemma handleSpecialCards_moves env card room room' b evs :
  handleSpecialCards env card room = Ok (room', b, evs) →
  direction_ok room →
  0 ≤ Room.currentPlayerIndex room < Z.of_nat (length (Room.players room)) →
  (2 ≤ length (Room.players room))%nat →
  last (Room.discardPile room') = last (Room.discardPile room) ∧
  index (Room.players room') (Room.currentPlayerIndex room)
  = index (Room.players room) (Room.currentPlayerIndex room).
Proof.
  unfold handleSpecialCards. intros H Hd Hi Hn.
  assert (Hdraw : ∀ n, forcedDraw env n room = Ok (room', b, evs) →
    last (Room.discardPile room') = last (Room.discardPile room) ∧
    index (Room.players room') (Room.currentPlayerIndex room)
    = index (Room.players room) (Room.currentPlayerIndex room)).
  { intros n Hf. destruct (forcedDraw_moves _ _ _ _ _ _ Hf) as (Htop & drawn & ->).
    split; [done|]. apply index_update_ne. rewrite getNextPlayer_next.
    apply next_moves; [done|lia|done]. }
  repeat case_match; simplify_eq; eauto.
Qed.

(** X25.  An accepted play moves the card from the hand to the top of the
    discard pile.  After the play the top card is the card played, also when
    the draw of a draw-two or a wild-draw-four has shuffled the discard pile
    into the deck, and in a room of two or more players the hand of the
    player who played is the hand of before without that card. *)
Theorem played_card_is_top env sid cardId chosen w code room player k card :
  accepted sid cardId w code room player k card →
  direction_ok room →
  (2 ≤ length (Room.players room))%nat →
  ∃ w' room' p' evs,
    playCard env sid cardId chosen w = Ok (w', evs) ∧
    rooms w' = <[code := room']> (rooms w) ∧
    last (Room.discardPile room') = Some card ∧
    index (Room.players room') (Room.currentPlayerIndex room) = Some p' ∧
    Player.cards p' = delete k (Player.cards player).
Proof.
  intros Hacc Hd Hn.
  pose proof (acc_player _ _ _ _ _ _ _ _ Hacc) as Hp.
  pose proof (index_lt _ _ _ Hp) as Hi.
  rewrite (playCard_accepted _ _ _ _ _ _ _ _ _ _ Hacc).
  destruct (decide (length (delete k (Player.cards player)) = 0%nat)) as [Hz|Hnz].
  - unfold playAccepted. rewrite Hz. cbn [Nat.eqb].
    eexists _, _, _, _. split; [reflexivity|]. room_norm. split; [reflexivity|].
    room_norm. split; [apply last_snoc|].
    rewrite index_fmap, index_update_eq, Hp. done.
  - destruct (playAccepted_continues env code player k card chosen room w Hp Hd Hnz)
      as (w' & room0 & evs & Hplay & _).
    rewrite Hplay. unfold playAccepted, unoLogic, setTimeout in Hplay.
    destruct (Nat.eqb_spec (length (delete k (Player.cards player))) 0) as [|_]; [done|].
    assert (Htail : ∀ (room1 : Room.t) (w1 : World) (evs1 : list event),
      rooms w1 = rooms w →
      last (Room.discardPile room1) = Some card →
      Room.currentPlayerIndex room1 = Room.currentPlayerIndex room →
      Room.direction room1 = Room.direction room →
      length (Room.players room1) = length (Room.players room) →
      (∃ p1, index (Room.players room1) (Room.currentPlayerIndex room) = Some p1 ∧
             Player.cards p1 = delete k (Player.cards player)) →
      ('(room, skipNext, evs2) ← handleSpecialCards env card room1;
       let room := moveToNextPlayer skipNext room in
       evs3 ← emitToPlayers "gameState" room;
       Ok (set_rooms (<[code := room]> (rooms w1)) w1, evs1 ++ evs2 ++ evs3)) = Ok (w', evs) →
      ∃ room' p',
        rooms w' = <[code := room']> (rooms w) ∧
        last (Room.discardPile room') = Some card ∧
        index (Room.players room') (Room.currentPlayerIndex room) = Some p' ∧
        Player.cards p' = delete k (Player.cards player)).
    { intros room1 w1 evs1 Hrooms Htop Hcur Hdir Hlen (p1 & Hp1 & Hc1) Ht. unbind.
      destruct (handleSpecialCards _ _ _) as [[[room3 b] evs2]|] eqn:Hsp; [|done].
      destruct (emitToPlayers _ _) as [evs3|]; [|done]. simplify_eq.
      destruct (handleSpecialCards_moves _ _ _ _ _ _ Hsp) as (Htop3 & Hidx).
      { unfold direction_ok. by rewrite Hdir. }
      { by rewrite Hcur, Hlen. }
      { by rewrite Hlen. }
      rewrite Hcur in Hidx.
      exists (moveToNextPlayer b room3), p1. room_norm. rewrite Hrooms.
      destruct (moveToNextPlayer_frame b room3) as (Fp & _ & _ & _ & _ & _ & Fdp).
      rewrite Fp, Fdp, Htop3, Hidx. done. }
    assert (∃ room' p',
      rooms w' = <[code := room']> (rooms w) ∧
      last (Room.discardPile room') = Some card ∧
      index (Room.players room') (Room.currentPlayerIndex room) = Some p' ∧
      Player.cards p' = delete k (Player.cards player))
      as (room' & p' & H1 & H2 & H3 & H4); [|by exists w', room', p', evs].
    destruct (Nat.eqb (length (delete k (Player.cards player))) 1);
      [destruct (Player.saidUno player); cbn [negb] in Hplay|];
      refine (Htail _ _ _ _ _ _ _ _ _ Hplay); room_norm;
      rewrite ?update_length; try done; try apply last_snoc;
      rewrite !index_update_eq, Hp; by eexists.
Qed.

Lemma table4_accepts :
  accepted "s1" "a1" (table4 0) "ROOM01" (table4Room 0)
    (seat 0 "s1" [Card.mk "red" "draw2" "a1"; Card.mk "red" "5" "a2"]) 0
    (Card.mk "red" "draw2" "a1").
Proof. split; vm_compute; reflexivity. Qed.

(** The witness of X25: the draw-two of the first player of [table4]. *)
Lemma played_card_is_top_witness :
  accepted "s1" "a1" (table4 0) "ROOM01" (table4Room 0)
    (seat 0 "s1" [Card.mk "red" "draw2" "a1"; Card.mk "red" "5" "a2"]) 0
    (Card.mk "red" "draw2" "a1") ∧
  direction_ok (table4Room 0) ∧
  (2 ≤ length (Room.players (table4Room 0)))%nat ∧
  ∃ w' room' p' evs,
    playCard env0 "s1" "a1" None (table4 0) = Ok (w', evs) ∧
    rooms w' = <["ROOM01" := room']> (rooms (table4 0)) ∧
    last (Room.discardPile room') = Some (Card.mk "red" "draw2" "a1") ∧
    index (Room.players room') 0 = Some p' ∧
    Player.cards p' = [Card.mk "red" "5" "a2"].
Proof.
  assert (Hd : direction_ok (table4Room 0)) by (by left).
  assert (Hn : (2 ≤ length (Room.players (table4Room 0)))%nat) by (simpl; lia).
  split; [exact table4_accepts|]. split; [exact Hd|]. split; [exact Hn|].
  exact (played_card_is_top env0 "s1" "a1" None (table4 0) "ROOM01" (table4Room 0) _ 0 _
           table4_accepts Hd Hn).
Defined.

(** ** Whose turn it is after a play *)

(** X26.  After an accepted play that does not empty the hand the turn moves
    as the card says.  A skip passes over one player: the turn moves on by
    two.  A reverse, when the players are not exactly two, turns the
    direction round and moves the turn by one in the new direction.  Every card that is
    not a skip, a reverse, a draw-two or a wild-draw-four moves the turn by
    one and leaves the direction. *)
Theorem play_moves_turn env sid cardId chosen w code room player k card :
  accepted sid cardId w code room player k card → room_ok room →
  (1 < length (Player.cards player))%nat →
  let n := Z.of_nat (length (Room.players room)) in
  let d := Room.direction room in
  let i := Room.currentPlayerIndex room in
  ∃ w' room' evs,
    playCard env sid cardId chosen w = Ok (w', evs) ∧
    rooms w' !! code = Some room' ∧
    (Card.value card = "skip" →
     Room.direction room' = d ∧ Room.currentPlayerIndex room' = next n d (next n d i)) ∧
    (Card.value card = "reverse" → n ≠ 2 →
     Room.direction room' = d * -1 ∧ Room.currentPlayerIndex room' = next n (d * -1) i) ∧
    (Card.value card ≠ "skip" → Card.value card ≠ "reverse" →
     Card.value card ≠ "draw2" → Card.value card ≠ "wild_draw4" →
     Room.direction room' = d ∧ Room.currentPlayerIndex room' = next n d i).
Proof.
  intros Hacc [Hd _] Hlen n d i.
  pose proof (acc_player _ _ _ _ _ _ _ _ Hacc) as Hp.
  pose proof (acc_card _ _ _ _ _ _ _ _ Hacc) as Hc.
  apply list_find_Some in Hc as (Hk & _).
  assert (Hnz : length (delete k (Player.cards player)) ≠ 0%nat).
  { rewrite length_delete by (by eexists). lia. }
  rewrite (playCard_accepted _ _ _ _ _ _ _ _ _ _ Hacc).
  destruct (playAccepted_continues env code player k card chosen room w Hp Hd Hnz)
    as (w' & room' & evs & Hplay & Hrooms & _ & _ & _ & _ & _ & Hdir & _ & Hcur).
  exists w', room', evs. split; [exact Hplay|].
  split; [by rewrite Hrooms, lookup_insert_eq|].
  rewrite Hdir in Hcur. unfold turnSteps in Hcur. unfold directionAfter in Hdir, Hcur.
  fold n d i in Hcur, Hdir. split; [|split].
  - intros Hv. rewrite Hv in Hdir, Hcur. cbn [String.eqb Ascii.eqb Bool.eqb] in Hdir, Hcur.
    by split.
  - intros Hv Hn. rewrite Hv in Hdir, Hcur.
    cbn [String.eqb Ascii.eqb Bool.eqb] in Hdir, Hcur.
    destruct (Nat.eqb_spec (length (Room.players room)) 2) as [E|_]; [subst n; lia|].
    by split.
  - intros H1 H2 H3 H4.
    apply String.eqb_neq in H1, H2, H3, H4. rewrite H1, H2, H3, H4 in Hcur.
    rewrite H2 in Hdir. by split.
Qed.

Lemma duel_accepts_five :
  accepted "s1" "a2" duel "ROOM01" duelRoom duelS1 1 (Card.mk "red" "5" "a2").
Proof. split; vm_compute; reflexivity. Qed.

(** The witness of X26: the red 5 of the first player of [duel]. *)
Lemma play_moves_turn_witness :
  accepted "s1" "a2" duel "ROOM01" duelRoom duelS1 1 (Card.mk "red" "5" "a2") ∧
  room_ok duelRoom ∧
  (1 < length (Player.cards duelS1))%nat ∧
  ∃ w' room' evs,
    playCard env0 "s1" "a2" None duel = Ok (w', evs) ∧
    rooms w' !! "ROOM01" = Some room' ∧
    Room.direction room' = 1 ∧ Room.currentPlayerIndex room' = 1.
Proof.
  assert (Hlen : (1 < length (Player.cards duelS1))%nat) by (simpl; lia).
  split; [exact duel_accepts_five|]. split; [exact duelRoom_ok|]. split; [exact Hlen|].
  destruct (play_moves_turn env0 "s1" "a2" None duel "ROOM01" duelRoom duelS1 1
              (Card.mk "red" "5" "a2") duel_accepts_five duelRoom_ok Hlen)
    as (w' & room' & evs & Hplay & Hr & _ & _ & Hplain).
  destruct Hplain as [Hd Hc]; [discriminate..|].
  exists w', room', evs. split; [exact Hplay|]. split; [exact Hr|].
  split; [exact Hd|exact Hc].
Defined.

(** ** Handles and timers *)

Lemma holders_same_oid (hs : list (nat * option nat)) o t1 t2 :
  NoDup (fst <$> hs) → (o, t1) ∈ hs → (o, t2) ∈ hs → t1 = t2.
Proof.
  intros Hnd [i Hi]%list_elem_of_lookup_1 [j Hj]%list_elem_of_lookup_1.
  assert (i = j) as ->; [|congruence].
  eapply (NoDup_lookup (fst <$> hs)); [done| |]; rewrite list_lookup_fmap.
  - by rewrite Hi.
  - by rewrite Hj.
Qed.

(** Timers and numbering as before; in every room players as before, or fewer. *)
Lemma timers_ok_fewer w w' :
  timers_ok w →
  timers w' = timers w → nextTimer w' = nextTimer w → nextOid w' = nextOid w →
  (∀ code r', rooms w' !! code = Some r' →
     ∃ r, rooms w !! code = Some r ∧ holders r' `sublist_of` holders r) →
  timers_ok w'.
Proof.
  intros [T1 T2 T3 T4 T5] Ht Hn Ho Hsub. split.
  - intros code r' o h Hr Hin. destruct (Hsub _ _ Hr) as (r & Hr0 & Hs).
    rewrite Ht. eapply T1; [done|]. by eapply elem_of_sublist.
  - intros h o. rewrite Ht, Hn. apply T2.
  - intros code r' o t Hr Hin. destruct (Hsub _ _ Hr) as (r & Hr0 & Hs).
    rewrite Ho. eapply T3; [done|]. by eapply elem_of_sublist.
  - intros code r' Hr. destruct (Hsub _ _ Hr) as (r & Hr0 & Hs).
    eapply sublist_NoDup; [by eapply T4|]. by apply fmap_sublist.
  - intros c1 c2 r1' r2' o t1 t2 Hne Hr1 Hr2 H1 H2.
    destruct (Hsub _ _ Hr1) as (r1 & Hr10 & Hs1).
    destruct (Hsub _ _ Hr2) as (r2 & Hr20 & Hs2).
    eapply (T5 c1 c2); eauto using elem_of_sublist.
Qed.

(** One room changes: in it the players are those of before with other
    handles, each handle held after being held before or being pending for
    its holder. *)
Lemma timers_ok_room w w' code room room' :
  timers_ok w →
  rooms w !! code = Some room →
  rooms w' = <[code := room']> (rooms w) →
  nextOid w' = nextOid w →
  fst <$> holders room' = fst <$> holders room →
  (∀ h o, timers w' !! h = Some o → (h < nextTimer w')%nat) →
  (∀ o h, (o, Some h) ∈ holders room' → timers w' !! h = Some o) →
  (∀ c r o h, c ≠ code → rooms w !! c = Some r → (o, Some h) ∈ holders r →
     timers w' !! h = Some o) →
  timers_ok w'.
Proof.
  intros [T1 T2 T3 T4 T5] Hr Hrooms Ho Hfst Hbelow Hheld Hother.
  assert (Hoid : ∀ o t, (o, t) ∈ holders room' → ∃ t0, (o, t0) ∈ holders room).
  { intros o t Hin. apply (list_elem_of_fmap_2 fst) in Hin. rewrite Hfst in Hin.
    apply list_elem_of_fmap in Hin as ([o0 t0] & Heq & Hin). simpl in Heq. subst o0.
    by exists t0. }
  split.
  - intros c r o h Hc Hin. rewrite Hrooms in Hc.
    destruct (decide (c = code)) as [->|Hne].
    + rewrite lookup_insert_eq in Hc. simplify_eq. by apply Hheld.
    + rewrite lookup_insert_ne in Hc by done. by eapply Hother.
  - done.
  - intros c r o t Hc Hin. rewrite Hrooms in Hc. rewrite Ho.
    destruct (decide (c = code)) as [->|Hne].
    + rewrite lookup_insert_eq in Hc. simplify_eq.
      destruct (Hoid _ _ Hin) as [t0 Hin0]. by eapply T3.
    + rewrite lookup_insert_ne in Hc by done. by eapply T3.
  - intros c r Hc. rewrite Hrooms in Hc.
    destruct (decide (c = code)) as [->|Hne].
    + rewrite lookup_insert_eq in Hc. simplify_eq. rewrite Hfst. by eapply T4.
    + rewrite lookup_insert_ne in Hc by done. by eapply T4.
  - intros c1 c2 r1 r2 o t1 t2 Hne H1 H2 Hin1 Hin2. rewrite Hrooms in H1, H2.
    destruct (decide (c1 = code)) as [->|Hn1]; destruct (decide (c2 = code)) as [->|Hn2];
      try done.
    + rewrite lookup_insert_eq in H1. rewrite lookup_insert_ne in H2 by done. simplify_eq.
      destruct (Hoid _ _ Hin1) as [t0 Hin0]. eapply (T5 code c2); eauto.
    + rewrite lookup_insert_eq in H2. rewrite lookup_insert_ne in H1 by done. simplify_eq.
      destruct (Hoid _ _ Hin2) as [t0 Hin0]. eapply (T5 c1 code); eauto.
    + rewrite lookup_insert_ne in H1, H2 by done. eapply (T5 c1 c2); eauto.
Qed.

Lemma holders_update i f (ps : list Player.t) :
  (∀ p, holder (f p) = holder p) → holder <$> update i f ps = holder <$> ps.
Proof.
  intros Hf. unfold update. destruct (Z.ltb i 0); [done|].
  rewrite (list_fmap_alter holder f (λ x, x)) by (by apply Forall_forall).
  by apply list_alter_id.
Qed.

Lemma holders_update_at i f (ps : list Player.t) p :
  index ps i = Some p →
  holder <$> update i f ps = <[Z.to_nat i := holder (f p)]> (holder <$> ps).
Proof.
  intros [Hi Hp]%index_Some. unfold update. destruct (Z.ltb_spec i 0); [lia|].
  apply list_eq. intros j. rewrite list_lookup_fmap.
  destruct (decide (j = Z.to_nat i)) as [->|Hne].
  - rewrite list_lookup_alter_eq, Hp.
    rewrite list_lookup_insert_eq; [done|].
    rewrite length_fmap. by eapply lookup_lt_Some.
  - rewrite list_lookup_alter_ne, list_lookup_insert_ne by done.
    by rewrite list_lookup_fmap.
Qed.

Lemma holders_of_status (ps ps' : list Player.t) :
  status <$> ps' = status <$> ps → holder <$> ps' = holder <$> ps.
Proof.
  intros H.
  assert (Hg : ∀ l : list Player.t, holder <$> l = (λ s, (s.1.1.1.1.1.1, s.2)) <$> (status <$> l)).
  { intros l. rewrite <- list_fmap_compose. by apply list_fmap_ext. }
  by rewrite !Hg, H.
Qed.

(** The timer for the player at index [i] is started. *)
Lemma timers_ok_arm w w' code room room' (i : nat) o t :
  timers_ok w →
  rooms w !! code = Some room →
  rooms w' = <[code := room']> (rooms w) →
  nextOid w' = nextOid w →
  holders room !! i = Some (o, t) →
  holders room' = <[i := (o, Some (nextTimer w))]> (holders room) →
  timers w' = <[nextTimer w := o]> (timers w) →
  nextTimer w' = S (nextTimer w) →
  timers_ok w'.
Proof.
  intros Hw Hr Hrooms Ho Hi Hh Ht Hn.
  eapply (timers_ok_room w w' code room room'); try done.
  - rewrite Hh, list_fmap_insert. apply list_insert_id.
    by rewrite list_lookup_fmap, Hi.
  - intros h o'. rewrite Ht, Hn. intros [[-> _]|[_ Hl]]%lookup_insert_Some; [lia|].
    apply (timers_below w Hw) in Hl. lia.
  - intros o' h Hin. rewrite Hh in Hin. apply list_elem_of_lookup_1 in Hin as [j Hj].
    apply list_lookup_insert_Some in Hj as [(-> & Heq & _)|(Hne & Hj)].
    + injection Heq as E1 E2. subst o' h. rewrite Ht. apply lookup_insert_eq.
    + pose proof (held_pending w Hw code room o' h Hr (list_elem_of_lookup_2 _ _ _ Hj)) as Hl.
      pose proof (timers_below w Hw _ _ Hl). rewrite Ht, lookup_insert_ne by lia. done.
  - intros c r o' h Hc Hrc Hin.
    pose proof (held_pending w Hw c r o' h Hrc Hin) as Hl.
    pose proof (timers_below w Hw _ _ Hl). rewrite Ht, lookup_insert_ne by lia. done.
Qed.

(** The timer of the player at index [i], if any, is cancelled. *)
Lemma timers_ok_disarm w w' code room room' (i : nat) o t :
  timers_ok w →
  rooms w !! code = Some room →
  rooms w' = <[code := room']> (rooms w) →
  nextOid w' = nextOid w →
  holders room !! i = Some (o, t) →
  holders room' = <[i := (o, None)]> (holders room) →
  timers w' = match t with Some h => delete h (timers w) | None => timers w end →
  nextTimer w' = nextTimer w →
  timers_ok w'.
Proof.
  intros Hw Hr Hrooms Ho Hi Hh Ht Hn.
  assert (Hkeep : ∀ h o', timers w !! h = Some o' → t ≠ Some h → timers w' !! h = Some o').
  { intros h o' Hl Hne. rewrite Ht. destruct t as [h0|]; [|done].
    rewrite lookup_delete_ne; [done|]. congruence. }
  eapply (timers_ok_room w w' code room room'); try done.
  - rewrite Hh, list_fmap_insert. apply list_insert_id.
    by rewrite list_lookup_fmap, Hi.
  - intros h o' Hl. rewrite Hn. apply (timers_below w Hw h o').
    rewrite Ht in Hl. destruct t as [h0|]; [|done].
    apply lookup_delete_Some in Hl. tauto.
  - intros o' h Hin. rewrite Hh in Hin. apply list_elem_of_lookup_1 in Hin as [j Hj].
    apply list_lookup_insert_Some in Hj as [(-> & Heq & _)|(Hne & Hj)]; [done|].
    pose proof (held_pending w Hw code room o' h Hr (list_elem_of_lookup_2 _ _ _ Hj)) as Hl.
    apply Hkeep; [done|]. intros ->.
    pose proof (held_pending w Hw code room o h Hr (list_elem_of_lookup_2 _ _ _ Hi)) as Hl'.
    assert (o' = o) as -> by congruence.
    apply Hne. eapply (NoDup_lookup (fst <$> holders room)).
    + by eapply (oids_once w Hw).
    + by rewrite list_lookup_fmap, Hi.
    + by rewrite list_lookup_fmap, Hj.
  - intros c r o' h Hc Hrc Hin.
    pose proof (held_pending w Hw c r o' h Hrc Hin) as Hl.
    apply Hkeep; [done|]. intros ->.
    pose proof (held_pending w Hw code room o h Hr (list_elem_of_lookup_2 _ _ _ Hi)) as Hl'.
    assert (o' = o) as -> by congruence.
    eapply (oids_apart w Hw c code); eauto. by eapply list_elem_of_lookup_2.
Qed.

(** One room changes, timers and numbering do not: its players are those of
    before, or fewer. *)
Lemma timers_ok_sub w w' code room room' :
  timers_ok w →
  rooms w !! code = Some room →
  rooms w' = <[code := room']> (rooms w) →
  timers w' = timers w → nextTimer w' = nextTimer w → nextOid w' = nextOid w →
  holders room' `sublist_of` holders room →
  timers_ok w'.
Proof.
  intros Hw Hr Hrooms Ht Hn Ho Hs. eapply timers_ok_fewer; try done.
  intros c r'. rewrite Hrooms. destruct (decide (c = code)) as [->|Hc].
  - rewrite lookup_insert_eq. intros [= <-]. by exists room.
  - rewrite lookup_insert_ne by done. intros Hc'. by exists r'.
Qed.

Lemma clearCatchTimeouts_other ps : ∀ (tm : gmap nat nat) h,
  (∀ p, p ∈ ps → Player.catchTimeout p ≠ Some h) →
  clearCatchTimeouts ps tm !! h = tm !! h.
Proof.
  unfold clearCatchTimeouts.
  induction ps as [|p ps IH]; intros tm h Hno; simpl; [done|].
  rewrite IH by (intros q Hq; apply Hno; by right).
  destruct (Player.catchTimeout p) as [h'|] eqn:E; [|done].
  apply lookup_delete_ne. intros ->. eapply (Hno p); [by left|done].
Qed.

(** The timers of all players of a room are cancelled. *)
Lemma timers_ok_clear w w' code room room' ps :
  timers_ok w →
  rooms w !! code = Some room →
  rooms w' = <[code := room']> (rooms w) →
  nextOid w' = nextOid w → nextTimer w' = nextTimer w →
  holder <$> ps = holders room →
  holders room' = (λ x, (x.1, None)) <$> holders room →
  timers w' = clearCatchTimeouts ps (timers w) →
  timers_ok w'.
Proof.
  intros Hw Hr Hrooms Ho Hn Hps Hh Ht.
  eapply (timers_ok_room w w' code room room'); try done.
  - rewrite Hh, <- list_fmap_compose. by apply list_fmap_ext.
  - intros h o. rewrite Ht, Hn. intros Hl%clearCatchTimeouts_lookup.
    by eapply timers_below.
  - intros o h. rewrite Hh. intros ([o' t] & Heq & _)%list_elem_of_fmap. done.
  - intros c r o h Hc Hrc Hin. rewrite Ht, clearCatchTimeouts_other.
    + by eapply held_pending.
    + intros p Hp Hph.
      assert ((Player.oid p, Some h) ∈ holders room) as Hin'.
      { rewrite <- Hps. apply list_elem_of_fmap. exists p. split; [|done].
        unfold holder. by rewrite Hph. }
      pose proof (held_pending w Hw _ _ _ _ Hr Hin') as Hl'.
      pose proof (held_pending w Hw _ _ _ _ Hrc Hin) as Hl.
      assert (o = Player.oid p) as -> by congruence.
      eapply (oids_apart w Hw c code); eauto.
Qed.

(** A new player object enters a room, or makes a new one. *)
Lemma timers_ok_enter w w' code room' base :
  timers_ok w →
  rooms w' = <[code := room']> (rooms w) →
  timers w' = timers w → nextTimer w' = nextTimer w → nextOid w' = S (nextOid w) →
  base = [] ∨ (∃ room, rooms w !! code = Some room ∧ base = holders room) →
  holders room' = base ++ [(nextOid w, None)] →
  timers_ok w'.
Proof.
  intros [T1 T2 T3 T4 T5] Hrooms Ht Hn Ho Hbase Hh.
  assert (Hb : ∀ o t, (o, t) ∈ base →
            ∃ room, rooms w !! code = Some room ∧ (o, t) ∈ holders room).
  { intros o t Hin. destruct Hbase as [->|(room & Hr & ->)].
    - by apply elem_of_nil in Hin.
    - by exists room. }
  assert (Hnd : NoDup (fst <$> base)).
  { destruct Hbase as [->|(room & Hr & ->)]; [constructor|by eapply T4]. }
  assert (Hin' : ∀ o t, (o, t) ∈ holders room' →
            (∃ room, rooms w !! code = Some room ∧ (o, t) ∈ holders room)
            ∨ (o = nextOid w ∧ t = None)).
  { intros o t. rewrite Hh. intros [Hin|Hin%list_elem_of_singleton]%elem_of_app.
    - left. by apply Hb.
    - right. by injection Hin. }
  split.
  - intros c r o h. rewrite Hrooms, Ht. destruct (decide (c = code)) as [->|Hc].
    + rewrite lookup_insert_eq. intros [= <-] Hin.
      apply Hin' in Hin as [(room & Hr & Hin)|[_ ?]]; [|done]. by eapply T1.
    + rewrite lookup_insert_ne by done. apply T1.
  - intros h o. rewrite Ht, Hn. apply T2.
  - intros c r o t. rewrite Hrooms, Ho. destruct (decide (c = code)) as [->|Hc].
    + rewrite lookup_insert_eq. intros [= <-] Hin.
      apply Hin' in Hin as [(room & Hr & Hin)|[-> _]]; [|lia].
      pose proof (T3 _ _ _ _ Hr Hin). lia.
    + rewrite lookup_insert_ne by done. intros Hr Hin.
      pose proof (T3 _ _ _ _ Hr Hin). lia.
  - intros c r. rewrite Hrooms. destruct (decide (c = code)) as [->|Hc].
    + rewrite lookup_insert_eq. intros [= <-]. rewrite Hh, fmap_app.
      apply NoDup_app. split; [done|]. split; [|apply NoDup_singleton].
      intros o ([o' t] & -> & Hin)%list_elem_of_fmap Hin2%list_elem_of_singleton.
      simpl in Hin2. subst o'.
      destruct (Hb _ _ Hin) as (room & Hr & Hin0).
      pose proof (T3 _ _ _ _ Hr Hin0). lia.
    + rewrite lookup_insert_ne by done. apply T4.
  - intros c1 c2 r1 r2 o t1 t2 Hne. rewrite Hrooms.
    destruct (decide (c1 = code)) as [->|Hn1]; destruct (decide (c2 = code)) as [->|Hn2];
      try done.
    + rewrite lookup_insert_eq, lookup_insert_ne by done. intros [= <-] Hr2 H1 H2.
      apply Hin' in H1 as [(room & Hr & Hin)|[-> _]].
      * eapply (T5 code c2); eauto.
      * pose proof (T3 _ _ _ _ Hr2 H2). lia.
    + rewrite lookup_insert_eq, lookup_insert_ne by done. intros Hr1 [= <-] H1 H2.
      apply Hin' in H2 as [(room & Hr & Hin)|[-> _]].
      * eapply (T5 c1 code); eauto.
      * pose proof (T3 _ _ _ _ Hr1 H1). lia.
    + rewrite !lookup_insert_ne by done. apply T5. done.
Qed.

Lemma createRoom_timers env sid name w w' evs :
  timers_ok w → createRoom env sid name w = Ok (w', evs) → timers_ok w'.
Proof.
  unfold createRoom. intros Hw H. simplify_eq.
  eapply (timers_ok_enter w _ (generateRoomCode env) _ []); try done. by left.
Qed.

Lemma joinRoom_timers sid code name w w' evs :
  timers_ok w → joinRoom sid code name w = Ok (w', evs) → timers_ok w'.
Proof.
  unfold joinRoom. intros Hw H.
  destruct (rooms w !! toUpperCase code) as [room|] eqn:Hr; [|by simplify_eq].
  destruct (Room.gameStarted room); [by simplify_eq|].
  destruct (Nat.leb 10 _); simplify_eq; [done|].
  eapply (timers_ok_enter w _ (toUpperCase code) _ (holders room)); try done.
  - right. by exists room.
  - unfold holders. room_norm. by rewrite fmap_app.
Qed.

Lemma catchTimeoutFires_timers h w w' evs :
  timers_ok w → catchTimeoutFires h w = Ok (w', evs) → timers_ok w'.
Proof.
  unfold catchTimeoutFires. intros Hw H.
  destruct (timers w !! h) as [o|] eqn:Hh; simplify_eq; [|done].
  set (expire := λ p : Player.t, if decide (Player.oid p = o) then _ else p).
  assert (Hfst : ∀ room,
    fst <$> (holder <$> (expire <$> Room.players room)) = fst <$> holders room).
  { intros room. unfold holders. rewrite <- !list_fmap_compose. apply list_fmap_ext.
    intros _ p _. simpl. unfold expire. by destruct (decide _). }
  assert (Hin : ∀ room o' t, (o', t) ∈ holder <$> (expire <$> Room.players room) →
            ∃ t0, (o', t0) ∈ holders room ∧ (t = t0 ∧ o' ≠ o ∨ t = None)).
  { intros room o' t Hin. apply list_elem_of_fmap in Hin as (p' & Heq & Hin).
    apply list_elem_of_fmap in Hin as (p & -> & Hp).
    exists (Player.catchTimeout p).
    assert ((Player.oid p, Player.catchTimeout p) ∈ holders room) as Hp'.
    { apply list_elem_of_fmap. by exists p. }
    unfold expire, holder in Heq.
    destruct (decide (Player.oid p = o)); simpl in Heq; injection Heq as -> ->.
    - split; [done|]. by right.
    - split; [done|]. by left. }
  assert (Hroom : ∀ c r', rooms (mkWorld ((λ room, Room.set_players (expire <$> Room.players room) room) <$> rooms w)
                (roomCode w) (delete h (timers w)) (nextTimer w) (nextOid w)) !! c = Some r' →
            ∃ r, rooms w !! c = Some r ∧ holders r' = holder <$> (expire <$> Room.players r)).
  { intros c r'. room_norm. rewrite lookup_fmap.
    destruct (rooms w !! c) as [r|]; [|done]. intros [= <-]. by exists r. }
  destruct Hw as [T1 T2 T3 T4 T5]. split.
  - intros c r' o' h' (r & Hr & Hh')%Hroom. rewrite Hh'.
    intros (t0 & Hin0 & [[<- Hne]|?])%Hin; [|done]. room_norm.
    pose proof (T1 _ _ _ _ Hr Hin0) as Hl.
    rewrite lookup_delete_ne; [done|]. intros ->. congruence.
  - intros h' o'. room_norm. intros [_ Hl]%lookup_delete_Some. by eapply T2.
  - intros c r' o' t (r & Hr & Hh')%Hroom. rewrite Hh'.
    intros (t0 & Hin0 & _)%Hin. room_norm. by eapply T3.
  - intros c r' (r & Hr & Hh')%Hroom. rewrite Hh', Hfst. by eapply T4.
  - intros c1 c2 r1' r2' o' t1 t2 Hne (r1 & Hr1 & Hh1)%Hroom (r2 & Hr2 & Hh2)%Hroom.
    rewrite Hh1, Hh2. intros (t01 & Hin1 & _)%Hin (t02 & Hin2 & _)%Hin.
    eapply (T5 c1 c2); eauto.
Qed.

Lemma dealLoop_holders env n : ∀ k room i room' k',
  dealLoop env k room i n = Ok (room', k') → holders room' = holders room.
Proof.
  induction n as [|n IH]; intros k room i room' k' H; cbn [dealLoop] in H.
  { by simplify_eq. }
  unbind. destruct (drawCards env k room 7) as [[[room1 cs] k1]|] eqn:Hd; [|done].
  apply drawCards_same_table in Hd as (_&Hp&_).
  apply IH in H. unfold holders in *. room_norm. by rewrite H, holders_update, Hp.
Qed.

Lemma startGame_timers env sid w w' evs :
  timers_ok w → startGame env sid w = Ok (w', evs) → timers_ok w'.
Proof.
  unfold startGame. intros Hw H.
  destruct (roomCode w !! sid) as [code|]; [|by simplify_eq].
  destruct (rooms w !! code) as [room|] eqn:Hr; [|by simplify_eq].
  destruct (find _ _) as [player|]; [|by simplify_eq].
  destruct (negb (Player.isHost player)); [by simplify_eq|].
  destruct (Nat.ltb_spec (length (Room.players room)) 2) as [|Hn]; [by simplify_eq|].
  destruct (createDeck env) as [deck k].
  unbind. room_norm.
  destruct (dealLoop _ _ _ _ _) as [[room1 k1]|] eqn:Hdeal; [|done].
  apply dealLoop_holders in Hdeal. unfold holders in Hdeal. room_norm.
  destruct (firstCardLoop _ _) as [[firstCard deck1]|]; [|done].
  set (room2 := Room.set_discardPile _ (Room.set_deck deck1 room1)) in H.
  match type of H with
  | match ?special with _ => _ end = _ =>
    assert (∀ room3, special = Ok room3 → holders room3 = holders room) as Hok
  end.
  { intros room3 H3. unfold holders.
    repeat case_match; simplify_eq; try done.
    match goal with
    | H : drawCards _ _ _ _ = Ok _ |- _ =>
      apply drawCards_same_table in H as (_&Hp&_)
    end.
    room_norm. by rewrite holders_update, Hp. }
  destruct (if String.eqb (Card.value firstCard) "skip" then _ else _) as [room3|]; [|done].
  specialize (Hok room3 eq_refl).
  destruct (emitToPlayers _ _); simplify_eq.
  eapply (timers_ok_sub w _ code room room3); try done. by rewrite Hok.
Qed.

(** What an accepted play does to the handles and the timers: it cancels the
    timers of all players when it wins, it starts one for the player who
    played when it leaves one card without UNO said, and it leaves them alone
    otherwise. *)
Lemma playAccepted_holders env code i player k card chosen room w w' evs :
  playAccepted env code i player k card chosen room w = Ok (w', evs) →
  index (Room.players room) i = Some player →
  ∃ room', rooms w' = <[code := room']> (rooms w) ∧ nextOid w' = nextOid w ∧
    ((holders room' = (λ x, (x.1, None)) <$> holders room ∧
      timers w' = clearCatchTimeouts (update i (Player.set_cards (delete k (Player.cards player)))
                                        (Room.players room)) (timers w) ∧
      nextTimer w' = nextTimer w)
     ∨ (holders room' = holders room ∧ timers w' = timers w ∧ nextTimer w' = nextTimer w)
     ∨ (holders room' = <[Z.to_nat i := (Player.oid player, Some (nextTimer w))]> (holders room) ∧
        timers w' = <[nextTimer w := Player.oid player]> (timers w) ∧
        nextTimer w' = S (nextTimer w))).
Proof.
  unfold playAccepted. intros H Hi. room_norm.
  set (hand := delete k (Player.cards player)) in *.
  set (ps1 := update i (Player.set_cards hand) (Room.players room)) in *.
  assert (H1 : holder <$> ps1 = holders room).
  { subst ps1. by rewrite holders_update. }
  assert (Hi1 : index ps1 i = Some (Player.set_cards hand player)).
  { subst ps1. by rewrite index_update_eq, Hi. }
  destruct (Nat.eqb _ 0).
  { simplify_eq. eexists. room_norm. split; [done|]. split; [done|]. left.
    split; [|done]. unfold holders at 1. room_norm.
    rewrite <- H1, <- !list_fmap_compose. by apply list_fmap_ext. }
  unfold unoLogic, setTimeout in H.
  assert (Htail : ∀ room2 (w2 : World) evs1,
    ('(room, skipNext, evs2) ←
        handleSpecialCards env card
          (Room.update_player i (Player.set_saidUno false) room2);
      let room := moveToNextPlayer skipNext room in
      evs3 ← emitToPlayers "gameState" room;
      Ok (set_rooms (<[code := room]> (rooms w2)) w2, evs1 ++ evs2 ++ evs3)) = Ok (w', evs) →
    ∃ room', rooms w' = <[code := room']> (rooms w2) ∧ nextOid w' = nextOid w2 ∧
             timers w' = timers w2 ∧ nextTimer w' = nextTimer w2 ∧
             holders room' = holders room2).
  { intros room2 w2 evs1 Ht. unbind.
    destruct (handleSpecialCards _ _ _) as [[[room3 b] evs2]|] eqn:Hsp; [|done].
    apply handleSpecialCards_status, holders_of_status in Hsp.
    destruct (emitToPlayers _ _) as [evs3|]; [|done]. simplify_eq.
    eexists. room_norm. do 4 (split; [done|]).
    unfold holders. rewrite moveToNextPlayer_players, Hsp. room_norm.
    by rewrite holders_update. }
  destruct (Nat.eqb _ 1); [destruct (negb (Player.saidUno player))|].
  - destruct (Htail _ _ _ H) as (room' & Hrooms & Ho & Ht & Hn & Hh).
    exists room'. room_norm. split; [done|]. split; [done|]. right. right.
    split; [|done]. rewrite Hh. unfold holders. room_norm. fold ps1.
    rewrite (holders_update_at _ _ _ _ Hi1), H1. done.
  - destruct (Htail _ _ _ H) as (room' & Hrooms & Ho & Ht & Hn & Hh).
    exists room'. split; [done|]. split; [done|]. right. left.
    split; [|done]. rewrite Hh. unfold holders at 1. room_norm. done.
  - destruct (Htail _ _ _ H) as (room' & Hrooms & Ho & Ht & Hn & Hh).
    exists room'. split; [done|]. split; [done|]. right. left.
    split; [|done]. rewrite Hh. unfold holders at 1. room_norm. done.
Qed.

Lemma playCard_timers env sid cardId chosen w w' evs :
  timers_ok w → playCard env sid cardId chosen w = Ok (w', evs) → timers_ok w'.
Proof.
  intros Hw H.
  destruct (playCard_dichotomy _ _ _ _ _ _ _ H) as [(code&room&player&k&card&Hacc)|[-> _]];
    [|done].
  rewrite (playCard_accepted _ _ _ _ _ _ _ _ _ _ Hacc) in H.
  destruct Hacc as [Hs Hr Hst Ht Hp Hc Hl].
  destruct (playAccepted_holders _ _ _ _ _ _ _ _ _ _ _ H Hp)
    as (room' & Hrooms & Ho & [(Hh & Htm & Hn)|[(Hh & Htm & Hn)|(Hh & Htm & Hn)]]).
  - eapply (timers_ok_clear w w' code room room' _ Hw Hr Hrooms Ho Hn); [|exact Hh|exact Htm].
    by apply holders_update.
  - eapply (timers_ok_sub w w' code room room'); try done. by rewrite Hh.
  - eapply (timers_ok_arm w w' code room room' (Z.to_nat _) _ (Player.catchTimeout player));
      try done.
    apply index_Some in Hp as [_ Hp]. unfold holders. by rewrite list_lookup_fmap, Hp.
Qed.

Lemma drawCard_timers env sid w w' evs :
  timers_ok w → drawCard env sid w = Ok (w', evs) → timers_ok w'.
Proof.
  unfold drawCard. intros Hw H.
  destruct (roomCode w !! sid) as [code|]; [|by simplify_eq].
  destruct (rooms w !! code) as [room|] eqn:Hr; [|by simplify_eq].
  destruct (negb _); [by simplify_eq|].
  destruct (negb _); [by simplify_eq|].
  unbind. destruct (drawCards env 0 room 1) as [[[room1 cs] k1]|] eqn:Hdraw; [|done].
  pose proof (drawCards_same_table _ _ _ _ _ _ _ Hdraw) as (_ & Hp & _).
  destruct (index _ _) as [p|] eqn:Hi; [|done].
  destruct (match cs with [] => _ | _ => _ end) as [[]|]; [| |done].
  - simplify_eq. eapply (timers_ok_sub w _ code room); try done.
    unfold holders. room_norm. by rewrite holders_update, Hp.
  - destruct (emitToPlayers _ _); [|done]. simplify_eq.
    eapply (timers_ok_sub w _ code room); try done.
    unfold holders. room_norm. by rewrite holders_update, Hp.
Qed.

Lemma holders_flag i f room :
  (∀ p, holder (f p) = holder p) → holders (Room.update_player i f room) = holders room.
Proof. intros Hf. unfold holders. room_norm. by apply holders_update. Qed.

Lemma holders_disarm (i : nat) room p :
  Room.players room !! i = Some p →
  holders (Room.update_player (Z.of_nat i) (Player.set_catchTimeout None) room)
  = <[i := (Player.oid p, None)]> (holders room).
Proof.
  intros Hi. unfold holders. room_norm.
  rewrite (holders_update_at _ _ _ p), Nat2Z.id; [done|].
  apply index_Some. rewrite Nat2Z.id. split; [lia|done].
Qed.

Lemma sayUno_timers sid w w' evs :
  timers_ok w → sayUno sid w = Ok (w', evs) → timers_ok w'.
Proof.
  unfold sayUno, clearTimeout. intros Hw H.
  destruct (roomCode w !! sid) as [code|]; [|by simplify_eq].
  destruct (rooms w !! code) as [room|] eqn:Hr; [|by simplify_eq].
  destruct (negb _); [by simplify_eq|].
  destruct (list_find _ _) as [[i player]|] eqn:Hf; [|by simplify_eq].
  apply list_find_Some in Hf as (Hi & _).
  destruct (Nat.leb _ 2); [|by simplify_eq].
  destruct (Player.canBeCaught player); [destruct (Player.catchTimeout player) as [h|] eqn:Hh|];
    simplify_eq.
  - eapply (timers_ok_disarm w _ code room _ i (Player.oid player) (Some h)); try done.
    + unfold holders. rewrite list_lookup_fmap, Hi. cbn. unfold holder. by rewrite Hh.
    + unfold holders. room_norm.
      rewrite (holders_update_at _ _ _ (Player.set_canBeCaught false (Player.set_saidUno true player))).
      * by rewrite Nat2Z.id, !holders_update.
      * rewrite !index_update_eq. 
        assert (index (Room.players room) (Z.of_nat i) = Some player) as ->; [|done].
        apply index_Some. rewrite Nat2Z.id. split; [lia|done].
  - eapply (timers_ok_sub w _ code room); try done. by rewrite !holders_flag.
  - eapply (timers_ok_sub w _ code room); try done. by rewrite !holders_flag.
Qed.

Lemma catchUno_timers env sid tid w w' evs :
  timers_ok w → catchUno env sid tid w = Ok (w', evs) → timers_ok w'.
Proof.
  unfold catchUno, clearTimeout. intros Hw H.
  destruct (roomCode w !! sid) as [code|]; [|by simplify_eq].
  destruct (rooms w !! code) as [room|] eqn:Hr; [|by simplify_eq].
  destruct (negb _); [by simplify_eq|].
  destruct (find _ _) as [catcher|]; [|by simplify_eq].
  destruct (list_find _ _) as [[i target]|] eqn:Hf; [|by simplify_eq].
  destruct (decide _); [by simplify_eq|].
  destruct (_ && _)%bool; [|by simplify_eq].
  apply list_find_Some in Hf as (Hi & _).
  assert (Hidx : index (Room.players room) (Z.of_nat i) = Some target).
  { apply index_Some. rewrite Nat2Z.id. split; [lia|done]. }
  assert (Htail : ∀ room2 (w2 : World),
    ('(room, penaltyCards, _) ← drawCards env 0 room2 2;
     let room := Room.update_player (Z.of_nat i) (Player.push_cards penaltyCards) room in
     evs ← emitToPlayers "gameState" room;
     Ok (set_rooms (<[code := room]> (rooms w2)) w2,
         [Emit (ToRoom code) "unoCaught" None;
          Emit (ToSocket (Player.id target)) "cardsDrawn" None] ++ evs)) = Ok (w', evs) →
    ∃ room', rooms w' = <[code := room']> (rooms w2) ∧ nextOid w' = nextOid w2 ∧
             timers w' = timers w2 ∧ nextTimer w' = nextTimer w2 ∧
             holders room' = holders room2).
  { intros room2 w2 Ht. unbind.
    destruct (drawCards env 0 room2 2) as [[[room3 cs] k3]|] eqn:Hdraw; [|done].
    apply drawCards_same_table in Hdraw as (_ & Hp & _).
    destruct (emitToPlayers _ _); [|done]. simplify_eq. eexists. room_norm.
    do 4 (split; [done|]). unfold holders. room_norm. by rewrite holders_update, Hp. }
  destruct (Player.catchTimeout target) as [h0|] eqn:Hh.
  - destruct (Htail _ _ H) as (room' & Hrooms & Ho & Ht & Hn & Hh').
    eapply (timers_ok_disarm w w' code room room' i (Player.oid target) (Some h0)); try done.
    + unfold holders. rewrite list_lookup_fmap, Hi. cbn. unfold holder. by rewrite Hh.
    + rewrite Hh'. unfold holders. room_norm.
      rewrite (holders_update_at _ _ _ (Player.set_canBeCaught false target)).
      * by rewrite Nat2Z.id, !holders_update.
      * by rewrite !index_update_eq, Hidx.
  - destruct (Htail _ _ H) as (room' & Hrooms & Ho & Ht & Hn & Hh').
    eapply (timers_ok_sub w w' code room room'); try done.
    by rewrite Hh', holders_flag.
Qed.

Lemma disconnect_timers sid w w' evs :
  timers_ok w → disconnect sid w = Ok (w', evs) → timers_ok w'.
Proof.
  unfold disconnect. intros Hw H.
  destruct (roomCode w !! sid) as [code|]; [|by simplify_eq].
  destruct (String.eqb code ""); [by simplify_eq|].
  destruct (rooms w !! code) as [room|] eqn:Hr; [|by simplify_eq].
  destruct (list_find _ _) as [[i player]|] eqn:Hf; [|by simplify_eq].
  room_norm.
  destruct (Nat.eqb _ 0).
  { simplify_eq. eapply timers_ok_fewer; try done.
    intros c r'. room_norm. intros [_ Hc]%lookup_delete_Some. by exists r'. }
  set (room0 := Room.set_players (delete i (Room.players room)) room) in H.
  assert (H0 : holders room0 `sublist_of` holders room).
  { unfold holders. subst room0. room_norm. apply fmap_sublist, sublist_delete. }
  clearbody room0.
  set (room1 := if (Player.isHost player && _)%bool then _ else _) in H.
  assert (H1 : holders room1 = holders room0).
  { subst room1. destruct (Player.isHost player && _)%bool; [|done]. by apply holders_flag. }
  clearbody room1.
  set (room2 := if (Room.gameStarted room1 && _)%bool then _ else _) in H.
  assert (H2 : holders room2 = holders room1).
  { subst room2. by destruct (Room.gameStarted room1 && _)%bool. }
  clearbody room2.
  destruct (_ && _)%bool; simplify_eq;
    (eapply (timers_ok_sub w _ code room); try done);
    unfold holders in *; room_norm; by rewrite H2, H1.
Qed.

Lemma step_timers env a w w' evs :
  timers_ok w → step env a w = Ok (w', evs) → timers_ok w'.
Proof.
  intros Hw Hstep. destruct a; cbn [step] in Hstep.
  - by eapply createRoom_timers.
  - by eapply joinRoom_timers.
  - by eapply startGame_timers.
  - by eapply playCard_timers.
  - by eapply drawCard_timers.
  - by eapply sayUno_timers.
  - by eapply catchUno_timers.
  - by eapply disconnect_timers.
  - by eapply catchTimeoutFires_timers.
Qed.

Lemma timers_ok_initial : timers_ok initial.
Proof. split; intros *; cbn; try done; rewrite ?lookup_empty; done. Qed.

Lemma reachable_timers w : reachable w → timers_ok w.
Proof.
  induction 1 as [|env a w w' evs _ IH Hstep]; [apply timers_ok_initial|].
  by eapply step_timers.
Qed.

(** X27.  In every state that the server reaches, the handle in the
    [catchTimeout] of a player of a room is that of a pending timer, whose
    callback closes over this very player object; and no other player, of
    this room or of another, holds the same handle. *)
Theorem held_handle_is_own_pending_timer w code room (i : nat) p h :
  reachable w →
  rooms w !! code = Some room →
  Room.players room !! i = Some p →
  Player.catchTimeout p = Some h →
  timers w !! h = Some (Player.oid p) ∧
  ∀ code' room' (j : nat) q,
    rooms w !! code' = Some room' → Room.players room' !! j = Some q →
    Player.catchTimeout q = Some h → code' = code ∧ j = i.
Proof.
  intros Hw%reachable_timers Hr Hi Hh.
  assert (Hin : ∀ r (j : nat) q, Room.players r !! j = Some q →
            Player.catchTimeout q = Some h →
            holders r !! j = Some (Player.oid q, Some h)).
  { intros r j q Hj Hq. unfold holders. rewrite list_lookup_fmap, Hj. cbn.
    unfold holder. by rewrite Hq. }
  pose proof (Hin room i p Hi Hh) as Hp.
  pose proof (held_pending w Hw _ _ _ _ Hr (list_elem_of_lookup_2 _ _ _ Hp)) as Hl.
  split; [done|]. intros code' room' j q Hr' Hj Hq.
  pose proof (Hin room' j q Hj Hq) as Hq'.
  pose proof (held_pending w Hw _ _ _ _ Hr' (list_elem_of_lookup_2 _ _ _ Hq')) as Hl'.
  assert (Player.oid q = Player.oid p) as Ho by congruence. rewrite Ho in Hq'.
  destruct (decide (code' = code)) as [->|Hne].
  - split; [done|]. assert (room' = room) as -> by congruence.
    eapply (NoDup_lookup (fst <$> holders room)).
    + by eapply (oids_once w Hw).
    + by rewrite list_lookup_fmap, Hq'.
    + by rewrite list_lookup_fmap, Hp.
  - exfalso. eapply (oids_apart w Hw code' code); eauto using list_elem_of_lookup_2.
Qed.

Lemma forgotten_reachable : reachable forgotten.
Proof.
  apply (run_reachable env0 opening initial); [constructor|].
  vm_compute. reflexivity.
Qed.

(** The witness of X27: the second player of [forgotten] and its timer. *)
Lemma held_handle_is_own_pending_timer_witness :
  reachable forgotten ∧
  ∃ room p,
    rooms forgotten !! "AAAAAA" = Some room ∧
    Room.players room !! 1%nat = Some p ∧
    Player.catchTimeout p = Some 0%nat ∧
    timers forgotten !! 0%nat = Some (Player.oid p) ∧
    ∀ code' room' (j : nat) q,
      rooms forgotten !! code' = Some room' → Room.players room' !! j = Some q →
      Player.catchTimeout q = Some 0%nat → code' = "AAAAAA" ∧ j = 1%nat.
Proof.
  split; [exact forgotten_reachable|].
  assert (H : ∃ room p,
    rooms forgotten !! "AAAAAA" = Some room ∧
    Room.players room !! 1%nat = Some p ∧
    Player.catchTimeout p = Some 0%nat).
  { eexists _, _. split; [vm_compute; reflexivity|]. split; reflexivity. }
  destruct H as (room & p & H1 & H2 & H3). exists room, p.
  split; [exact H1|]. split; [exact H2|]. split; [exact H3|].
  exact (held_handle_is_own_pending_timer forgotten "AAAAAA" room 1 p 0
           forgotten_reachable H1 H2 H3).
Defined.
